(** * Session bridge of the Gemini Live chat server

    A shallow embedding of the session services of [src/server]:
    [gemini_live_service.py] (class [GeminiLiveService]),
    [gemini_live2_service.py] (class [GeminiLive2Service]), [utils.py]
    and the polling route of [app.py], followed by the properties of the
    specification that concern them.

    Conventions of the embedding.
    - A Python [dict] used as a registry is a [gmap string _]; a dict with a
      fixed set of keys is a record, an optional key an [option] field.
    - A flat JSON object is a [gmap string pyval].
    - [str] is [string]; its characters are the code points below 256.
    - [bytes] is [list byte].
    - Code that can raise runs in the monad [M]: a state transformer whose
      result is [Ok] or [Raise]; the state keeps what was done before the
      exception, as in Python.
    - What the process cannot decide itself (the HTTP search endpoint, the
      speech synthesiser, base64, the random generator) is a field of
      [World]; the frames of the remote stream are an argument. *)

From Stdlib Require Import ZArith List String Ascii Lia.
From Stdlib Require Import Strings.Byte.
From stdpp Require Import base option list gmap strings pretty.

Open Scope string_scope.
Open Scope list_scope.

(** ** Python values *)

Module Py.

(** Scalar Python / JSON values. *)
Inductive pyval : Type :=
| PNone
| PBool (b : bool)
| PInt (z : Z)
| PStr (s : string).

#[global] Instance pyval_eq_dec : EqDecision pyval.
Proof. solve_decision. Defined.

(** A flat JSON object. *)
Abbreviation pydict := (gmap string pyval).

(** [bool(v)] *)
Definition truthy (v : pyval) : bool :=
  match v with
  | PNone => false
  | PBool b => b
  | PInt z => negb (z =? 0)%Z
  | PStr s => negb (String.eqb s "")
  end.

(** [bool(s)] for a [str]. *)
Definition nonempty (s : string) : bool := negb (String.eqb s "").

(** [str(v)] *)
Definition py_str (v : pyval) : string :=
  match v with
  | PNone => "None"
  | PBool true => "True"
  | PBool false => "False"
  | PInt z => pretty z
  | PStr s => s
  end.

(** [d.get(k)]: [None] when the key is absent. *)
Definition get (d : pydict) (k : string) : pyval := default PNone (d !! k).

(** [d.get(k, dflt)] *)
Definition get_or (d : pydict) (k : string) (dflt : pyval) : pyval :=
  default dflt (d !! k).

(** [a or b] *)
Definition py_or (a b : pyval) : pyval := if truthy a then a else b.

(** [c.isspace()] for a code point below 256. *)
Definition isspace (c : ascii) : bool :=
  let n := nat_of_ascii c in
  (((9 <=? n) && (n <=? 13)) || ((28 <=? n) && (n <=? 32))
   || (n =? 133) || (n =? 160))%nat.

Fixpoint lstrip (s : string) : string :=
  match s with
  | EmptyString => EmptyString
  | String c s' => if isspace c then lstrip s' else s
  end.

(** [s.rstrip()]: a character is dropped when it is a space and all that
    follows it has been dropped. *)
Fixpoint rstrip (s : string) : string :=
  match s with
  | EmptyString => EmptyString
  | String c s' =>
      match rstrip s' with
      | EmptyString => if isspace c then EmptyString else String c EmptyString
      | r => String c r
      end
  end.

(** [s.strip()] *)
Definition strip (s : string) : string := rstrip (lstrip s).

(** [sep in s] for a one-character [sep]. *)
Fixpoint contains (sep : ascii) (s : string) : bool :=
  match s with
  | EmptyString => false
  | String c s' => if Ascii.eqb c sep then true else contains sep s'
  end.

(** [s.split(sep, 1)]: the text before the first [sep] and the text after
    it, or [None] when [sep] does not occur (the list then has one item). *)
Fixpoint split_once (sep : ascii) (s : string) : option (string * string) :=
  match s with
  | EmptyString => None
  | String c s' =>
      if Ascii.eqb c sep then Some (EmptyString, s')
      else match split_once sep s' with
           | Some (a, b) => Some (String c a, b)
           | None => None
           end
  end.

(** [s.split(sep)] *)
Fixpoint split (sep : ascii) (s : string) : list string :=
  match s with
  | EmptyString => [EmptyString]
  | String c s' =>
      if Ascii.eqb c sep then EmptyString :: split sep s'
      else match split sep s' with
           | w :: ws => String c w :: ws
           | [] => [String c EmptyString]
           end
  end.

(** The result of running Python code: a value or a raised exception,
    carried as its message. *)
Inductive result (A : Type) : Type :=
| Ok (a : A)
| Raise (e : string).
Arguments Ok {A} a.
Arguments Raise {A} e.

End Py.
Import Py.

(** ** [utils.normalize_product] *)

Module Utils.

(** [f"${r/100:.2f}"] for an integer [r]: the price in cents printed with
    two decimals. *)
Definition format_price (r : Z) : string :=
  let cents := (r mod 100)%Z in
  "$" +:+ pretty (r / 100)%Z +:+ "." +:+
  (if (cents <? 10)%Z then "0" else "") +:+ pretty cents.

(** [normalize_product(product, query=None)]; [r] is the value drawn by
    [random.randint(999, 9999)], which Python evaluates on every call. *)
Definition normalize_product (product : pydict) (query : pyval) (r : Z)
  : pydict :=
  let pid := get_or product "id" (get_or product "productid" (PStr "")) in
  let q := if truthy query then py_str query else "image" in
  <["id" := py_or (get product "id") (get_or product "productid" (PStr ""))]>
  (<["image_url" := get_or product "image_url" (PStr "")]>
  (<["name" := get_or product "name" (PStr ("Product " +:+ py_str pid))]>
  (<["description" := get_or product "description"
       (PStr ("This product matches your " +:+ q +:+ " search"))]>
  (<["price" := get_or product "price" (PStr (format_price r))]>
  (<["aisle" := get_or product "aisle" (PStr "Unknown")]> ∅))))).

End Utils.

(** ** Exceptions and state *)

Module Run.

(** A computation over a state [S] that returns an [A] or raises. *)
Definition M (S A : Type) : Type := S → result A * S.

Definition ret {S A} (a : A) : M S A := λ s, (Ok a, s).

Definition bind {S A B} (m : M S A) (k : A → M S B) : M S B :=
  λ s, match m s with
       | (Ok a, s') => k a s'
       | (Raise e, s') => (Raise e, s')
       end.

#[global] Instance M_ret {S} : MRet (M S) := λ A, ret.
#[global] Instance M_bind {S} : MBind (M S) := λ A B k m, bind m k.

(** [raise Exception(e)] *)
Definition raise {S A} (e : string) : M S A := λ s, (Raise e, s).

(** [try: body  except Exception as e: handler(e)] *)
Definition try_except {S A} (body : M S A) (handler : string → M S A) : M S A :=
  λ s, match body s with
       | (Ok a, s') => (Ok a, s')
       | (Raise e, s') => handler e s'
       end.

Definition gets {S A} (f : S → A) : M S A := λ s, (Ok (f s), s).
Definition modify {S} (f : S → S) : M S unit := λ s, (Ok tt, f s).

(** A pure result lifted into the monad. *)
Definition lift {S A} (r : result A) : M S A := λ s, (r, s).

(** [for x in xs: body(x)] without [break]. *)
Fixpoint for_each {S A} (xs : list A) (body : A → M S unit) : M S unit :=
  match xs with
  | [] => ret tt
  | x :: xs' => bind (body x) (λ _, for_each xs' body)
  end.

End Run.
Import Run.

(** ** What lies outside the process *)

(** The JSON body of an answer of [GET /api/search], taken to be an object
    whose ["results"], when present, is a list of flat objects. *)
Record search_data : Type := {
  sd_results : option (list pydict);   (* the key ["results"] *)
  sd_extra : pydict                    (* the other keys of the body *)
}.

Inductive http_outcome : Type :=
| HttpRaise (e : string)               (* the request itself failed *)
| HttpResponse (status : Z)
    (json : result search_data)        (* [response.json()] *)
    (text : string).                   (* [response.text()] *)

Record World : Type := {
  http_get : string → http_outcome;
  synthesize_speech : string → result (list byte);
  b64encode : list byte → string;
  b64decode : string → result (list byte);
  randint : nat → Z                    (* the n-th [random.randint(999, 9999)] *)
}.

(** ** Frames of the remote stream *)

Record function_call : Type := {
  fc_id : string;
  fc_name : string;
  fc_args : pydict
}.

(** A frame as the services probe it: a field is [None] (or [false]) when
    the attribute is missing or falsy. *)
Record response : Type := {
  r_text : option string;
  r_tool_call : option (list function_call);   (* [tool_call.function_calls] *)
  r_end_of_turn : bool;
  r_audio : option (list byte);
  r_output_transcription : option string;
  r_input_transcription : option string
}.

(** [response.text] is present and non-empty. *)
Definition text_of (r : response) : option string :=
  match r_text r with
  | Some t => if nonempty t then Some t else None
  | None => None
  end.

(** [bool(x)] for a value that is [None] or a [str], such as a client id or
    the data URL of a frame. *)
Definition str_truthy (c : option string) : bool :=
  match c with Some s => nonempty s | None => false end.

(** The dicts the handlers return: [{"error": msg}] and [{"status": msg}]. *)
Inductive reply : Type :=
| ReplyError (msg : string)
| ReplyStatus (msg : string).

(** ** [GeminiLive2Service] *)

Module Live2.

(** An item of [out_queue]: [{"data": ..., "mime_type": ...}]. *)
Record queue_item : Type := {
  data : list byte;
  mime_type : string
}.

(** The state of one session, [self.sessions[session_id]]. *)
Record session : Type := {
  audio : list (list byte);
  active : bool;
  out_queue : option (list queue_item);   (* [None]: the key is absent *)
  socketio : bool;                        (* [false]: [None] *)
  client_sid : option string;
  stream_task : bool                      (* [false]: [None] *)
}.

(** A coroutine handed to the event loop by [run_coroutine_threadsafe]. *)
Inductive coroutine : Type :=
| QueuePut (session_id : string) (item : queue_item).

Record service : Type := {
  sessions : gmap string session;
  loop : option (list coroutine)   (* [self.loop] and what was submitted to it *)
}.

Definition with_sessions (svc : service) (m : gmap string session) : service :=
  {| sessions := m; loop := loop svc |}.

Definition submit (svc : service) (c : coroutine) : service :=
  {| sessions := sessions svc;
     loop := match loop svc with
             | Some pending => Some (pending ++ [c])
             | None => None
             end |}.

Definition append_audio (s : session) (pcm_bytes : list byte) : session :=
  {| audio := audio s ++ [pcm_bytes]; active := active s;
     out_queue := out_queue s; socketio := socketio s;
     client_sid := client_sid s; stream_task := stream_task s |}.

Definition deactivate (s : session) : session :=
  {| audio := audio s; active := false;
     out_queue := out_queue s; socketio := socketio s;
     client_sid := client_sid s; stream_task := stream_task s |}.

Definition attach (s : session) (sid : string) : session :=
  {| audio := audio s; active := active s;
     out_queue := out_queue s; socketio := true;
     client_sid := Some sid; stream_task := stream_task s |}.

(** [create_session]; [uuid] is the value of [str(uuid.uuid4())]. *)
Definition create_session (uuid : string) (svc : service) : string * service :=
  (uuid,
   with_sessions svc
     (<[uuid := {| audio := []; active := true; out_queue := Some [];
                   socketio := false; client_sid := None;
                   stream_task := false |}]> (sessions svc))).

Definition set_socketio (session_id client : string) (svc : service) : service :=
  match sessions svc !! session_id with
  | Some s => with_sessions svc (<[session_id := attach s client]> (sessions svc))
  | None => svc
  end.

(** [handle_audio_chunk(session_id, pcm_bytes)] *)
Definition handle_audio_chunk (session_id : string) (pcm_bytes : list byte)
    (svc : service) : reply * service :=
  match sessions svc !! session_id with
  | None => (ReplyError "Invalid session", svc)
  | Some s =>
      if negb (active s) then (ReplyError "Invalid session", svc)
      else
        let svc1 :=
          match out_queue s with
          | Some _ =>
              (* without a loop the put is not scheduled, only logged *)
              submit svc (QueuePut session_id
                            {| data := pcm_bytes; mime_type := "audio/pcm" |})
          | None => svc
          end in
        (ReplyStatus "audio chunk received",
         with_sessions svc1
           (<[session_id := append_audio s pcm_bytes]> (sessions svc1)))
  end.

(** [end_session(session_id)] *)
Definition end_session (session_id : string) (svc : service) : bool * service :=
  match sessions svc !! session_id with
  | Some s =>
      (true, with_sessions svc (<[session_id := deactivate s]> (sessions svc)))
  | None => (false, svc)
  end.

(** [get_status()]: the ids of the active sessions and the number of
    entries. *)
Definition get_status (svc : service) : gset string * nat :=
  (dom (filter (λ kv, active kv.2 = true) (sessions svc)), size (sessions svc)).

(** Feeding a list of chunks to [handle_audio_chunk], one call each. *)
Fixpoint handle_audio_chunks (session_id : string) (chunks : list (list byte))
    (svc : service) : list reply * service :=
  match chunks with
  | [] => ([], svc)
  | c :: cs =>
      let '(r, svc1) := handle_audio_chunk session_id c svc in
      let '(rs, svc2) := handle_audio_chunks session_id cs svc1 in
      (r :: rs, svc2)
  end.

(** What [process_streaming] emits on the [/live2] namespace. *)
Inductive event : Type :=
| live2_function_message             (* text: [f"Function result: {results}"] *)
    (function_name : string) (results : list pydict)
| live2_message (text sender : string) (transcription : bool)
| live2_audio (audio_b64 : string).

Record stream_state : Type := {
  emitted : list (string * event);   (* room, event *)
  rng : nat                          (* number of random draws so far *)
}.

Definition draw (w : World) : M stream_state Z :=
  λ st, (Ok (randint w (rng st)),
         {| emitted := emitted st; rng := S (rng st) |}).

(** [if socketio and client_sid: socketio.emit(..., room=client_sid)] *)
Definition emit (sio : bool) (room : option string) (e : event)
  : M stream_state unit :=
  match room with
  | Some c =>
      if sio && nonempty c
      then modify (λ st, {| emitted := emitted st ++ [(c, e)]; rng := rng st |})
      else ret tt
  | None => ret tt
  end.

(** The body of [async for response in gemini_session.receive()], with its
    [try] / [except Exception], for the target captured when the stream
    started. *)
Definition on_response (w : World) (sio : bool) (room : option string)
    (r : response) : M stream_state unit :=
  try_except
    (match r_tool_call r with
     | Some calls =>
         match calls with
         | [] => raise "list index out of range"
         | function_call_details :: _ =>
             let function_name := fc_name function_call_details in
             let function_args := fc_args function_call_details in
             if String.eqb function_name "search_products" then
               let query := get_or function_args "query" (PStr "") in
               price ← draw w;
               let product :=
                 Utils.normalize_product
                   (<["id" := PStr "1"]>
                    (<["name" := PStr ("Result for " +:+ py_str query)]> ∅))
                   query price in
               emit sio room (live2_function_message function_name [product])
             else ret tt
         end
     | None => ret tt
     end;;
     match text_of r with
     | Some t => emit sio room (live2_message t "Gemini" false)
     | None => ret tt
     end;;
     match r_audio r with
     | Some a =>
         if bool_decide (a = []) then ret tt
         else emit sio room (live2_audio (b64encode w a))
     | None => ret tt
     end;;
     match r_output_transcription r with
     | Some t => emit sio room (live2_message t "Gemini" true)
     | None => ret tt
     end;;
     match r_input_transcription r with
     | Some t => emit sio room (live2_message t "User" true)
     | None => ret tt
     end)
    (λ _, ret tt).

(** One pass of [gemini_session.receive()] over the frames it yields. *)
Definition receive (w : World) (sio : bool) (room : option string)
    (frames : list response) : M stream_state unit :=
  for_each frames (on_response w sio room).

End Live2.

(** ** [GeminiLiveService] *)

Module Live.

(** An item of the message queue of a session. *)
Inductive message : Type :=
| MNone                                              (* the termination signal *)
| MText (text : string)                              (* [process_user_message] *)
| MPair (text : option string) (frame : option string)   (* [(message, frame)] *)
| MPart (data : list byte) (mime_type : string).     (* [handle_video_frame] *)

(** The entry of a session in [self.active_sessions].  The key ["config"]
    is never read by the code modelled here and is left out. *)
Record session_data : Type := {
  connected : bool;
  task : bool;                          (* [false]: [None] *)
  message_queue : list message;
  response_queue : list bool;
  gemini_session : bool;                (* [false]: [None] *)
  socketio : bool;                      (* the key ["socketio"] is present *)
  client_sid : option string;           (* the key ["client_sid"] *)
  function_result_sent : bool;          (* ["_function_result_sent"] *)
  response_complete_sent : bool         (* ["_response_complete_sent"] *)
}.

Definition set_connected (b : bool) (d : session_data) : session_data :=
  {| connected := b; task := task d; message_queue := message_queue d;
     response_queue := response_queue d; gemini_session := gemini_session d;
     socketio := socketio d; client_sid := client_sid d;
     function_result_sent := function_result_sent d;
     response_complete_sent := response_complete_sent d |}.

Definition set_task (b : bool) (d : session_data) : session_data :=
  {| connected := connected d; task := b; message_queue := message_queue d;
     response_queue := response_queue d; gemini_session := gemini_session d;
     socketio := socketio d; client_sid := client_sid d;
     function_result_sent := function_result_sent d;
     response_complete_sent := response_complete_sent d |}.

Definition set_message_queue (q : list message) (d : session_data) : session_data :=
  {| connected := connected d; task := task d; message_queue := q;
     response_queue := response_queue d; gemini_session := gemini_session d;
     socketio := socketio d; client_sid := client_sid d;
     function_result_sent := function_result_sent d;
     response_complete_sent := response_complete_sent d |}.

Definition set_response_queue (q : list bool) (d : session_data) : session_data :=
  {| connected := connected d; task := task d; message_queue := message_queue d;
     response_queue := q; gemini_session := gemini_session d;
     socketio := socketio d; client_sid := client_sid d;
     function_result_sent := function_result_sent d;
     response_complete_sent := response_complete_sent d |}.

Definition set_gemini_session (b : bool) (d : session_data) : session_data :=
  {| connected := connected d; task := task d; message_queue := message_queue d;
     response_queue := response_queue d; gemini_session := b;
     socketio := socketio d; client_sid := client_sid d;
     function_result_sent := function_result_sent d;
     response_complete_sent := response_complete_sent d |}.

Definition set_target (c : string) (d : session_data) : session_data :=
  {| connected := connected d; task := task d; message_queue := message_queue d;
     response_queue := response_queue d; gemini_session := gemini_session d;
     socketio := true; client_sid := Some c;
     function_result_sent := function_result_sent d;
     response_complete_sent := response_complete_sent d |}.

Definition set_function_result_sent (b : bool) (d : session_data) : session_data :=
  {| connected := connected d; task := task d; message_queue := message_queue d;
     response_queue := response_queue d; gemini_session := gemini_session d;
     socketio := socketio d; client_sid := client_sid d;
     function_result_sent := b;
     response_complete_sent := response_complete_sent d |}.

Definition set_response_complete_sent (b : bool) (d : session_data) : session_data :=
  {| connected := connected d; task := task d; message_queue := message_queue d;
     response_queue := response_queue d; gemini_session := gemini_session d;
     socketio := socketio d; client_sid := client_sid d;
     function_result_sent := function_result_sent d;
     response_complete_sent := b |}.

(** ["socketio" in session_data and "client_sid" in session_data] *)
Definition has_target (d : session_data) : bool :=
  socketio d && bool_decide (is_Some (client_sid d)).

(** [session_data.get("socketio") and session_data.get("client_sid")] *)
Definition target_truthy (d : session_data) : bool :=
  socketio d && str_truthy (client_sid d).

(** The room of an emission, [session_data["client_sid"]]. *)
Definition room_of (d : session_data) : string := default "" (client_sid d).

(** Events sent to the client with [socketio.emit]. *)
Inductive event : Type :=
| response_chunk (session_id text : string)                   (* done: False *)
| function_result (session_id function_name : string) (results : list pydict)
| response_complete (session_id : option string) (text : string)
| receive_audio_chunk (audio : string)
| audio_stream_end
| error_event (error : string).

(** What [_execute_function] returns: [{"error": msg}] or the JSON body of
    the search endpoint. *)
Inductive tool_result : Type :=
| ToolError (msg : string)
| ToolData (d : search_data).

(** ["results" in function_response], with the list under that key. *)
Definition results_of (r : tool_result) : option (list pydict) :=
  match r with
  | ToolError _ => None
  | ToolData d => sd_results d
  end.

(** Parts of a message to the remote service. *)
Inductive content : Type :=
| CText (text : string)
| CPart (data : list byte) (mime_type : string).

(** Messages written to the remote connection. *)
Inductive sent_msg : Type :=
| SendInput (parts : list content) (end_of_turn : bool)
| SendFunctionResponse (id name : string) (content : tool_result)
    (end_of_turn : bool)                 (* [response={"content": ...}] *)
| SendToolResponse (id name : string)
    (products : list pydict).            (* [response={"products": ...}] *)

(** The state the background task of a session works on. *)
Record task_state : Type := {
  sd : session_data;                    (* the dict [session_data] *)
  responses : gmap string pydict;       (* [self.session_responses] *)
  emitted : list (string * event);      (* room, event: in emission order *)
  sent : list sent_msg;
  calls : list (string * pydict);       (* calls of [_execute_function] *)
  rng : nat;
  last_response : option response       (* the local variable [response] *)
}.

Definition with_sd (f : session_data → session_data) (st : task_state) : task_state :=
  {| sd := f (sd st); responses := responses st; emitted := emitted st;
     sent := sent st; calls := calls st; rng := rng st;
     last_response := last_response st |}.

Definition with_responses (f : gmap string pydict → gmap string pydict)
    (st : task_state) : task_state :=
  {| sd := sd st; responses := f (responses st); emitted := emitted st;
     sent := sent st; calls := calls st; rng := rng st;
     last_response := last_response st |}.

Definition push_emitted (e : string * event) (st : task_state) : task_state :=
  {| sd := sd st; responses := responses st; emitted := emitted st ++ [e];
     sent := sent st; calls := calls st; rng := rng st;
     last_response := last_response st |}.

Definition push_sent (m : sent_msg) (st : task_state) : task_state :=
  {| sd := sd st; responses := responses st; emitted := emitted st;
     sent := sent st ++ [m]; calls := calls st; rng := rng st;
     last_response := last_response st |}.

Definition push_call (c : string * pydict) (st : task_state) : task_state :=
  {| sd := sd st; responses := responses st; emitted := emitted st;
     sent := sent st; calls := calls st ++ [c]; rng := rng st;
     last_response := last_response st |}.

Definition set_last_response (r : response) (st : task_state) : task_state :=
  {| sd := sd st; responses := responses st; emitted := emitted st;
     sent := sent st; calls := calls st; rng := rng st;
     last_response := Some r |}.

Definition draw (w : World) : M task_state Z :=
  λ st, (Ok (randint w (rng st)),
         {| sd := sd st; responses := responses st; emitted := emitted st;
            sent := sent st; calls := calls st; rng := S (rng st);
            last_response := last_response st |}).

(** [socketio.emit(event, room=client_sid)] *)
Definition emit (room : string) (e : event) : M task_state unit :=
  modify (push_emitted (room, e)).

(** [await session.send(...)]; the connection is taken to accept it. *)
Definition send (m : sent_msg) : M task_state unit := modify (push_sent m).

(** The fallback text of a turn that produced a tool result. *)
Definition fallback_text : string := "Here you go!".

(** The value stored for a session when a message starts being processed,
    [{"text": "", "done": False, "audio": None}]. *)
Definition fresh_response : pydict :=
  <["text" := PStr ""]> (<["done" := PBool false]> (<["audio" := PNone]> ∅)).

(** The same with ["retrieved": True], stored by [clear_response]. *)
Definition cleared_response : pydict := <["retrieved" := PBool true]> fresh_response.

(** [_execute_function(function_name, function_args)] *)
Definition execute_function {S} (w : World) (function_name : string)
    (function_args : pydict) : M S tool_result :=
  if String.eqb function_name "search_products" then
    let query := get function_args "query" in
    if negb (truthy query) then ret (ToolError "No query provided")
    else
      try_except
        (let search_url :=
           "http://localhost:5000/api/search?query=" +:+ py_str query in
         match http_get w search_url with
         | HttpRaise e => raise e
         | HttpResponse status json text =>
             if (status =? 200)%Z then
               data ← lift json; ret (ToolData data)
             else
               ret (ToolError ("Search failed with status " +:+ pretty status
                               +:+ ": " +:+ text))
         end)
        (λ e, ret (ToolError ("Error executing search: " +:+ e)))
  else ret (ToolError ("Unknown function: " +:+ function_name)).

(** [range(0, stop, step)] *)
Fixpoint range_from (fuel start stop step : nat) : list nat :=
  match fuel with
  | O => []
  | S fuel' =>
      if (start <? stop)%nat
      then start :: range_from fuel' (start + step) stop step
      else []
  end.

Definition range_step (stop step : nat) : list nat := range_from stop 0 stop step.

Definition chunk_size : nat := 4096.

(** [[audio_bytes[i:i+chunk_size] for i in range(0, len(audio_bytes), chunk_size)]] *)
Definition chunks_of (size : nat) (audio_bytes : list byte) : list (list byte) :=
  map (λ i, take size (drop i audio_bytes)) (range_step (length audio_bytes) size).

(** [stream_tts_audio(session_id, text, socketio, client_sid)] *)
Definition stream_tts_audio (w : World) (tts_client : bool) (text room : string)
  : M task_state unit :=
  if negb tts_client || negb (nonempty text) then ret tt
  else
    try_except
      (audio_bytes ← lift (synthesize_speech w text);
       for_each (chunks_of chunk_size audio_bytes)
         (λ chunk, emit room (receive_audio_chunk (b64encode w chunk)));;
       emit room audio_stream_end)
      (λ _, ret tt).

(** The mime type read off the header of a data URL. *)
Definition mime_of (header : string) : string :=
  if contains ":" header && contains ";" header then
    match split ":" header with
    | _ :: second :: _ => hd "" (split ";" second)
    | _ => "image/jpeg"
    end
  else "image/jpeg".

(** [[normalize_product(product) for product in results]] *)
Fixpoint normalize_all (w : World) (results : list pydict)
  : M task_state (list pydict) :=
  match results with
  | [] => ret []
  | product :: rest =>
      price ← draw w;
      enriched ← normalize_all w rest;
      ret (Utils.normalize_product product PNone price :: enriched)
  end.

(** The tool-call branch of the receive loop, for the frame's list of
    function calls. *)
Definition on_tool_call (w : World) (session_id : string)
    (function_calls : list function_call) : M task_state unit :=
  match function_calls with
  | [] => raise "list index out of range"
  | function_call_details :: _ =>
      let tool_call_id := fc_id function_call_details in
      let function_name := fc_name function_call_details in
      let function_args := fc_args function_call_details in
      modify (push_call (function_name, function_args));;
      function_response ← execute_function w function_name function_args;
      (if String.eqb function_name "search_products" then
         match results_of function_response with
         | Some results =>
             d ← gets sd;
             (if has_target d then
                enriched_results ← normalize_all w results;
                emit (room_of d)
                  (function_result session_id function_name enriched_results)
              else ret tt);;
             modify (with_sd (set_function_result_sent true));;
             (if negb (response_complete_sent d) then
                (* [socketio] and [client_sid] are the locals bound just
                   above; without the keys they are unbound or [None] *)
                (if has_target d then
                   emit (room_of d)
                     (response_complete (Some session_id) fallback_text)
                 else raise "socketio is not available");;
                modify (with_sd (set_response_complete_sent true))
              else ret tt)
         | None => ret tt
         end
       else ret tt);;
      send (SendFunctionResponse tool_call_id function_name
              function_response false)
  end.

(** The end-of-turn branch of the receive loop. *)
Definition on_end_of_turn (session_id accumulated_text : string)
  : M task_state unit :=
  d ← gets sd;
  let stripped := strip accumulated_text in
  final_text ←
    (if negb (nonempty stripped) && function_result_sent d then
       modify (with_sd (set_function_result_sent false));;
       ret fallback_text
     else ret stripped);
  if has_target d then
    emit (room_of d) (response_complete (Some session_id) final_text)
  else ret tt.

(** The body of [async for response in session.receive()]: the new
    accumulated text, and whether the loop is left by [break]. *)
Definition receive_step (w : World) (session_id : string) (r : response)
    (accumulated_text : string) : M task_state (string * bool) :=
  modify (set_last_response r);;
  accumulated_text ←
    match text_of r with
    | Some t =>
        d ← gets sd;
        (if has_target d
         then emit (room_of d) (response_chunk session_id t)
         else ret tt);;
        ret (accumulated_text +:+ t)
    | None => ret accumulated_text
    end;
  match r_tool_call r with
  | Some function_calls =>
      on_tool_call w session_id function_calls;;
      ret (accumulated_text, true)
  | None =>
      if r_end_of_turn r then
        on_end_of_turn session_id accumulated_text;;
        ret (accumulated_text, true)
      else ret (accumulated_text, false)
  end.

(** The receive loop over the frames the remote stream yields for the
    turn; returns the accumulated text. *)
Fixpoint receive_loop (w : World) (session_id : string)
    (frames : list response) (accumulated_text : string)
  : M task_state string :=
  match frames with
  | [] => ret accumulated_text
  | r :: rest =>
      '(accumulated_text, stop) ← receive_step w session_id r accumulated_text;
      if stop : bool then ret accumulated_text
      else receive_loop w session_id rest accumulated_text
  end.

(** What follows the receive loop ("Always emit response_complete at the
    end"), up to the end of the iteration. *)
Definition after_receive (w : World) (tts_client : bool)
    (session_id accumulated_text : string) : M task_state unit :=
  d ← gets sd;
  (if target_truthy d && negb (response_complete_sent d) then
     emit (room_of d) (response_complete (Some session_id) accumulated_text);;
     modify (with_sd (set_response_complete_sent true));;
     stream_tts_audio w tts_client accumulated_text (room_of d)
   else ret tt);;
  modify (with_sd (set_response_complete_sent false));;
  rs ← gets responses;
  match rs !! session_id with
  | Some entry =>
      modify (with_responses (insert session_id (<["done" := PBool true]> entry)))
  | None => raise session_id
  end;;
  modify (with_sd (λ d, set_response_queue (response_queue d ++ [true]) d));;
  lr ← gets last_response;
  match lr with
  | Some _ => ret tt
  | None => raise "cannot access local variable 'response'"
  end.

(** How an iteration of [while True] ends. *)
Inductive control : Type := Next | Break.

(** The message and the frame an item of the queue stands for. *)
Definition unpack (m : message) : option content * option string :=
  match m with
  | MNone => (None, None)
  | MText t => (Some (CText t), None)
  | MPair t frame => (CText <$> t, frame)
  | MPart data mime => (Some (CPart data mime), None)
  end.

(** One iteration of [while True] for a dequeued [message]; [frames] is
    what [session.receive()] yields if the iteration gets to it. *)
Definition handle_message (w : World) (tts_client : bool) (session_id : string)
    (m : message) (frames : list response) : M task_state control :=
  match m with
  | MNone => ret Break
  | _ =>
      modify (with_responses (insert session_id fresh_response));;
      match unpack m with
      | (None, _) => ret Break
      | (Some message, frame) =>
          delivered ←
            (if str_truthy frame then
               try_except
                 (match split_once "," (default "" frame) with
                  | None => raise "not enough values to unpack"
                  | Some (header, encoded) =>
                      let mime_type := mime_of header in
                      frame_bytes ← lift (b64decode w encoded);
                      send (SendInput [message; CPart frame_bytes mime_type] true);;
                      ret true
                  end)
                 (λ _,
                   d ← gets sd;
                   (if target_truthy d then
                      emit (room_of d)
                        (response_complete None
                           "[Error: Could not process image frame]")
                    else ret tt);;
                   ret false)
             else send (SendInput [message] true);; ret true);
          if delivered : bool then
            accumulated_text ← receive_loop w session_id frames "";
            after_receive w tts_client session_id accumulated_text;;
            ret Next
          else ret Next
      end
  end.

(** [while True] over the queued messages, each with the frames of its
    turn.  [true]: the loop was left by [break]; [false]: the queue is
    empty and the task waits on [message_queue.get()]. *)
Fixpoint task_loop (w : World) (tts_client : bool) (session_id : string)
    (turns : list (message * list response)) : M task_state bool :=
  match turns with
  | [] => ret false
  | (m, frames) :: rest =>
      modify (with_sd (λ d, set_message_queue (tail (message_queue d)) d));;
      c ← handle_message w tts_client session_id m frames;
      match c with
      | Break => ret true
      | Next => task_loop w tts_client session_id rest
      end
  end.

(** [_session_background_task(session_id)] once the session data is at
    hand.  [connect] is the outcome of building the configuration and of
    [client.aio.live.connect]: the handlers of both do the same.  [streams]
    gives, for the queued messages in order, the frames of the remote
    stream. *)
Definition session_background_task (w : World) (tts_client : bool)
    (session_id : string) (connect : result unit)
    (streams : list (list response)) : M task_state unit :=
  try_except
    (lift connect;;
     modify (with_sd (set_connected true));;
     modify (with_sd (set_gemini_session true));;
     queue ← gets (λ st, message_queue (sd st));
     left ← task_loop w tts_client session_id
               (zip_with pair queue (streams ++ replicate (length queue) []));
     if left : bool then
       modify (with_sd (set_connected false));;
       modify (with_sd (set_task false))
     else ret tt)
    (λ _, modify (with_sd (set_connected false))).

(** The service object: the fields the session code reads and writes. *)
Record service : Type := {
  tts_client : bool;                         (* [false]: [None] *)
  active_sessions : gmap string session_data;
  session_responses : gmap string pydict
}.

Definition with_active (f : gmap string session_data → gmap string session_data)
    (svc : service) : service :=
  {| tts_client := tts_client svc; active_sessions := f (active_sessions svc);
     session_responses := session_responses svc |}.

Definition with_session_responses (f : gmap string pydict → gmap string pydict)
    (svc : service) : service :=
  {| tts_client := tts_client svc; active_sessions := active_sessions svc;
     session_responses := f (session_responses svc) |}.

(** The session data [create_session] stores. *)
Definition new_session_data : session_data :=
  {| connected := false; task := false; message_queue := [];
     response_queue := []; gemini_session := false;
     socketio := false; client_sid := None;
     function_result_sent := false; response_complete_sent := false |}.

(** [create_session(session_id=None)]; [uuid] is the value of
    [str(uuid.uuid4())].  The background task is created, not awaited: it
    starts running after [create_session] has returned. *)
Definition create_session (session_id : option string) (uuid : string)
    (svc : service) : string * service :=
  let session_id := default uuid session_id in
  let svc := with_active (insert session_id new_session_data) svc in
  let svc := with_session_responses (insert session_id fresh_response) svc in
  let svc := with_active (alter (set_task true) session_id) svc in
  (session_id, svc).

(** What a run of the background task leaves behind. *)
Record task_run : Type := {
  run_service : service;
  run_emitted : list (string * event);
  run_sent : list sent_msg;
  run_calls : list (string * pydict)
}.

(** The background task of [session_id] run on the service: it works on the
    entry of the registry (the same dict object) and on
    [session_responses]. *)
Definition run_background_task (w : World) (session_id : string)
    (connect : result unit) (streams : list (list response))
    (svc : service) : task_run :=
  match active_sessions svc !! session_id with
  | None =>
      {| run_service := svc; run_emitted := []; run_sent := []; run_calls := [] |}
  | Some d =>
      let st := (session_background_task w (tts_client svc) session_id
                   connect streams
                   {| sd := d; responses := session_responses svc;
                      emitted := []; sent := []; calls := []; rng := 0;
                      last_response := None |}).2 in
      {| run_service :=
           {| tts_client := tts_client svc;
              active_sessions := <[session_id := sd st]> (active_sessions svc);
              session_responses := responses st |};
         run_emitted := emitted st; run_sent := sent st;
         run_calls := calls st |}
  end.

(** [get_current_response(session_id)]: [None] is Python's [None]. *)
Definition get_current_response (session_id : string) (svc : service)
  : option pydict :=
  session_responses svc !! session_id.

(** [clear_response(session_id)] *)
Definition clear_response (session_id : string) (svc : service) : service :=
  match session_responses svc !! session_id with
  | Some entry =>
      if truthy (get_or entry "done" (PBool false))
      then with_session_responses (insert session_id cleared_response) svc
      else svc
  | None => svc
  end.

(** [process_user_message(session_id, message)]: what is returned. *)
Definition process_user_message (session_id message : string) (svc : service)
  : reply * service :=
  match active_sessions svc !! session_id with
  | None => (ReplyError "Session not found", svc)
  | Some d =>
      (ReplyStatus "processing",
       with_active
         (insert session_id (set_message_queue (message_queue d ++ [MText message]) d))
         svc)
  end.

(** [process_user_message_socketio(session_id, (message, frame), client_sid,
    socketio)]: the events emitted to the client, and the service. *)
Definition process_user_message_socketio (session_id : string)
    (message frame : option string) (client : string) (svc : service)
  : list (string * event) * service :=
  match active_sessions svc !! session_id with
  | None => ([(client, error_event "Session not found")], svc)
  | Some d =>
      if negb (connected d) || negb (task d)
      then ([(client, error_event "Session not connected")], svc)
      else
        let d := set_target client d in
        ([], with_active
               (insert session_id
                  (set_message_queue (message_queue d ++ [MPair message frame]) d))
               svc)
  end.

(** [end_session(session_id)].  [wait] is the outcome of waiting for the
    background task (finished, or cancelled after the timeout: [Ok];
    anything else it raises: [Raise]).  The value returned is Python's: the
    function has no [return] with a value. *)
Definition end_session (wait : result unit) (session_id : string)
  : M service pyval :=
  in_registry ← gets (λ svc, active_sessions svc !! session_id);
  match in_registry with
  | None => ret PNone
  | Some session_data =>
      try_except
        (modify (with_active
                   (alter (λ d, set_message_queue (message_queue d ++ [MNone]) d)
                      session_id));;
         (if task session_data then lift wait else ret tt);;
         modify (with_active (delete session_id));;
         modify (with_session_responses (delete session_id)))
        (λ _,
          modify (with_active (delete session_id));;
          modify (with_session_responses (delete session_id)));;
      ret PNone
  end.

(** What the generator [send_user_input_to_session] yields. *)
Inductive yielded : Type :=
| YText (text : string) (done : bool)
| YFunctionResult (function_name : string) (results : list pydict)
| YError (error : string).

Record gen_state : Type := {
  gen_yielded : list yielded;
  gen_sent : list sent_msg
}.

Definition yield (y : yielded) : M gen_state unit :=
  modify (λ st, {| gen_yielded := gen_yielded st ++ [y]; gen_sent := gen_sent st |}).

Definition send_tool_response (m : sent_msg) : M gen_state unit :=
  modify (λ st, {| gen_yielded := gen_yielded st; gen_sent := gen_sent st ++ [m] |}).

(** The product as given to the model: five keys, each defaulting to [""]. *)
Definition summary (product : pydict) : pydict :=
  <["id" := get_or product "id" (PStr "")]>
  (<["name" := get_or product "name" (PStr "")]>
  (<["price" := get_or product "price" (PStr "")]>
  (<["image_url" := get_or product "image_url" (PStr "")]>
  (<["aisle" := get_or product "aisle" (PStr "")]> ∅)))).

(** [search_results] as [send_user_input_to_session] builds it from the
    body of the search endpoint. *)
Definition search_results_of (data : search_data) : list pydict :=
  match sd_results data with
  | Some results => map summary (take 5 results)
  | None => []
  end.

(** The handling of one function call [fc] in
    [send_user_input_to_session]. *)
Definition on_function_call (w : World) (fc : function_call) : M gen_state unit :=
  if String.eqb (fc_name fc) "search_products" then
    try_except
      (let query := get_or (fc_args fc) "query" (PStr "") in
       match http_get w ("http://localhost:5000/api/search?query=" +:+ py_str query) with
       | HttpRaise e => raise e
       | HttpResponse _ json _ =>
           data ← lift json;
           let search_results := search_results_of data in
           yield (YFunctionResult "search_products" search_results);;
           send_tool_response
             (SendToolResponse (fc_id fc) (fc_name fc) search_results)
       end)
      (λ e, yield (YError ("Error processing function call: " +:+ e)))
  else ret tt.

(** [for fc in response.tool_call.function_calls: ...] *)
Definition on_function_calls (w : World) (function_calls : list function_call)
  : M gen_state unit :=
  for_each function_calls (on_function_call w).

End Live.

(** ** The polling route of [app.py] *)

Module App.

(** The body of an HTTP answer. *)
Inductive body : Type :=
| BodyJson (d : pydict)                 (* [jsonify(response_content)] *)
| BodyStatus (status : string).         (* [jsonify({'status': ...})] *)

(** [bool(d)] for a dict. *)
Definition dict_truthy (d : pydict) : bool := negb (bool_decide (d = ∅)).

(** [get_live_response(session_id)]: status code, body, and the service
    afterwards. *)
Definition get_live_response (session_id : string) (svc : Live.service)
  : (Z * body) * Live.service :=
  match Live.get_current_response session_id svc with
  | Some response_content =>
      if dict_truthy response_content
      then ((200%Z, BodyJson response_content), Live.clear_response session_id svc)
      else ((202%Z, BodyStatus "processing"), svc)
  | None => ((202%Z, BodyStatus "processing"), svc)
  end.

End App.

(** ** Observations on the event log *)

(** The texts of the [response_complete] events, in emission order. *)
Definition complete_texts (es : list (string * Live.event)) : list string :=
  omap (λ e, match e.2 with
             | Live.response_complete _ t => Some t
             | _ => None
             end) es.


(** A frame of the receive loop that neither calls a tool nor ends the
    turn. *)
Definition quiet (r : response) : bool :=
  bool_decide (r_tool_call r = None) && negb (r_end_of_turn r).

(** The text a list of frames adds to the accumulated text. *)
Definition texts_of (frames : list response) : string :=
  foldr (λ r acc, default "" (text_of r) +:+ acc) "" frames.

(** Two task states that differ at most by events other than
    [response_complete], by random draws and by the last frame seen. *)
Definition agree (st st' : Live.task_state) : Prop :=
  Live.sd st' = Live.sd st
  ∧ Live.responses st' = Live.responses st
  ∧ Live.sent st' = Live.sent st
  ∧ Live.calls st' = Live.calls st
  ∧ complete_texts (Live.emitted st') = complete_texts (Live.emitted st).

(** The slices of [l] taken at the offsets [start, start + size, ...] below
    [length l]: the chunks of [stream_tts_audio] from an arbitrary offset. *)
Definition slices {A} (size fuel start : nat) (l : list A) : list (list A) :=
  map (λ i, take size (drop i l)) (Live.range_from fuel start (length l) size).

(** A message to the remote service that carries at most five products. *)
Definition small_response (m : Live.sent_msg) : Prop :=
  match m with
  | Live.SendToolResponse _ _ products => (length products ≤ 5)%nat
  | _ => True
  end.

(** ** Concrete data for the examples *)

Module Demo.

Definition jacket (n : Z) : pydict :=
  <["id" := PInt n]> (<["name" := PStr "Blue jacket"]> ∅).

(** A world whose search endpoint answers 200 with six products; the
    synthesiser returns the bytes of the text, and base64 is stood for by
    the identity on byte strings. *)
Definition world : World :=
  {| http_get := λ _,
       HttpResponse 200
         (Ok {| sd_results := Some (jacket <$> [1; 2; 3; 4; 5; 6]%Z);
                sd_extra := ∅ |}) "";
     synthesize_speech := λ t, Ok (list_byte_of_string t);
     b64encode := string_of_list_byte;
     b64decode := λ s, Ok (list_byte_of_string s);
     randint := λ n, (999 + Z.of_nat n)%Z |}.

(** The same with a synthesiser that fails. *)
Definition mute_world : World :=
  {| http_get := http_get world;
     synthesize_speech := λ _, Raise "synthesis failed";
     b64encode := b64encode world;
     b64decode := b64decode world;
     randint := randint world |}.

(** A world without a search endpoint. *)
Definition offline_world : World :=
  {| http_get := λ _, HttpRaise "connection refused";
     synthesize_speech := synthesize_speech world;
     b64encode := b64encode world;
     b64decode := b64decode world;
     randint := randint world |}.

Definition frame (text : option string) (calls : option (list function_call))
    (end_of_turn : bool) : response :=
  {| r_text := text; r_tool_call := calls; r_end_of_turn := end_of_turn;
     r_audio := None; r_output_transcription := None;
     r_input_transcription := None |}.

Definition search_call (id query : string) : function_call :=
  {| fc_id := id; fc_name := "search_products";
     fc_args := <["query" := PStr query]> ∅ |}.


(** A connected session of a client in room ["room"]. *)
Definition attached : Live.session_data :=
  Live.set_target "room"
    (Live.set_task true (Live.set_connected true Live.new_session_data)).

Definition task_start (d : Live.session_data) : Live.task_state :=
  {| Live.sd := d; Live.responses := ∅; Live.emitted := []; Live.sent := [];
     Live.calls := []; Live.rng := 0; Live.last_response := None |}.

Definition live_empty : Live.service :=
  {| Live.tts_client := false; Live.active_sessions := ∅;
     Live.session_responses := ∅ |}.

Definition live2_empty : Live2.service :=
  {| Live2.sessions := ∅; Live2.loop := Some [] |}.

Definition pcm : list byte := ["010"%byte; "020"%byte].

End Demo.

(** ** Video frames of [GeminiLiveService] *)

Module LiveVideo.

(** A callback handed to the event loop with [call_soon_threadsafe]:
    [message_queue.put_nowait(part)] on the queue of a session. *)
Inductive callback : Type :=
| PutNowait (session_id : string) (m : Live.message).

(** [handle_video_frame(session_id, frame_data_url)]: the state is the list
    of callbacks handed to the loop. *)
Definition handle_video_frame (w : World) (session_id frame_data_url : string)
    (svc : Live.service) : M (list callback) unit :=
  match Live.active_sessions svc !! session_id with
  | None => ret tt
  | Some _ =>
      try_except
        (match split_once "," frame_data_url with
         | None => raise "not enough values to unpack"
         | Some (header, encoded) =>
             let mime_type := Live.mime_of header in
             frame_bytes ← lift (b64decode w encoded);
             modify (λ cbs, cbs ++ [PutNowait session_id
                                      (Live.MPart frame_bytes mime_type)])
         end)
        (λ _, ret tt)
  end.

(** The loop runs a callback: the part joins the queue of the session. *)
Definition run_callback (cb : callback) (svc : Live.service) : Live.service :=
  match cb with
  | PutNowait session_id m =>
      Live.with_active
        (alter (λ d, Live.set_message_queue (Live.message_queue d ++ [m]) d)
           session_id) svc
  end.

End LiveVideo.

(** ** Video frames of [GeminiLive2Service] *)

Module Live2Video.

(** The name [base64] in the globals of [gemini_live2_service.py]: the
    module does not import it; the only [import base64] is local to
    [process_streaming]. *)
Definition global_base64 : option (string → result (list byte)) := None.

(** A [gemini_session.send(input={"data": ..., "mime_type": ...},
    end_of_turn=False)] submitted to the loop. *)
Record frame_send : Type := {
  fs_session : string;
  fs_data : list byte;
  fs_mime_type : string
}.

Record video_state : Type := {
  vs_service : Live2.service;
  vs_submitted : list frame_send
}.

(** [handle_video_frame(session_id, frame_data_url)].  [gemini_session]
    tells whether the key ["gemini_session"], which [process_streaming]
    sets, is present and truthy. *)
Definition handle_video_frame (gemini_session : bool)
    (session_id frame_data_url : string) : M video_state reply :=
  svc ← gets vs_service;
  match Live2.sessions svc !! session_id with
  | None => ret (ReplyError "Invalid session")
  | Some session =>
      if negb (Live2.active session) then ret (ReplyError "Invalid session")
      else
        (if gemini_session then
           try_except
             (match Live2.loop svc with
              | Some _ =>
                  match split_once "," frame_data_url with
                  | None => raise "not enough values to unpack"
                  | Some (header, encoded) =>
                      match global_base64 with
                      | None => raise "name 'base64' is not defined"
                      | Some b64decode =>
                          frame_bytes ← lift (b64decode encoded);
                          modify (λ st,
                            {| vs_service := vs_service st;
                               vs_submitted :=
                                 vs_submitted st
                                 ++ [{| fs_session := session_id;
                                        fs_data := frame_bytes;
                                        fs_mime_type := "image/jpeg" |}] |})
                      end
                  end
              | None => ret tt
              end)
             (λ _, ret tt)
         else ret tt);;
        ret (ReplyStatus "video frame sent")
  end.

(** [_reset()] *)
Definition reset (svc : Live2.service) : Live2.service :=
  Live2.with_sessions svc ∅.

End Live2Video.

(** ** Routes of [app.py] *)

Module Routes.

(** [POST /api/live/end].  [session_id] is [data.get('session_id')], taken
    to be absent or a string; [wait] as in [Live.end_session].
    [future.result()] gives what [close_session] returns, which catches
    every [Exception] of [end_session] and returns [False] for it. *)
Definition end_live_session (session_id : option string) (wait : result unit)
    (svc : Live.service) : (Z * reply) * Live.service :=
  if negb (str_truthy session_id) then
    ((400%Z, ReplyError "No session_id provided"), svc)
  else
    let outcome := Live.end_session wait (default "" session_id) svc in
    let success :=
      match outcome.1 with
      | Ok v => v
      | Raise _ => PBool false       (* [close_session] catches and returns False *)
      end in
    if truthy success
    then ((200%Z, ReplyStatus "success"), outcome.2)
    else ((404%Z, ReplyError "Failed to end session"), outcome.2).

(** [POST /api/live2/message] for a [POST] whose JSON body has
    [session_id] and [audio] absent or strings; the answer of
    [jsonify(result)] has status 200. *)
Definition send_live2_message (w : World) (session_id audio : option string)
    (svc : Live2.service) : (Z * reply) * Live2.service :=
  if negb (str_truthy session_id) || negb (str_truthy audio) then
    ((400%Z, ReplyError "session_id and audio are required"), svc)
  else
    match b64decode w (default "" audio) with
    | Raise e => ((400%Z, ReplyError ("Invalid audio encoding: " +:+ e)), svc)
    | Ok pcm_bytes =>
        let '(result, svc') :=
          Live2.handle_audio_chunk (default "" session_id) pcm_bytes svc in
        ((200%Z, result), svc')
    end.

End Routes.

(** ** [GeminiMultimodalService] *)

Module Multimodal.

(** An entry of the history given to the model:
    [{"role": role, "parts": [{"text": text}]}]. *)
Record entry : Type := {
  e_role : string;
  e_text : pyval
}.

(** [_format_history(history)] *)
Fixpoint format_history (history : list pydict) : list entry :=
  match history with
  | [] => []
  | message :: rest =>
      let role := get_or message "role" (PStr "") in
      let content := get_or message "content" (PStr "") in
      if bool_decide (role = PStr "user")
      then {| e_role := "user"; e_text := content |} :: format_history rest
      else if bool_decide (role = PStr "assistant")
      then {| e_role := "model"; e_text := content |} :: format_history rest
      else format_history rest
  end.

(** The history [generate_content] starts the chat with:
    [self._format_history(history) if history else []], replaced by the
    system instructions and a canned answer when it is empty. *)
Definition chat_history (system_instructions : string)
    (history : option (list pydict)) : list entry :=
  let formatted_history :=
    match history with
    | Some (m :: h) => format_history (m :: h)
    | _ => []
    end in
  match formatted_history with
  | [] =>
      [{| e_role := "user"; e_text := PStr system_instructions |};
       {| e_role := "model";
          e_text := PStr "I'll help you find products and answer your questions." |}]
  | _ => formatted_history
  end.

End Multimodal.

(** ** More observations *)

(** The parts of the user inputs among the messages sent to the remote
    service, in order. *)
Definition inputs_of (ms : list Live.sent_msg) : list (list Live.content) :=
  omap (λ m, match m with
             | Live.SendInput parts _ => Some parts
             | _ => None
             end) ms.

(** The fields of the session data that the receive loop does not write. *)
Definition same_session (d d' : Live.session_data) : Prop :=
  Live.connected d' = Live.connected d
  ∧ Live.task d' = Live.task d
  ∧ Live.message_queue d' = Live.message_queue d
  ∧ Live.response_queue d' = Live.response_queue d
  ∧ Live.gemini_session d' = Live.gemini_session d
  ∧ Live.socketio d' = Live.socketio d
  ∧ Live.client_sid d' = Live.client_sid d.

(** [st'] comes from [st] by reading the remote stream: events and function
    responses were added, no user input was sent, the response store is the
    same. *)
Definition extends (st st' : Live.task_state) : Prop :=
  Live.responses st' = Live.responses st
  ∧ same_session (Live.sd st) (Live.sd st')
  ∧ (∃ es, Live.emitted st' = Live.emitted st ++ es)
  ∧ (∃ fs, Live.sent st' = Live.sent st ++ fs ∧ inputs_of fs = [])
  ∧ (∃ cs, Live.calls st' = Live.calls st ++ cs).

(** The rest of an iteration once the input was sent: the receive loop,
    then [Live.after_receive]. *)
Definition read_and_finish (w : World) (tts_client : bool) (session_id : string)
    (frames : list response) (st : Live.task_state)
  : result Live.control * Live.task_state :=
  match Live.receive_loop w session_id frames "" st with
  | (Ok accumulated_text, st1) =>
      match Live.after_receive w tts_client session_id accumulated_text st1 with
      | (Ok _, st2) => (Ok Live.Next, st2)
      | (Raise e, st2) => (Raise e, st2)
      end
  | (Raise e, st1) => (Raise e, st1)
  end.

(** A tool response of [send_user_input_to_session] that is for the search
    tool, carries at most five products, each with the five keys of the
    summary, and whose products were yielded to the caller as a function
    result. *)
Definition reported_response (ys : list Live.yielded) (m : Live.sent_msg) : Prop :=
  match m with
  | Live.SendToolResponse _ name products =>
      name = "search_products"
      ∧ (length products ≤ 5)%nat
      ∧ Forall (λ p : pydict,
                  dom p = ({["id"; "name"; "price"; "image_url"; "aisle"]}
                           : gset string)) products
      ∧ Live.YFunctionResult "search_products" products ∈ ys
  | _ => True
  end.

(** The room the events of a [/live2] stream go to: the client id captured
    when the stream started, if [socketio and client_sid] holds. *)
Definition stream_target (sio : bool) (room : option string) : option string :=
  match room with
  | Some c => if sio && nonempty c then Some c else None
  | None => None
  end.

(** [st'] is [st] with at most [n] more events, all of them for the target
    of the stream. *)
Definition stream_grows (sio : bool) (room : option string) (n : nat)
    (st st' : Live2.stream_state) : Prop :=
  ∃ es, Live2.emitted st' = Live2.emitted st ++ es
        ∧ (length es ≤ n)%nat
        ∧ Forall (λ x, stream_target sio room = Some x.1) es.

(** A step of the stream body that, whether it returns or raises, adds at
    most [n] events, all of them for the target. *)
Definition stream_adds (sio : bool) (room : option string) (n : nat) {A}
    (m : M Live2.stream_state A) : Prop :=
  ∀ st, stream_grows sio room n st (m st).2.

(** A frame without a truthy [end_of_turn] attribute.  The frames that
    [session.receive()] yields are the [LiveServerMessage]s of the
    google-genai library, which has no attribute of that name:
    [hasattr(response, "end_of_turn")] is false for them, and the end of a
    turn shows as the end of the iteration. *)
Definition receivable (r : response) : bool := negb (r_end_of_turn r).


(** * Properties *)

(** Unfolding of the monad operations. *)
Ltac run :=
  cbv [mbind M_bind bind mret M_ret ret raise try_except lift gets modify].

(** * Properties of [GeminiLive2Service] *)

Section Live2_facts.
Import Live2.

Lemma handle_audio_chunk_active (svc : service) (session_id : string)
    (pcm_bytes : list byte) (s : session) :
  sessions svc !! session_id = Some s →
  active s = true →
  ∃ svc',
    handle_audio_chunk session_id pcm_bytes svc
      = (ReplyStatus "audio chunk received", svc')
    ∧ sessions svc' = <[session_id := append_audio s pcm_bytes]> (sessions svc).
Proof.
  intros Hs Ha. unfold handle_audio_chunk. rewrite Hs, Ha. simpl.
  destruct (out_queue s); eexists; split; reflexivity.
Qed.

Lemma handle_audio_chunk_invalid (svc : service) (session_id : string)
    (pcm_bytes : list byte) :
  (sessions svc !! session_id = None
   ∨ ∃ s, sessions svc !! session_id = Some s ∧ active s = false) →
  handle_audio_chunk session_id pcm_bytes svc = (ReplyError "Invalid session", svc).
Proof.
  unfold handle_audio_chunk.
  intros [-> | (s & -> & ->)]; reflexivity.
Qed.

Lemma handle_audio_chunks_audio (session_id : string)
    (chunks : list (list byte)) :
  ∀ (svc : service) (s : session),
    sessions svc !! session_id = Some s →
    active s = true →
    ∃ s', sessions (handle_audio_chunks session_id chunks svc).2 !! session_id
            = Some s'
          ∧ audio s' = audio s ++ chunks
          ∧ active s' = true.
Proof.
  induction chunks as [|c cs IH]; intros svc s Hs Ha; simpl.
  - exists s. rewrite app_nil_r. auto.
  - destruct (handle_audio_chunk_active svc session_id c s Hs Ha)
      as (svc1 & Hcall & Hmap).
    rewrite Hcall.
    destruct (IH svc1 (append_audio s c)) as (s' & Hs' & Haudio & Hact).
    + rewrite Hmap. apply lookup_insert_eq.
    + exact Ha.
    + destruct (handle_audio_chunks session_id cs svc1) as [rs svc2].
      exists s'. simpl in *. rewrite <- app_assoc in Haudio. auto.
Qed.

(** C10. [handle_audio_chunk] on an existing, active session appends
    exactly [pcm_bytes] to the ['audio'] list of that session, leaves its
    other fields and every other session as they were, and returns
    [{"status": "audio chunk received"}]; repeated calls only extend the
    list.  On a missing or inactive session it returns
    [{"error": "Invalid session"}] and the service is unchanged. *)
Theorem handle_audio_chunk_frame (svc : service) (session_id : string)
    (pcm_bytes : list byte) :
  (∀ s, sessions svc !! session_id = Some s → active s = true →
     ∃ svc' s',
       handle_audio_chunk session_id pcm_bytes svc
         = (ReplyStatus "audio chunk received", svc')
       ∧ sessions svc' !! session_id = Some s'
       ∧ audio s' = audio s ++ [pcm_bytes]
       ∧ length (audio s') = S (length (audio s))
       ∧ (active s', out_queue s', socketio s', client_sid s', stream_task s')
           = (active s, out_queue s, socketio s, client_sid s, stream_task s)
       ∧ (∀ other, other ≠ session_id →
            sessions svc' !! other = sessions svc !! other)
       ∧ (∀ chunks, ∃ s'',
            sessions (handle_audio_chunks session_id chunks svc').2 !! session_id
              = Some s''
            ∧ audio s'' = audio s ++ [pcm_bytes] ++ chunks))
  ∧ ((sessions svc !! session_id = None
      ∨ ∃ s, sessions svc !! session_id = Some s ∧ active s = false) →
     handle_audio_chunk session_id pcm_bytes svc
       = (ReplyError "Invalid session", svc)).
Proof.
  split.
  - intros s Hs Ha.
    destruct (handle_audio_chunk_active svc session_id pcm_bytes s Hs Ha)
      as (svc' & Hcall & Hmap).
    exists svc', (append_audio s pcm_bytes).
    assert (Hlook : sessions svc' !! session_id = Some (append_audio s pcm_bytes))
      by (rewrite Hmap; apply lookup_insert_eq).
    repeat split; try done.
    + simpl. rewrite length_app. simpl. lia.
    + intros other Hne. rewrite Hmap. by apply lookup_insert_ne.
    + intros chunks.
      destruct (handle_audio_chunks_audio session_id chunks svc'
                  (append_audio s pcm_bytes) Hlook Ha) as (s'' & H1 & H2 & _).
      exists s''. split; [exact H1|]. rewrite H2. simpl. by rewrite <- app_assoc.
  - apply handle_audio_chunk_invalid.
Qed.

(** The frame property on a session just created, and on an unknown id. *)
Lemma handle_audio_chunk_frame_witness :
  let svc := (Live2.create_session "s1" Demo.live2_empty).2 in
  (∃ svc' s',
     Live2.handle_audio_chunk "s1" Demo.pcm svc
       = (ReplyStatus "audio chunk received", svc')
     ∧ Live2.sessions svc' !! "s1" = Some s'
     ∧ Live2.audio s' = [Demo.pcm])
  ∧ Live2.handle_audio_chunk "s2" Demo.pcm svc
    = (ReplyError "Invalid session", svc).
Proof.
  intros svc.
  destruct (handle_audio_chunk_frame svc "s1" Demo.pcm) as [Hactive _].
  destruct (handle_audio_chunk_frame svc "s2" Demo.pcm) as [_ Hinvalid].
  split.
  - destruct (Hactive {| Live2.audio := []; Live2.active := true;
                         Live2.out_queue := Some []; Live2.socketio := false;
                         Live2.client_sid := None; Live2.stream_task := false |})
      as (svc' & s' & H1 & H2 & H3 & _).
    + vm_compute. reflexivity.
    + reflexivity.
    + exists svc', s'. auto.
  - apply Hinvalid. left. vm_compute. reflexivity.
Defined.

Lemma end_session_known (svc : service) (session_id : string) (s : session) :
  sessions svc !! session_id = Some s →
  end_session session_id svc
    = (true, with_sessions svc (<[session_id := deactivate s]> (sessions svc))).
Proof. intros Hs. unfold end_session. by rewrite Hs. Qed.

Lemma end_session_unknown (svc : service) (session_id : string) :
  sessions svc !! session_id = None →
  end_session session_id svc = (false, svc).
Proof. intros Hs. unfold end_session. by rewrite Hs. Qed.

(** After [end_session] the id is no longer reported as active by
    [get_status], and the number of entries is what it was. *)
Lemma end_session_status (svc : service) (session_id : string) (s : session) :
  sessions svc !! session_id = Some s →
  (session_id ∉ (get_status (end_session session_id svc).2).1)
  ∧ (get_status (end_session session_id svc).2).2 = (get_status svc).2.
Proof.
  intros Hs. rewrite (end_session_known svc session_id s Hs).
  unfold get_status. simpl. split.
  - rewrite elem_of_dom. intros [t Ht].
    apply map_lookup_filter_Some in Ht as [Ht Hactive].
    rewrite lookup_insert_eq in Ht. injection Ht as <-. discriminate.
  - apply map_size_insert_Some. eauto.
Qed.

(** Ending a session or attaching a client leaves the audio of every
    session as it is. *)
Lemma end_session_audio (svc : service) (session_id other : string) (s : session) :
  sessions svc !! other = Some s →
  ∃ s', sessions (end_session session_id svc).2 !! other = Some s'
        ∧ audio s' = audio s.
Proof.
  intros Hs. unfold end_session.
  destruct (sessions svc !! session_id) as [t|] eqn:Ht; simpl; [|eauto].
  destruct (decide (session_id = other)) as [->|Hne].
  - rewrite lookup_insert_eq. exists (deactivate t). split; [done|].
    rewrite Hs in Ht. by inversion Ht.
  - rewrite lookup_insert_ne by done. eauto.
Qed.

Lemma set_socketio_audio (svc : service) (session_id client other : string)
    (s : session) :
  sessions svc !! other = Some s →
  ∃ s', sessions (set_socketio session_id client svc) !! other = Some s'
        ∧ audio s' = audio s.
Proof.
  intros Hs. unfold set_socketio.
  destruct (sessions svc !! session_id) as [t|] eqn:Ht; simpl; [|eauto].
  destruct (decide (session_id = other)) as [->|Hne].
  - rewrite lookup_insert_eq. exists (attach t client). split; [done|].
    rewrite Hs in Ht. by inversion Ht.
  - rewrite lookup_insert_ne by done. eauto.
Qed.

End Live2_facts.

(** * Ending a session *)

Section End_session.

Lemma live_end_session_known (wait : result unit) (session_id : string)
    (svc : Live.service) :
  is_Some (Live.active_sessions svc !! session_id) →
  Live.end_session wait session_id svc
    = (Ok PNone,
       {| Live.tts_client := Live.tts_client svc;
          Live.active_sessions := delete session_id (Live.active_sessions svc);
          Live.session_responses := delete session_id (Live.session_responses svc) |}).
Proof.
  intros [d Hd]. unfold Live.end_session.
  cbv [mbind M_bind bind gets try_except modify lift ret mret M_ret].
  rewrite Hd. simpl.
  destruct (Live.task d); [destruct wait|]; simpl;
    unfold Live.with_active, Live.with_session_responses; simpl;
    try rewrite delete_alter_eq; reflexivity.
Qed.

Lemma live_end_session_unknown (wait : result unit) (session_id : string)
    (svc : Live.service) :
  Live.active_sessions svc !! session_id = None →
  Live.end_session wait session_id svc = (Ok PNone, svc).
Proof.
  intros Hd. unfold Live.end_session.
  cbv [mbind M_bind bind gets ret mret M_ret]. by rewrite Hd.
Qed.

(** C2, on the code.  In [GeminiLive2Service], [end_session] on a known id
    returns [True] on the first call and [True] again on the second: the
    first call marks the entry inactive and keeps it in the registry, the
    second changes nothing; on an unknown id it returns [False] and changes
    nothing.  In [GeminiLiveService], the first [end_session] on a known id
    removes the id from [active_sessions] and from [session_responses],
    whatever waiting for the background task does, and a second call
    changes nothing, so that nothing is removed twice. *)
Theorem end_session_twice :
  (∀ (svc : Live2.service) (session_id : string) (s : Live2.session),
     Live2.sessions svc !! session_id = Some s →
     ∃ svc1,
       Live2.end_session session_id svc = (true, svc1)
       ∧ Live2.end_session session_id svc1 = (true, svc1)
       ∧ Live2.sessions svc1 !! session_id = Some (Live2.deactivate s)
       ∧ dom (Live2.sessions svc1) = dom (Live2.sessions svc))
  ∧ (∀ (svc : Live2.service) (session_id : string),
       Live2.sessions svc !! session_id = None →
       Live2.end_session session_id svc = (false, svc))
  ∧ (∀ (wait1 wait2 : result unit) (svc : Live.service) (session_id : string),
       is_Some (Live.active_sessions svc !! session_id) →
       ∃ r1 r2 svc1,
         Live.end_session wait1 session_id svc = (Ok r1, svc1)
         ∧ Live.active_sessions svc1 !! session_id = None
         ∧ Live.session_responses svc1 !! session_id = None
         ∧ (∀ other, other ≠ session_id →
              Live.active_sessions svc1 !! other = Live.active_sessions svc !! other
              ∧ Live.session_responses svc1 !! other
                  = Live.session_responses svc !! other)
         ∧ Live.end_session wait2 session_id svc1 = (Ok r2, svc1)).
Proof.
  split; [|split].
  - intros svc session_id s Hs.
    eexists. split; [by apply end_session_known|].
    split; [|split].
    + erewrite end_session_known by (simpl; apply lookup_insert_eq).
      simpl. unfold Live2.with_sessions. simpl.
      by rewrite insert_insert_eq.
    + simpl. apply lookup_insert_eq.
    + simpl. rewrite dom_insert_L.
      apply subseteq_union_1_L, singleton_subseteq_l, elem_of_dom. eauto.
  - apply end_session_unknown.
  - intros wait1 wait2 svc session_id Hin.
    eexists PNone, PNone, _.
    split; [by apply live_end_session_known|]. simpl.
    split; [apply lookup_delete_eq|].
    split; [apply lookup_delete_eq|].
    split.
    + intros other Hne. by rewrite !lookup_delete_ne.
    + apply live_end_session_unknown. simpl. apply lookup_delete_eq.
Qed.

(** Ending a session just created twice, in both services. *)
Lemma end_session_twice_witness :
  let svc := (Live2.create_session "s1" Demo.live2_empty).2 in
  let live := (Live.create_session (Some "s1") "" Demo.live_empty).2 in
  (∃ svc1, Live2.end_session "s1" svc = (true, svc1)
           ∧ Live2.end_session "s1" svc1 = (true, svc1))
  ∧ Live2.end_session "s2" svc = (false, svc)
  ∧ (∃ r1 r2 live1,
       Live.end_session (Ok tt) "s1" live = (Ok r1, live1)
       ∧ Live.active_sessions live1 !! "s1" = None
       ∧ Live.end_session (Ok tt) "s1" live1 = (Ok r2, live1)).
Proof.
  intros svc live.
  destruct end_session_twice as (Hknown & Hunknown & Hlive).
  split; [|split].
  - destruct (Hknown svc "s1"
                {| Live2.audio := []; Live2.active := true;
                   Live2.out_queue := Some []; Live2.socketio := false;
                   Live2.client_sid := None; Live2.stream_task := false |})
      as (svc1 & H1 & H2 & _).
    + vm_compute. reflexivity.
    + eauto.
  - apply Hunknown. vm_compute. reflexivity.
  - destruct (Hlive (Ok tt) (Ok tt) live "s1") as (r1 & r2 & live1 & H1 & H2 & _ & _ & H3).
    + vm_compute. eauto.
    + eauto 10.
Defined.

(** C2 as the specification states it fails on [GeminiLive2Service]: for
    a session just created, the second [end_session] returns [True], not
    [False], and the entry is still in the registry after the first. *)
Lemma end_session_twice_counterexample :
  let svc0 := (Live2.create_session "s1" Demo.live2_empty).2 in
  let svc1 := (Live2.end_session "s1" svc0).2 in
  (Live2.end_session "s1" svc0).1 = true
  ∧ (Live2.end_session "s1" svc1).1 = true
  ∧ is_Some (Live2.sessions svc1 !! "s1")
  ∧ ¬ ((Live2.end_session "s1" svc1).1 = false
       ∧ Live2.sessions svc1 !! "s1" = None).
Proof.
  vm_compute. split; [done|]. split; [done|]. split; [eauto|].
  intros [? _]. discriminate.
Qed.

End End_session.

(** * The tool executor *)

Section Tool_executor.
Context (w : World).

Lemma execute_function_unknown {S} (function_name : string)
    (function_args : pydict) (s : S) :
  function_name ≠ "search_products" →
  Live.execute_function w function_name function_args s
    = (Ok (Live.ToolError ("Unknown function: " +:+ function_name)), s).
Proof.
  intros Hne. unfold Live.execute_function.
  destruct (String.eqb_spec function_name "search_products"); [done|].
  reflexivity.
Qed.

(** [_execute_function] returns a value and leaves the state alone. *)
Lemma execute_function_returns {S} (function_name : string)
    (function_args : pydict) (s : S) :
  ∃ r, Live.execute_function w function_name function_args s = (Ok r, s).
Proof.
  unfold Live.execute_function.
  destruct (String.eqb function_name "search_products"); [|run; eauto].
  destruct (negb (truthy (get function_args "query"))); [run; eauto|].
  run. destruct (http_get w _) as [e|status json text]; [eauto|].
  destruct (status =? 200)%Z; [|eauto].
  destruct json; eauto.
Qed.


Lemma execute_function_search_failure {S} (function_args : pydict) (s : S) :
  let url := "http://localhost:5000/api/search?query="
             +:+ py_str (get function_args "query") in
  ((∃ e, http_get w url = HttpRaise e)
   ∨ (∃ status json text,
        http_get w url = HttpResponse status json text ∧ status ≠ 200%Z)
   ∨ (∃ e text, http_get w url = HttpResponse 200 (Raise e) text)) →
  ∃ msg, Live.execute_function w "search_products" function_args s
         = (Ok (Live.ToolError msg), s).
Proof.
  intros url Hfail. unfold Live.execute_function. simpl.
  destruct (negb (truthy (get function_args "query"))); [run; eauto|].
  run. fold url.
  destruct Hfail as [[e ->] | [(status & json & text & -> & Hne) | (e & text & ->)]].
  - eauto.
  - destruct (Z.eqb_spec status 200); [done|]. eauto.
  - simpl. eauto.
Qed.

(** A failed search does not end the turn: the receive loop sends the error
    payload to the remote service as the result of the call. *)
Lemma on_tool_call_search_failure (session_id : string) (c : function_call)
    (rest : list function_call) (st : Live.task_state) :
  fc_name c = "search_products" →
  (let url := "http://localhost:5000/api/search?query="
              +:+ py_str (get (fc_args c) "query") in
   (∃ e, http_get w url = HttpRaise e)
   ∨ (∃ status json text,
        http_get w url = HttpResponse status json text ∧ status ≠ 200%Z)
   ∨ (∃ e text, http_get w url = HttpResponse 200 (Raise e) text)) →
  ∃ msg st',
    Live.on_tool_call w session_id (c :: rest) st = (Ok tt, st')
    ∧ Live.sent st'
      = Live.sent st
        ++ [Live.SendFunctionResponse (fc_id c) "search_products"
              (Live.ToolError msg) false]
    ∧ Live.emitted st' = Live.emitted st.
Proof.
  intros Hname Hfail. unfold Live.on_tool_call. rewrite Hname. run.
  destruct (execute_function_search_failure (fc_args c)
              (Live.push_call ("search_products", fc_args c) st) Hfail)
    as [msg ->].
  simpl. eauto.
Qed.

(** C8. For every function name other than ["search_products"] and any
    arguments, [_execute_function] returns the error value
    [{"error": "Unknown function: <name>"}]; it never raises, whatever the
    name, the arguments and the search endpoint; when the search request
    fails (the request raises, the status is not 200, or the body is not
    JSON) the value returned is an error payload; and the receive loop then
    sends that payload to the remote service as the result of the call and
    goes on. *)
Theorem execute_function_never_raises (S : Type) (function_name : string)
    (function_args : pydict) (s : S) :
  (function_name ≠ "search_products" →
   Live.execute_function w function_name function_args s
     = (Ok (Live.ToolError ("Unknown function: " +:+ function_name)), s))
  ∧ (∃ r, Live.execute_function w function_name function_args s = (Ok r, s))
  ∧ (let url := "http://localhost:5000/api/search?query="
                +:+ py_str (get function_args "query") in
     ((∃ e, http_get w url = HttpRaise e)
      ∨ (∃ status json text,
           http_get w url = HttpResponse status json text ∧ status ≠ 200%Z)
      ∨ (∃ e text, http_get w url = HttpResponse 200 (Raise e) text)) →
     (∃ msg, Live.execute_function w "search_products" function_args s
             = (Ok (Live.ToolError msg), s))
     ∧ (∀ (session_id id : string) (rest : list function_call)
          (st : Live.task_state),
          ∃ msg st',
            Live.on_tool_call w session_id
              ({| fc_id := id; fc_name := "search_products";
                  fc_args := function_args |} :: rest) st
            = (Ok tt, st')
            ∧ Live.sent st'
              = Live.sent st
                ++ [Live.SendFunctionResponse id "search_products"
                      (Live.ToolError msg) false])).
Proof.
  split; [apply execute_function_unknown|].
  split; [apply execute_function_returns|].
  intros url Hfail. split; [by apply execute_function_search_failure|].
  intros session_id id rest st.
  destruct (on_tool_call_search_failure session_id
              {| fc_id := id; fc_name := "search_products";
                 fc_args := function_args |} rest st eq_refl Hfail)
    as (msg & st' & Hcall & Hsent & _).
  eauto.
Qed.

End Tool_executor.

(** An unknown function, and a search while the endpoint is down. *)
Lemma execute_function_never_raises_witness :
  Live.execute_function Demo.world "checkout" ∅ tt
  = (Ok (Live.ToolError "Unknown function: checkout"), tt)
  ∧ ∃ msg,
      Live.execute_function Demo.offline_world "search_products"
        (<["query" := PStr "blue jacket"]> ∅) tt
      = (Ok (Live.ToolError msg), tt).
Proof.
  split.
  - apply (proj1 (execute_function_never_raises Demo.world unit "checkout" ∅ tt)).
    discriminate.
  - apply (proj2 (proj2 (execute_function_never_raises Demo.offline_world unit
                           "search_products"
                           (<["query" := PStr "blue jacket"]> ∅) tt))).
    left. exists "connection refused". reflexivity.
Defined.

(** * Audio chunks *)

Section Chunks.
Context {A : Type}.
Implicit Types (l : list A) (size start fuel : nat).

Lemma slices_concat size l :
  (0 < size)%nat →
  ∀ fuel start, (length l ≤ start + fuel)%nat →
    concat (slices size fuel start l) = drop start l.
Proof.
  intros Hsize. induction fuel as [|fuel IH]; intros start Hfuel.
  - simpl. rewrite drop_ge by lia. reflexivity.
  - unfold slices. simpl.
    destruct (Nat.ltb_spec start (length l)) as [Hlt|Hge].
    + simpl. fold (slices size fuel (start + size) l).
      rewrite IH by lia.
      rewrite <- (take_drop size (drop start l)) at 2.
      by rewrite drop_drop.
    + simpl. by rewrite drop_ge.
Qed.

Lemma slices_bounded size fuel start l :
  Forall (λ c, (length c ≤ size)%nat) (slices size fuel start l).
Proof.
  unfold slices. apply Forall_map, Forall_forall. intros i _. simpl.
  rewrite length_take. lia.
Qed.

Lemma slices_nonempty size l :
  (0 < size)%nat →
  ∀ fuel start, Forall (λ c, (0 < length c)%nat) (slices size fuel start l).
Proof.
  intros Hsize. induction fuel as [|fuel IH]; intros start; [constructor|].
  unfold slices. simpl.
  destruct (Nat.ltb_spec start (length l)) as [Hlt|Hge]; [|constructor].
  simpl. constructor.
  - rewrite length_take, length_drop. lia.
  - apply IH.
Qed.

Lemma slices_length size l :
  (0 < size)%nat →
  ∀ fuel start, (length l ≤ start + fuel)%nat →
    length (slices size fuel start l)
    = ((length l - start + (size - 1)) / size)%nat.
Proof.
  intros Hsize. induction fuel as [|fuel IH]; intros start Hfuel.
  - simpl. replace (length l - start) with 0 by lia.
    rewrite Nat.div_small; lia.
  - unfold slices. simpl.
    destruct (Nat.ltb_spec start (length l)) as [Hlt|Hge].
    + simpl. fold (slices size fuel (start + size) l).
      rewrite IH by lia.
      destruct (Nat.le_gt_cases (length l) (start + size)) as [Hle|Hgt].
      * replace (length l - (start + size)) with 0 by lia.
        rewrite (Nat.div_small (0 + (size - 1))) by lia.
        apply (Nat.div_unique _ _ 1 (length l - start - 1)); lia.
      * replace (length l - start + (size - 1))
          with ((length l - (start + size) + (size - 1)) + 1 * size) by lia.
        rewrite Nat.div_add by lia. lia.
    + simpl. replace (length l - start) with 0 by lia.
      rewrite Nat.div_small; lia.
Qed.

End Chunks.

Lemma chunks_of_slices (size : nat) (audio_bytes : list byte) :
  Live.chunks_of size audio_bytes
  = slices size (length audio_bytes) 0 audio_bytes.
Proof. reflexivity. Qed.

Section Tts.
Context (w : World).
Import Live.

Lemma for_each_emit (room : string) (f : list byte → event)
    (cs : list (list byte)) (st : task_state) :
  for_each cs (λ c, emit room (f c)) st
  = (Ok tt,
     {| sd := sd st; responses := responses st;
        emitted := emitted st ++ map (λ c, (room, f c)) cs;
        sent := sent st; calls := calls st; rng := rng st;
        last_response := last_response st |}).
Proof.
  revert st. induction cs as [|c cs IH]; intros st; simpl.
  - unfold ret. rewrite app_nil_r. by destruct st.
  - unfold bind, emit, modify at 1. rewrite IH. simpl.
    by rewrite <- app_assoc.
Qed.

Lemma stream_tts_audio_ok (text room : string) (st : task_state)
    (audio_bytes : list byte) :
  nonempty text = true →
  synthesize_speech w text = Ok audio_bytes →
  stream_tts_audio w true text room st
  = (Ok tt,
     {| sd := sd st; responses := responses st;
        emitted := emitted st
                   ++ map (λ c, (room, receive_audio_chunk (b64encode w c)))
                        (chunks_of chunk_size audio_bytes)
                   ++ [(room, audio_stream_end)];
        sent := sent st; calls := calls st; rng := rng st;
        last_response := last_response st |}).
Proof.
  intros Htext Hsyn. unfold stream_tts_audio. rewrite Htext. simpl.
  run. rewrite Hsyn.
  rewrite (for_each_emit room (λ c, receive_audio_chunk (b64encode w c))).
  unfold emit, modify, push_emitted. simpl. by rewrite <- app_assoc.
Qed.

Lemma stream_tts_audio_returns (tts : bool) (text room : string) (st : task_state) :
  ∃ st', stream_tts_audio w tts text room st = (Ok tt, st')
         ∧ sd st' = sd st ∧ responses st' = responses st
         ∧ sent st' = sent st ∧ calls st' = calls st
         ∧ last_response st' = last_response st
         ∧ complete_texts (emitted st') = complete_texts (emitted st).
Proof.
  unfold stream_tts_audio.
  destruct (negb tts || negb (nonempty text)); [run; eauto 10|].
  run. destruct (synthesize_speech w text) as [audio_bytes|e]; [|eauto 10].
  rewrite (for_each_emit room (λ c, receive_audio_chunk (b64encode w c))).
  unfold emit, modify, push_emitted. simpl.
  eexists. split; [reflexivity|]. simpl. repeat split.
  unfold complete_texts. rewrite !omap_app. simpl.
  rewrite app_nil_r.
  replace (omap _ (map _ (chunks_of chunk_size audio_bytes))) with (@nil string).
  - by rewrite app_nil_r.
  - induction (chunks_of chunk_size audio_bytes); simpl; auto.
Qed.

(** C7. When the synthesis of a non-empty text succeeds with the bytes
    [audio_bytes], [stream_tts_audio] emits, in this order, one
    [receive_audio_chunk] per chunk (the chunk base64-encoded) and then one
    [audio_stream_end]; there are [ceil(len(audio_bytes) / 4096)] chunks,
    each of at most 4096 bytes, and their concatenation is [audio_bytes].
    When the synthesis raises, nothing is emitted and the exception is
    caught: [stream_tts_audio] returns normally in every case. *)
Theorem stream_tts_audio_chunks (tts : bool) (text room : string)
    (st : task_state) :
  (∀ audio_bytes,
     nonempty text = true →
     synthesize_speech w text = Ok audio_bytes →
     ∃ chunks,
       (stream_tts_audio w true text room st).1 = Ok tt
       ∧ emitted (stream_tts_audio w true text room st).2
         = emitted st
           ++ map (λ c, (room, receive_audio_chunk (b64encode w c))) chunks
           ++ [(room, audio_stream_end)]
       ∧ length chunks = ((length audio_bytes + 4095) / 4096)%nat
       ∧ Forall (λ c, (0 < length c ≤ 4096)%nat) chunks
       ∧ concat chunks = audio_bytes)
  ∧ (∀ e, synthesize_speech w text = Raise e →
       stream_tts_audio w tts text room st = (Ok tt, st))
  ∧ (∃ st', stream_tts_audio w tts text room st = (Ok tt, st')).
Proof.
  split; [|split].
  - intros audio_bytes Htext Hsyn.
    exists (chunks_of chunk_size audio_bytes).
    rewrite (stream_tts_audio_ok text room st audio_bytes Htext Hsyn).
    cbn [fst snd emitted].
    split; [done|]. split; [done|].
    rewrite chunks_of_slices. unfold chunk_size.
    split; [|split].
    + rewrite slices_length by lia. f_equal; lia.
    + pose proof (slices_bounded 4096 (length audio_bytes) 0 audio_bytes) as Hb.
      pose proof (slices_nonempty 4096 audio_bytes ltac:(lia)
                    (length audio_bytes) 0) as Hn.
      rewrite Forall_forall in *. intros c Hc. split; auto.
    + rewrite slices_concat by lia. reflexivity.
  - intros e Hsyn. unfold stream_tts_audio.
    destruct (negb tts || negb (nonempty text)); [reflexivity|].
    run. by rewrite Hsyn.
  - destruct (stream_tts_audio_returns tts text room st) as (st' & H & _).
    eauto.
Qed.

End Tts.

(** The two bytes of ["Hi"] make one chunk; a failing synthesiser emits
    nothing. *)
Lemma stream_tts_audio_chunks_witness :
  let st := Demo.task_start Demo.attached in
  (∃ chunks,
     Live.emitted (Live.stream_tts_audio Demo.world true "Hi" "room" st).2
     = map (λ c, ("room", Live.receive_audio_chunk (string_of_list_byte c))) chunks
       ++ [("room", Live.audio_stream_end)]
     ∧ length chunks = 1%nat
     ∧ concat chunks = list_byte_of_string "Hi")
  ∧ Live.stream_tts_audio Demo.mute_world true "Hi" "room" st = (Ok tt, st).
Proof.
  intros st.
  destruct (stream_tts_audio_chunks Demo.world true "Hi" "room" st)
    as (Hok & _ & _).
  destruct (stream_tts_audio_chunks Demo.mute_world true "Hi" "room" st)
    as (_ & Hfail & _).
  split.
  - destruct (Hok (list_byte_of_string "Hi")) as (chunks & _ & Hem & Hlen & _ & Hcat).
    + reflexivity.
    + reflexivity.
    + exists chunks. split; [exact Hem|]. split; [exact Hlen|exact Hcat].
  - apply (Hfail "synthesis failed"). reflexivity.
Defined.

Section Turn.
Context (w : World) (session_id : string).
Import Live.

Lemma agree_refl (st : task_state) : agree st st.
Proof. by repeat split. Qed.

Lemma agree_trans (st1 st2 st3 : task_state) :
  agree st1 st2 → agree st2 st3 → agree st1 st3.
Proof.
  unfold agree. intros (?&?&?&?&?) (?&?&?&?&?).
  repeat split; congruence.
Qed.

Lemma complete_texts_app (es fs : list (string * event)) :
  complete_texts (es ++ fs) = complete_texts es ++ complete_texts fs.
Proof. apply omap_app. Qed.

Lemma append_empty_r (s : string) : s +:+ "" = s.
Proof.
  induction s as [|c s IH]; [done|].
  change (String c (s +:+ "") = String c s). by rewrite IH.
Qed.

Lemma append_assoc (a b c : string) : (a +:+ b) +:+ c = a +:+ (b +:+ c).
Proof.
  induction a as [|x a IH]; [done|].
  change (String x ((a +:+ b) +:+ c) = String x (a +:+ (b +:+ c))).
  by rewrite IH.
Qed.

Lemma receive_step_quiet (r : response) (acc : string) (st : task_state) :
  quiet r = true →
  ∃ st',
    receive_step w session_id r acc st
      = (Ok (acc +:+ default "" (text_of r), false), st')
    ∧ agree st st' ∧ last_response st' = Some r.
Proof.
  unfold quiet. intros [Hcall Heot]%andb_prop.
  apply bool_decide_eq_true in Hcall. apply negb_true_iff in Heot.
  unfold receive_step. run. rewrite Hcall, Heot.
  destruct (text_of r) as [t|]; simpl.
  - destruct (has_target (sd st)); simpl;
      (eexists; split; [reflexivity|]; split; [|reflexivity]);
      repeat split; simpl.
    rewrite complete_texts_app. simpl. by rewrite app_nil_r.
  - rewrite append_empty_r.
    eexists; split; [reflexivity|]; split; [|reflexivity]. by repeat split.
Qed.

Lemma receive_loop_quiet (pre rest : list response) :
  Forall (λ r, quiet r = true) pre →
  ∀ (acc : string) (st : task_state),
    ∃ st',
      receive_loop w session_id (pre ++ rest) acc st
        = receive_loop w session_id rest (acc +:+ texts_of pre) st'
      ∧ agree st st'.
Proof.
  induction 1 as [|r pre Hr _ IH]; intros acc st.
  - exists st. simpl. rewrite append_empty_r. split; [done|apply agree_refl].
  - destruct (receive_step_quiet r acc st Hr) as (st1 & Hstep & Hag & _).
    destruct (IH (acc +:+ default "" (text_of r)) st1) as (st2 & Hloop & Hag2).
    exists st2. split; [|by eapply agree_trans].
    simpl. unfold mbind, M_bind, bind at 1. rewrite Hstep.
    rewrite Hloop. simpl. by rewrite append_assoc.
Qed.

Lemma execute_function_search_ok {S} (function_args : pydict)
    (data : search_data) (text : string) (s : S) :
  truthy (get function_args "query") = true →
  http_get w ("http://localhost:5000/api/search?query="
              +:+ py_str (get function_args "query"))
    = HttpResponse 200 (Ok data) text →
  execute_function w "search_products" function_args s = (Ok (ToolData data), s).
Proof.
  intros Hq Hget. unfold execute_function. simpl. rewrite Hq. simpl.
  run. by rewrite Hget.
Qed.

Lemma normalize_all_ok (results : list pydict) :
  ∀ st : task_state,
    ∃ enriched st',
      normalize_all w results st = (Ok enriched, st')
      ∧ length enriched = length results
      ∧ sd st' = sd st ∧ responses st' = responses st
      ∧ emitted st' = emitted st ∧ sent st' = sent st
      ∧ calls st' = calls st ∧ last_response st' = last_response st.
Proof.
  induction results as [|p ps IH]; intros st; simpl.
  - exists [], st. by repeat split.
  - run. unfold draw at 1.
    edestruct IH as (enriched & st' & -> & Hlen & Hrest).
    eexists _, st'. split; [reflexivity|]. split; [simpl; congruence|].
    exact Hrest.
Qed.

(** The tool-call branch when the first call is a search that returns
    results and the session has a client attached. *)
Lemma on_tool_call_search (c : function_call) (cs : list function_call)
    (data : search_data) (results : list pydict) (text : string)
    (st : task_state) :
  fc_name c = "search_products" →
  truthy (get (fc_args c) "query") = true →
  http_get w ("http://localhost:5000/api/search?query="
              +:+ py_str (get (fc_args c) "query"))
    = HttpResponse 200 (Ok data) text →
  sd_results data = Some results →
  has_target (sd st) = true →
  response_complete_sent (sd st) = false →
  ∃ enriched st',
    on_tool_call w session_id (c :: cs) st = (Ok tt, st')
    ∧ length enriched = length results
    ∧ sd st' = set_response_complete_sent true
                 (set_function_result_sent true (sd st))
    ∧ responses st' = responses st
    ∧ emitted st'
      = emitted st
        ++ [(room_of (sd st),
             function_result session_id "search_products" enriched);
            (room_of (sd st),
             response_complete (Some session_id) fallback_text)]
    ∧ sent st'
      = sent st ++ [SendFunctionResponse (fc_id c) "search_products"
                      (ToolData data) false]
    ∧ calls st' = calls st ++ [("search_products", fc_args c)]
    ∧ last_response st' = last_response st.
Proof.
  intros Hname Hq Hget Hres Htarget Hflag.
  unfold on_tool_call. rewrite Hname. run.
  rewrite (execute_function_search_ok _ data text _ Hq Hget).
  simpl. rewrite Hres. simpl. rewrite Htarget, Hflag. simpl.
  destruct (normalize_all_ok results (push_call ("search_products", fc_args c) st))
    as (enriched & st1 & Hnorm & Hlen & Hsd & Hresp & Hem & Hsent & Hcalls & Hlast).
  rewrite Hnorm. simpl.
  exists enriched. eexists. split; [reflexivity|]. simpl.
  rewrite Hsd, Hresp, Hem, Hsent, Hcalls, Hlast. simpl.
  repeat split; try done.
  by rewrite <- app_assoc.
Qed.

(** The frame of a tool call: the text part is handled first, then the
    call. *)
Lemma receive_step_tool (r : response) (function_calls : list function_call)
    (acc : string) (st : task_state) :
  r_tool_call r = Some function_calls →
  ∃ st1,
    agree st st1 ∧ last_response st1 = Some r
    ∧ receive_step w session_id r acc st
      = match on_tool_call w session_id function_calls st1 with
        | (Ok _, st2) => (Ok (acc +:+ default "" (text_of r), true), st2)
        | (Raise e, st2) => (Raise e, st2)
        end.
Proof.
  intros Hcall. unfold receive_step. run. rewrite Hcall.
  destruct (text_of r) as [t|]; simpl.
  - destruct (has_target (sd st)); simpl;
      (eexists; split; [|split; [|reflexivity]]; [|reflexivity]);
      repeat split; simpl.
    rewrite complete_texts_app. simpl. by rewrite app_nil_r.
  - rewrite append_empty_r.
    eexists; split; [|split; [|reflexivity]]; [|reflexivity]. by repeat split.
Qed.

(** The frame that ends the turn, for a session with a client attached. *)
Lemma receive_step_end_of_turn (r : response) (acc : string) (st : task_state) :
  r_tool_call r = None →
  r_end_of_turn r = true →
  has_target (sd st) = true →
  let acc' := acc +:+ default "" (text_of r) in
  let fallback := negb (nonempty (strip acc')) && function_result_sent (sd st) in
  ∃ st',
    receive_step w session_id r acc st = (Ok (acc', true), st')
    ∧ sd st' = (if fallback then set_function_result_sent false (sd st) else sd st)
    ∧ responses st' = responses st
    ∧ sent st' = sent st ∧ calls st' = calls st
    ∧ last_response st' = Some r
    ∧ complete_texts (emitted st')
      = complete_texts (emitted st)
        ++ [if fallback then fallback_text else strip acc'].
Proof.
  intros Hcall Heot Htarget acc' fallback.
  unfold receive_step, on_end_of_turn. run. rewrite Hcall, Heot.
  assert (Hroom : ∀ d, has_target d = true →
            has_target (set_function_result_sent false d) = true) by done.
  destruct (text_of r) as [t|] eqn:Ht; simpl; rewrite ?Htarget; simpl.
  - subst acc' fallback. simpl.
    destruct (negb (nonempty (strip (acc +:+ t))) && function_result_sent (sd st));
      simpl; rewrite ?Htarget; simpl;
      (eexists; split; [reflexivity|]); simpl; repeat split;
      rewrite !complete_texts_app; simpl; by rewrite app_nil_r.
  - subst acc' fallback. simpl. rewrite append_empty_r.
    destruct (negb (nonempty (strip acc)) && function_result_sent (sd st));
      simpl; rewrite ?Htarget; simpl;
      (eexists; split; [reflexivity|]); simpl; repeat split;
      rewrite ?complete_texts_app; simpl; done.
Qed.

(** What follows the receive loop. *)
Lemma after_receive_ok (tts : bool) (acc : string) (st : task_state)
    (entry : pydict) (r : response) :
  responses st !! session_id = Some entry →
  last_response st = Some r →
  ∃ st',
    after_receive w tts session_id acc st = (Ok tt, st')
    ∧ sd st' = set_response_queue (response_queue (sd st) ++ [true])
                 (set_response_complete_sent false (sd st))
    ∧ responses st' = <[session_id := <["done" := PBool true]> entry]> (responses st)
    ∧ sent st' = sent st ∧ calls st' = calls st
    ∧ complete_texts (emitted st')
      = complete_texts (emitted st)
        ++ (if target_truthy (sd st) && negb (response_complete_sent (sd st))
            then [acc] else []).
Proof.
  intros Hentry Hlast. unfold after_receive. run.
  destruct (target_truthy (sd st) && negb (response_complete_sent (sd st))); simpl.
  - match goal with
    | |- context [stream_tts_audio w tts acc ?room ?s] =>
        destruct (stream_tts_audio_returns w tts acc room s)
          as (st1 & -> & Hsd & Hresp & Hsent & Hcalls & Hlr & Hct)
    end.
    simpl in *. rewrite Hresp, Hentry. simpl. rewrite Hlr, Hlast.
    eexists. split; [reflexivity|]. simpl.
    rewrite Hsd, Hresp, Hsent, Hcalls, Hct. repeat split.
    by rewrite complete_texts_app.
  - rewrite Hentry. simpl. rewrite Hlast.
    eexists. split; [reflexivity|]. simpl. repeat split.
    by rewrite app_nil_r.
Qed.

(** A message without a usable frame: the text is sent, the stream is
    read, and the iteration is finished by [after_receive]. *)
Lemma handle_message_text (tts : bool) (m : message) (message : content)
    (frame : option string) (frames : list response) (st : task_state) :
  unpack m = (Some message, frame) →
  str_truthy frame = false →
  handle_message w tts session_id m frames st
  = match receive_loop w session_id frames ""
            (push_sent (SendInput [message] true)
               (with_responses (insert session_id fresh_response) st)) with
    | (Ok acc, st1) =>
        match after_receive w tts session_id acc st1 with
        | (Ok _, st2) => (Ok Next, st2)
        | (Raise e, st2) => (Raise e, st2)
        end
    | (Raise e, st1) => (Raise e, st1)
    end.
Proof.
  intros Hm Hframe.
  destruct m as [|t|[t|] f|d mt]; simpl in Hm; try discriminate;
    injection Hm as <- <-;
    unfold handle_message; run; simpl; rewrite ?Hframe;
    unfold send, modify; simpl;
    (destruct (receive_loop _ _ _ _ _) as [[acc|e] st1]; [|done]);
    by destruct (after_receive _ _ _ _ _) as [[[]|e] st2].
Qed.

(** A turn in which the search tool produced a result: one
    [response_complete], carrying the fallback text, whatever text the
    frames before the call (and the frame of the call) carried. *)
Lemma tool_turn (tts : bool) (m : message) (message : content)
    (frame : option string) (pre post : list response) (r : response)
    (c : function_call) (cs : list function_call)
    (data : search_data) (results : list pydict) (text : string)
    (st : task_state) :
  unpack m = (Some message, frame) →
  str_truthy frame = false →
  has_target (sd st) = true →
  response_complete_sent (sd st) = false →
  Forall (λ r, quiet r = true) pre →
  r_tool_call r = Some (c :: cs) →
  fc_name c = "search_products" →
  truthy (get (fc_args c) "query") = true →
  http_get w ("http://localhost:5000/api/search?query="
              +:+ py_str (get (fc_args c) "query"))
    = HttpResponse 200 (Ok data) text →
  sd_results data = Some results →
  ∃ st',
    handle_message w tts session_id m (pre ++ r :: post) st = (Ok Next, st')
    ∧ complete_texts (emitted st')
      = complete_texts (emitted st) ++ [fallback_text]
    ∧ sent st'
      = sent st ++ [SendInput [message] true;
                    SendFunctionResponse (fc_id c) "search_products"
                      (ToolData data) false]
    ∧ calls st' = calls st ++ [("search_products", fc_args c)]
    ∧ function_result_sent (sd st') = true
    ∧ response_complete_sent (sd st') = false.
Proof.
  intros Hm Hframe Htarget Hflag Hpre Hcall Hname Hq Hget Hres.
  rewrite (handle_message_text tts m message frame _ st Hm Hframe).
  set (st0 := push_sent _ _).
  destruct (receive_loop_quiet pre (r :: post) Hpre "" st0)
    as (st1 & -> & Hsd1 & Hresp1 & Hsent1 & Hcalls1 & Hct1).
  simpl receive_loop. unfold mbind, M_bind, bind at 1.
  destruct (receive_step_tool r (c :: cs) ("" +:+ texts_of pre) st1 Hcall)
    as (st2 & (Hsd2 & Hresp2 & Hsent2 & Hcalls2 & Hct2) & Hlast2 & ->).
  destruct (on_tool_call_search c cs data results text st2 Hname Hq Hget Hres)
    as (enriched & st3 & -> & _ & Hsd3 & Hresp3 & Hem3 & Hsent3 & Hcalls3 & Hlast3).
  { by rewrite Hsd2, Hsd1. }
  { by rewrite Hsd2, Hsd1. }
  simpl.
  destruct (after_receive_ok tts (("" +:+ texts_of pre) +:+ default "" (text_of r))
              st3 fresh_response r) as (st4 & -> & Hsd4 & _ & Hsent4 & Hcalls4 & Hct4).
  { rewrite Hresp3, Hresp2, Hresp1. subst st0. simpl. apply lookup_insert_eq. }
  { by rewrite Hlast3. }
  eexists. split; [reflexivity|].
  rewrite Hct4, Hsent4, Hcalls4, Hsd4, Hsd3, Hem3, Hsent3, Hcalls3.
  rewrite Hsent2, Hsent1, Hcalls2, Hcalls1. simpl.
  rewrite andb_false_r, app_nil_r, complete_texts_app, Hct2, Hct1.
  subst st0. simpl. rewrite <- app_assoc. by repeat split.
Qed.

(** A turn ended by an end-of-turn marker, for a session with a client
    attached: [response_complete] is emitted at the marker and once more
    after the loop. *)
Lemma end_of_turn_turn (tts : bool) (m : message) (message : content)
    (frame : option string) (pre post : list response) (r : response)
    (st : task_state) :
  unpack m = (Some message, frame) →
  str_truthy frame = false →
  socketio (sd st) = true →
  str_truthy (client_sid (sd st)) = true →
  response_complete_sent (sd st) = false →
  Forall (λ r, quiet r = true) pre →
  r_tool_call r = None →
  r_end_of_turn r = true →
  let acc := texts_of pre +:+ default "" (text_of r) in
  ∃ st',
    handle_message w tts session_id m (pre ++ r :: post) st = (Ok Next, st')
    ∧ complete_texts (emitted st')
      = complete_texts (emitted st)
        ++ [if negb (nonempty (strip acc)) && function_result_sent (sd st)
            then fallback_text else strip acc;
            acc].
Proof.
  intros Hm Hframe Hsio Hsid Hflag Hpre Hcall Heot acc.
  assert (Htarget : has_target (sd st) = true).
  { unfold has_target. rewrite Hsio. simpl.
    destruct (client_sid (sd st)); [|done]. apply bool_decide_eq_true. eauto. }
  assert (Htruthy : target_truthy (sd st) = true).
  { unfold target_truthy. by rewrite Hsio, Hsid. }
  rewrite (handle_message_text tts m message frame _ st Hm Hframe).
  set (st0 := push_sent _ _).
  destruct (receive_loop_quiet pre (r :: post) Hpre "" st0)
    as (st1 & -> & Hsd1 & Hresp1 & Hsent1 & Hcalls1 & Hct1).
  simpl receive_loop. unfold mbind, M_bind, bind at 1.
  destruct (receive_step_end_of_turn r ("" +:+ texts_of pre) st1 Hcall Heot)
    as (st2 & -> & Hsd2 & Hresp2 & _ & _ & Hlast2 & Hct2).
  { by rewrite Hsd1. }
  simpl.
  destruct (after_receive_ok tts (("" +:+ texts_of pre) +:+ default "" (text_of r))
              st2 fresh_response r) as (st3 & -> & _ & _ & _ & _ & Hct3).
  { rewrite Hresp2, Hresp1. subst st0. simpl. apply lookup_insert_eq. }
  { exact Hlast2. }
  eexists. split; [reflexivity|].
  rewrite Hct3, Hct2, Hct1, Hsd2, Hsd1. subst st0. simpl.
  change (("" +:+ texts_of pre) +:+ default "" (text_of r)) with acc.
  rewrite <- app_assoc. f_equal. simpl.
  destruct (negb (nonempty (strip acc)) && function_result_sent (sd st)); simpl;
    unfold target_truthy in *; simpl; by rewrite Htruthy, Hflag.
Qed.

End Turn.

Section First_call.
Context (w : World) (session_id : string).
Import Live.


End First_call.

Section Search_results.
Context (w : World).
Import Live.

Lemma search_results_of_length (data : search_data) :
  (length (search_results_of data) ≤ 5)%nat.
Proof.
  unfold search_results_of. destruct (sd_results data); simpl; [|lia].
  rewrite length_map, length_take. lia.
Qed.

Lemma on_function_call_small (fc : function_call) (st : gen_state) :
  Forall small_response (gen_sent st) →
  Forall small_response (gen_sent (on_function_call w fc st).2).
Proof.
  intros Hst. unfold on_function_call.
  destruct (String.eqb (fc_name fc) "search_products"); [|done].
  run. destruct (http_get w _) as [e|status [data|e] text]; simpl; try done.
  apply Forall_app. split; [done|].
  constructor; [|constructor]. simpl. apply search_results_of_length.
Qed.

Lemma on_function_calls_small (fcs : list function_call) :
  ∀ st : gen_state,
    Forall small_response (gen_sent st) →
    Forall small_response (gen_sent (on_function_calls w fcs st).2).
Proof.
  unfold on_function_calls.
  induction fcs as [|fc fcs IH]; intros st Hst; simpl; [done|].
  unfold bind. pose proof (on_function_call_small fc st Hst) as Hfc.
  destruct (on_function_call w fc st) as [[[]|e] st1]; simpl in *; auto.
Qed.

End Search_results.

(** * The claims on the turn *)

(** A frame with a truthy [end_of_turn] attribute would get
    [response_complete] twice, at the marker and again after the loop: the
    branch of the marker neither reads nor sets the flag.  The frames of
    [session.receive()] carry no such attribute. *)
Example complete_emitted_twice_at_end_of_turn :
  let frames := [Demo.frame (Some "Hi") None false; Demo.frame None None true] in
  let st := (Live.handle_message Demo.world false "s1"
               (Live.MPair (Some "hello") None) frames
               (Demo.task_start Demo.attached)).2 in
  Live.emitted st
  = [("room", Live.response_chunk "s1" "Hi");
     ("room", Live.response_complete (Some "s1") "Hi");
     ("room", Live.response_complete (Some "s1") "Hi")]
  ∧ length (complete_texts (Live.emitted st)) = 2%nat.
Proof. vm_compute. split; reflexivity. Qed.

(** C4, on the code: when the search endpoint answers with six products,
    the function response the background task sends to the remote service
    carries all six. *)
Theorem function_response_carries_six_results :
  let frames := [Demo.frame None (Some [Demo.search_call "c1" "blue jacket"]) false] in
  let st := (Live.handle_message Demo.world false "s1"
               (Live.MPair (Some "find me a blue jacket") None) frames
               (Demo.task_start Demo.attached)).2 in
  ∃ data results,
    Live.sent st
    = [Live.SendInput [Live.CText "find me a blue jacket"] true;
       Live.SendFunctionResponse "c1" "search_products" (Live.ToolData data) false]
    ∧ sd_results data = Some results
    ∧ length results = 6%nat.
Proof. vm_compute. eexists _, _. repeat split. Qed.

(** The other path, [send_user_input_to_session], sends at most five
    products for the same answer of the search endpoint. *)
Example tool_response_carries_five_results :
  let st := (Live.on_function_calls Demo.world
               [Demo.search_call "c1" "blue jacket"]
               {| Live.gen_yielded := []; Live.gen_sent := [] |}).2 in
  ∃ products,
    Live.gen_sent st = [Live.SendToolResponse "c1" "search_products" products]
    ∧ length products = 5%nat.
Proof. vm_compute. eexists. split; reflexivity. Qed.

(** C5 as the specification states it fails: in a turn that accumulated
    the text ["Sure"] before the tool result, [response_complete] carries
    the fallback and not the accumulated text. *)
Lemma complete_text_counterexample :
  let frames := [Demo.frame (Some "Sure") None false;
                 Demo.frame None (Some [Demo.search_call "c1" "blue jacket"]) false] in
  let st0 := Demo.task_start Demo.attached in
  (Live.receive_loop Demo.world "s1" frames "" st0).1 = Ok "Sure"
  ∧ complete_texts
      (Live.emitted (Live.handle_message Demo.world false "s1"
                       (Live.MText "find me a blue jacket") frames st0).2)
    = ["Here you go!"]
  ∧ ["Here you go!"] ≠ ["Sure"].
Proof. vm_compute. repeat split. discriminate. Qed.

(** * Creating a session *)

(** C3, on the code.  When the handshake with the remote service fails,
    [create_session] has already returned the session id, and the registry
    keeps the entry of that id, marked as not connected; nothing was emitted
    or sent, and a message for the session is answered with the error
    ["Session not connected"] and not enqueued. *)
Theorem create_session_handshake_failure (w : World)
    (session_id : option string) (uuid e : string)
    (streams : list (list response)) (svc : Live.service) :
  let created := Live.create_session session_id uuid svc in
  let run := Live.run_background_task w created.1 (Raise e) streams created.2 in
  created.1 = default uuid session_id
  ∧ (∃ d, Live.active_sessions (Live.run_service run) !! created.1 = Some d
          ∧ Live.connected d = false
          ∧ Live.task d = true
          ∧ Live.message_queue d = [])
  ∧ Live.run_emitted run = []
  ∧ Live.run_sent run = []
  ∧ (∀ (message frame : option string) (client : string),
       Live.process_user_message_socketio created.1 message frame client
         (Live.run_service run)
       = ([(client, Live.error_event "Session not connected")],
          Live.run_service run)).
Proof.
  intros created run. subst created run. simpl.
  set (sid := default uuid session_id).
  unfold Live.run_background_task. simpl.
  rewrite lookup_alter_eq, lookup_insert_eq. simpl.
  split; [done|]. split; [|split; [done|split; [done|]]].
  - eexists. rewrite lookup_insert_eq. by repeat split.
  - intros message frame client.
    unfold Live.process_user_message_socketio. simpl.
    by rewrite lookup_insert_eq.
Qed.

(** C3 as the specification states it fails: after a failed handshake the
    id that [create_session] returned is still in the registry. *)
Lemma handshake_failure_counterexample :
  let created := Live.create_session None "s1" Demo.live_empty in
  let run := Live.run_background_task Demo.world created.1
               (Raise "handshake failed") [] created.2 in
  created.1 = "s1"
  ∧ is_Some (Live.active_sessions (Live.run_service run) !! "s1")
  ∧ Live.active_sessions (Live.run_service run) !! "s1" ≠ None.
Proof. vm_compute. split; [done|]. split; [eauto|discriminate]. Qed.

(** * Polling for the response *)

Lemma fresh_response_nonempty : Live.fresh_response ≠ ∅.
Proof.
  intros H. apply (f_equal (λ m : pydict, m !! "text")) in H.
  vm_compute in H. discriminate.
Qed.

(** C9, on the code.  For an id without an entry in the response store,
    [get_current_response] returns [None] and the polling route answers
    202 ['processing'], leaving the service as it is.  An id with a
    non-empty entry is answered 200 with the entry; in particular a session
    whose response is being produced, whose entry is
    [{"text": "", "done": False, "audio": None}], is answered 200 with that
    entry, so the two cases are told apart by the answer. *)
Theorem get_current_response_unknown (svc : Live.service) (session_id : string) :
  Live.session_responses svc !! session_id = None →
  Live.get_current_response session_id svc = None
  ∧ App.get_live_response session_id svc
    = ((202%Z, App.BodyStatus "processing"), svc)
  ∧ (∀ (other : string) (entry : pydict),
       Live.session_responses svc !! other = Some entry →
       entry ≠ ∅ →
       (App.get_live_response other svc).1 = (200%Z, App.BodyJson entry))
  ∧ (∀ other : string,
       Live.session_responses svc !! other = Some Live.fresh_response →
       App.get_live_response other svc
       = ((200%Z, App.BodyJson Live.fresh_response), svc)).
Proof.
  intros Hnone.
  unfold App.get_live_response, Live.get_current_response.
  rewrite Hnone. split; [done|]. split; [done|]. split.
  - intros other entry -> Hne. unfold App.dict_truthy.
    by rewrite bool_decide_eq_false_2.
  - intros other Hother. rewrite Hother. unfold App.dict_truthy.
    rewrite bool_decide_eq_false_2 by apply fresh_response_nonempty.
    simpl. unfold Live.clear_response. by rewrite Hother.
Qed.

(** Polling for an unknown id and for a session just created. *)
Lemma get_current_response_unknown_witness :
  let svc := (Live.create_session (Some "s1") "" Demo.live_empty).2 in
  Live.get_current_response "nobody" svc = None
  ∧ App.get_live_response "nobody" svc
    = ((202%Z, App.BodyStatus "processing"), svc)
  ∧ App.get_live_response "s1" svc
    = ((200%Z, App.BodyJson Live.fresh_response), svc).
Proof.
  intros svc.
  destruct (get_current_response_unknown svc "nobody") as (H1 & H2 & _ & H3).
  { vm_compute. reflexivity. }
  split; [exact H1|]. split; [exact H2|].
  apply H3. vm_compute. reflexivity.
Defined.

(** C9 as stated fails in its last part: a session whose response is being
    produced and an unknown id get different answers. *)
Lemma unknown_session_counterexample :
  let svc := (Live.create_session (Some "s1") "" Demo.live_empty).2 in
  Live.session_responses svc !! "s1" = Some Live.fresh_response
  ∧ (App.get_live_response "s1" svc).1 = (200%Z, App.BodyJson Live.fresh_response)
  ∧ (App.get_live_response "nobody" svc).1 = (202%Z, App.BodyStatus "processing")
  ∧ (App.get_live_response "s1" svc).1 ≠ (App.get_live_response "nobody" svc).1.
Proof. vm_compute. repeat split. discriminate. Qed.

(** * Product records *)

Section Products.
Import Utils.

(** The six keys of a normalized product. *)
Lemma normalize_product_lookup (product : pydict) (query : pyval) (r : Z)
    (k : string) :
  normalize_product product query r !! k
  = if bool_decide (k = "id") then
      Some (py_or (get product "id") (get_or product "productid" (PStr "")))
    else if bool_decide (k = "image_url") then
      Some (get_or product "image_url" (PStr ""))
    else if bool_decide (k = "name") then
      Some (get_or product "name"
              (PStr ("Product " +:+
                     py_str (get_or product "id"
                               (get_or product "productid" (PStr ""))))))
    else if bool_decide (k = "description") then
      Some (get_or product "description"
              (PStr ("This product matches your " +:+
                     (if truthy query then py_str query else "image")
                     +:+ " search")))
    else if bool_decide (k = "price") then
      Some (get_or product "price" (PStr (format_price r)))
    else if bool_decide (k = "aisle") then
      Some (get_or product "aisle" (PStr "Unknown"))
    else None.
Proof.
  unfold normalize_product. rewrite !lookup_insert, lookup_empty.
  repeat case_decide; repeat case_bool_decide; congruence.
Qed.

(** A normalized product has exactly the keys [id], [image_url],
    [name], [description], [price] and [aisle], whatever the product it was
    made from: keys missing from the input are filled in, other keys of the
    input are dropped. *)
Lemma normalize_product_keys (product : pydict) (query : pyval) (r : Z) :
  dom (normalize_product product query r)
  = {["id"; "image_url"; "name"; "description"; "price"; "aisle"]}.
Proof.
  unfold normalize_product. rewrite !dom_insert_L, dom_empty_L. set_solver.
Qed.

(** X1. Normalizing keeps what the product already says: a value present
    under [image_url], [name], [description], [price] or [aisle] is kept, a
    truthy [id] is kept, and when the product has a price the random draw
    plays no part in the result. *)
Theorem normalize_product_keeps (product : pydict) (query : pyval) (r : Z) :
  (∀ k v, k ∈ ["image_url"; "name"; "description"; "price"; "aisle"] →
          product !! k = Some v →
          normalize_product product query r !! k = Some v)
  ∧ (truthy (get product "id") = true →
     normalize_product product query r !! "id" = Some (get product "id"))
  ∧ (is_Some (product !! "price") →
     ∀ r', normalize_product product query r'
           = normalize_product product query r).
Proof.
  split; [|split].
  - intros k v Hk Hv. rewrite normalize_product_lookup.
    unfold get_or. repeat (apply elem_of_cons in Hk as [->|Hk]);
      [..|by apply elem_of_nil in Hk]; simpl; by rewrite Hv.
  - intros Hid. rewrite normalize_product_lookup. simpl.
    unfold py_or. by rewrite Hid.
  - intros [v Hv] r'. apply map_eq. intros k.
    rewrite !normalize_product_lookup.
    assert (Hp : ∀ d, get_or product "price" d = v)
      by (intros d; unfold get_or; by rewrite Hv).
    by rewrite !Hp.
Qed.

Lemma normalize_product_keeps_witness :
  normalize_product (Demo.jacket 7) PNone 1234 !! "name" = Some (PStr "Blue jacket")
  ∧ normalize_product (Demo.jacket 7) PNone 1234 !! "id" = Some (PInt 7)
  ∧ normalize_product (<["price" := PStr "$5.00"]> (Demo.jacket 7)) PNone 999
    = normalize_product (<["price" := PStr "$5.00"]> (Demo.jacket 7)) PNone 1234.
Proof.
  split; [|split].
  - apply (proj1 (normalize_product_keeps (Demo.jacket 7) PNone 1234)).
    + vm_compute. set_solver.
    + vm_compute. reflexivity.
  - replace (PInt 7) with (get (Demo.jacket 7) "id") by (vm_compute; reflexivity).
    apply (proj1 (proj2 (normalize_product_keeps (Demo.jacket 7) PNone 1234))).
    vm_compute. reflexivity.
  - apply (proj2 (proj2 (normalize_product_keeps
                           (<["price" := PStr "$5.00"]> (Demo.jacket 7))
                           PNone 1234))).
    vm_compute. eauto.
Defined.

(** X2. Normalizing twice is normalizing once, whatever the queries and
    the random draws, as long as the first result has an [id] that is
    truthy or the empty string. *)
Theorem normalize_product_idempotent (product : pydict) (query query' : pyval)
    (r r' : Z) :
  let n := normalize_product product query r in
  truthy (get n "id") = true ∨ get n "id" = PStr "" →
  normalize_product n query' r' = n.
Proof.
  intros n Hid. apply map_eq. intros k.
  assert (Hno : n !! "productid" = None)
    by (subst n; by rewrite normalize_product_lookup).
  assert (Hkey : ∀ j d, is_Some (n !! j) → Some (get_or n j d) = n !! j).
  { intros j d [v Hv]. unfold get_or. by rewrite Hv. }
  rewrite (normalize_product_lookup n).
  repeat case_bool_decide; subst;
    try (apply Hkey; subst n; rewrite normalize_product_lookup; simpl; eauto).
  - assert (Hsome : n !! "id" = Some (get n "id")).
    { unfold get. subst n. by rewrite normalize_product_lookup. }
    rewrite Hsome. f_equal. unfold py_or, get_or. rewrite Hno. simpl.
    destruct Hid as [-> | Hid]; [done|]. rewrite Hid. done.
  - subst n. rewrite normalize_product_lookup.
    repeat (rewrite bool_decide_eq_false_2 by done). done.
Qed.

Lemma normalize_product_idempotent_witness :
  normalize_product (normalize_product (Demo.jacket 7) PNone 1234)
    (PStr "shoes") 5678
  = normalize_product (Demo.jacket 7) PNone 1234.
Proof.
  apply (normalize_product_idempotent (Demo.jacket 7) PNone (PStr "shoes")
           1234 5678).
  left. vm_compute. reflexivity.
Defined.

(** Without that condition the [id] can change: a falsy [productid] is
    replaced by the empty string at the second pass. *)
Example normalize_product_twice_falsy_id :
  let product : pydict := <["productid" := PInt 0]> ∅ in
  let n := normalize_product product PNone 1234 in
  n !! "id" = Some (PInt 0)
  ∧ normalize_product n PNone 1234 !! "id" = Some (PStr "").
Proof. vm_compute. split; reflexivity. Qed.

End Products.

(** * Data URLs *)

Section Data_url.

Lemma append_cons (c : ascii) (a b : string) :
  String c a +:+ b = String c (a +:+ b).
Proof. reflexivity. Qed.

Lemma append_nil (b : string) : "" +:+ b = b.
Proof. reflexivity. Qed.

Lemma contains_app (sep : ascii) (a b : string) :
  contains sep (a +:+ b) = contains sep a || contains sep b.
Proof.
  induction a as [|c a IH]; [done|].
  rewrite append_cons. simpl. destruct (Ascii.eqb c sep); [done|exact IH].
Qed.

Lemma split_once_app (sep : ascii) (a b : string) :
  contains sep a = false →
  split_once sep (a +:+ String sep b) = Some (a, b).
Proof.
  induction a as [|c a IH]; intros Ha.
  - rewrite append_nil. simpl. by rewrite Ascii.eqb_refl.
  - rewrite append_cons. simpl in *.
    destruct (Ascii.eqb c sep); [done|]. by rewrite IH.
Qed.

Lemma split_once_none (sep : ascii) (a : string) :
  contains sep a = false → split_once sep a = None.
Proof.
  induction a as [|c a IH]; intros Ha; [done|]. simpl in *.
  destruct (Ascii.eqb c sep); [done|]. by rewrite IH.
Qed.

Lemma split_whole (sep : ascii) (a : string) :
  contains sep a = false → split sep a = [a].
Proof.
  induction a as [|c a IH]; intros Ha; [done|]. simpl in *.
  destruct (Ascii.eqb c sep); [done|]. by rewrite IH.
Qed.

Lemma split_app (sep : ascii) (a b : string) :
  contains sep a = false →
  split sep (a +:+ String sep b) = a :: split sep b.
Proof.
  induction a as [|c a IH]; intros Ha.
  - rewrite append_nil. simpl. by rewrite Ascii.eqb_refl.
  - rewrite append_cons. simpl in *.
    destruct (Ascii.eqb c sep); [done|]. by rewrite IH.
Qed.

(** X3. The data URL [data:<mime>;base64,<payload>] is taken apart into
    the mime type and the payload it was made of, for a mime type without
    comma, colon or semicolon; and a header without a colon or without a
    semicolon gives the mime type [image/jpeg]. *)
Theorem data_url_round_trip (mime payload : string) :
  (contains "," mime = false →
   contains ":" mime = false →
   contains ";" mime = false →
   ∃ header,
     split_once "," ("data:" +:+ mime +:+ ";base64," +:+ payload)
       = Some (header, payload)
     ∧ Live.mime_of header = mime)
  ∧ (∀ header,
       contains ":" header && contains ";" header = false →
       Live.mime_of header = "image/jpeg").
Proof.
  split.
  - intros Hcomma Hcolon Hsemi.
    exists ("data:" +:+ mime +:+ ";base64"). split.
    + replace ("data:" +:+ mime +:+ ";base64," +:+ payload)
        with (("data:" +:+ mime +:+ ";base64") +:+ String "," payload).
      * apply split_once_app. rewrite !contains_app, Hcomma. reflexivity.
      * rewrite !append_assoc. reflexivity.
    + unfold Live.mime_of.
      rewrite !contains_app, Hcolon, Hsemi. simpl.
      rewrite append_nil.
      rewrite split_whole by (rewrite contains_app, Hcolon; reflexivity).
      simpl.
      change (mime +:+ ";base64") with (mime +:+ String ";" "base64").
      rewrite split_app by exact Hsemi. reflexivity.
  - intros header Hnone. unfold Live.mime_of. by rewrite Hnone.
Qed.

Lemma data_url_round_trip_witness :
  (∃ header,
     split_once "," "data:image/png;base64,iVBORw0KGgo=" = Some (header, "iVBORw0KGgo=")
     ∧ Live.mime_of header = "image/png")
  ∧ Live.mime_of "image/png;base64" = "image/jpeg".
Proof.
  split.
  - apply (proj1 (data_url_round_trip "image/png" "iVBORw0KGgo=")); reflexivity.
  - apply (proj2 (data_url_round_trip "image/png" "")). reflexivity.
Defined.

End Data_url.

(** * Video frames *)

Section Video.
Context (w : World).

(** X4. [handle_video_frame] of [GeminiLiveService] never raises.  For an
    unknown session, a data URL without a comma or a payload that does not
    decode, nothing is handed to the loop.  Otherwise exactly one callback
    is handed over, which puts the decoded frame, with the mime type of the
    header, at the end of the message queue of that session and touches
    nothing else. *)
Theorem live_handle_video_frame (session_id frame_data_url : string)
    (svc : Live.service) (cbs : list LiveVideo.callback) :
  (LiveVideo.handle_video_frame w session_id frame_data_url svc cbs).1 = Ok tt
  ∧ (Live.active_sessions svc !! session_id = None
     ∨ contains "," frame_data_url = false
     ∨ (∃ header encoded e,
          split_once "," frame_data_url = Some (header, encoded)
          ∧ b64decode w encoded = Raise e) →
     (LiveVideo.handle_video_frame w session_id frame_data_url svc cbs).2 = cbs)
  ∧ (∀ d header encoded frame_bytes,
       Live.active_sessions svc !! session_id = Some d →
       split_once "," frame_data_url = Some (header, encoded) →
       b64decode w encoded = Ok frame_bytes →
       let part := Live.MPart frame_bytes (Live.mime_of header) in
       let svc' := LiveVideo.run_callback (LiveVideo.PutNowait session_id part) svc in
       (LiveVideo.handle_video_frame w session_id frame_data_url svc cbs).2
         = cbs ++ [LiveVideo.PutNowait session_id part]
       ∧ Live.active_sessions svc' !! session_id
           = Some (Live.set_message_queue (Live.message_queue d ++ [part]) d)
       ∧ (∀ other, other ≠ session_id →
            Live.active_sessions svc' !! other = Live.active_sessions svc !! other)
       ∧ Live.session_responses svc' = Live.session_responses svc).
Proof.
  unfold LiveVideo.handle_video_frame.
  split; [|split].
  - destruct (Live.active_sessions svc !! session_id); [|done]. run.
    destruct (split_once "," frame_data_url) as [[header encoded]|]; [|done].
    by destruct (b64decode w encoded).
  - intros [-> | [Hcomma | (header & encoded & e & -> & Hdec)]]; [done|..].
    + destruct (Live.active_sessions svc !! session_id); [|done]. run.
      by rewrite (split_once_none _ _ Hcomma).
    + destruct (Live.active_sessions svc !! session_id); [|done]. run.
      by rewrite Hdec.
  - intros d header encoded frame_bytes Hd Hsplit Hdec.
    rewrite Hd, Hsplit. run. rewrite Hdec. simpl.
    split; [done|].
    split; [by rewrite lookup_alter_eq, Hd|].
    split; [|done]. intros other Hne. by rewrite lookup_alter_ne.
Qed.

End Video.

Lemma live_handle_video_frame_witness :
  let svc := (Live.create_session (Some "s1") "" Demo.live_empty).2 in
  (LiveVideo.handle_video_frame Demo.world "s1" "no comma here" svc []).2 = []
  ∧ (LiveVideo.handle_video_frame Demo.world "s1" "data:image/png;base64,AA" svc []).2
    = [LiveVideo.PutNowait "s1"
         (Live.MPart (list_byte_of_string "AA") "image/png")].
Proof.
  intros svc.
  destruct (live_handle_video_frame Demo.world "s1" "no comma here" svc [])
    as (_ & Hnone & _).
  destruct (live_handle_video_frame Demo.world "s1" "data:image/png;base64,AA"
              svc []) as (_ & _ & Hsome).
  split.
  - apply Hnone. right. left. reflexivity.
  - destruct (Hsome (Live.set_task true Live.new_session_data)
                "data:image/png;base64" "AA" (list_byte_of_string "AA"))
      as (Hcbs & _).
    + vm_compute. reflexivity.
    + reflexivity.
    + reflexivity.
    + exact Hcbs.
Defined.

Section Video2.

(** X5. [handle_video_frame] of [GeminiLive2Service] never forwards a
    frame: whatever the session, the data URL, the loop and the state of the
    Gemini connection, nothing is submitted to the loop and the service is
    left as it is; the answer is [{"status": "video frame sent"}] for every
    active session and [{"error": "Invalid session"}] otherwise. *)
Theorem live2_handle_video_frame (gemini_session : bool)
    (session_id frame_data_url : string) (st : Live2Video.video_state) :
  (Live2Video.handle_video_frame gemini_session session_id frame_data_url st).2
    = st
  ∧ (Live2Video.handle_video_frame gemini_session session_id frame_data_url st).1
    = Ok (match Live2.sessions (Live2Video.vs_service st) !! session_id with
          | Some s => if Live2.active s
                      then ReplyStatus "video frame sent"
                      else ReplyError "Invalid session"
          | None => ReplyError "Invalid session"
          end).
Proof.
  unfold Live2Video.handle_video_frame. run.
  destruct (Live2.sessions (Live2Video.vs_service st) !! session_id) as [s|];
    [|done].
  destruct (Live2.active s); [|done]. simpl.
  destruct gemini_session; [|done].
  destruct (Live2.loop (Live2Video.vs_service st)); [|done].
  by destruct (split_once "," frame_data_url) as [[header encoded]|].
Qed.

End Video2.

(** * Routes *)

Section Routes_facts.

(** X6. [POST /api/live/end] never answers with success: without a
    session id it answers 400 and changes nothing; with one it answers 404
    ['Failed to end session'], for an unknown session and also for a
    session that was in the registry and has just been removed from it. *)
Theorem end_live_session_never_succeeds (session_id : option string)
    (wait : result unit) (svc : Live.service) :
  let answer := Routes.end_live_session session_id wait svc in
  answer.1.1 ≠ 200%Z
  ∧ (str_truthy session_id = false →
     answer = ((400%Z, ReplyError "No session_id provided"), svc))
  ∧ (∀ sid, session_id = Some sid → sid ≠ "" →
       answer.1 = (404%Z, ReplyError "Failed to end session")
       ∧ Live.active_sessions answer.2 !! sid = None
       ∧ Live.session_responses answer.2
         = (if bool_decide (is_Some (Live.active_sessions svc !! sid))
            then delete sid (Live.session_responses svc)
            else Live.session_responses svc)).
Proof.
  intros answer. subst answer. unfold Routes.end_live_session.
  destruct session_id as [sid|]; simpl; [|by repeat split].
  unfold nonempty.
  destruct (String.eqb_spec sid "") as [->|Hne]; simpl.
  { split; [done|]. split; [done|]. by intros sid' [= <-] Hne. }
  destruct (Live.active_sessions svc !! sid) as [d|] eqn:Hd.
  - rewrite (live_end_session_known wait sid svc) by eauto. simpl.
    split; [done|]. split; [done|].
    intros sid' [= <-] _. split; [done|]. split; [apply lookup_delete_eq|].
    rewrite bool_decide_eq_true_2; eauto.
  - rewrite (live_end_session_unknown wait sid svc Hd). simpl.
    split; [done|]. split; [done|].
    intros sid' [= <-] _. split; [done|]. split; [done|].
    rewrite bool_decide_eq_false_2; [done|]. rewrite Hd. by intros [? ?].
Qed.

Lemma end_live_session_never_succeeds_witness :
  let svc := (Live.create_session (Some "s1") "" Demo.live_empty).2 in
  (Routes.end_live_session (Some "s1") (Ok tt) svc).1
  = (404%Z, ReplyError "Failed to end session")
  ∧ Live.active_sessions (Routes.end_live_session (Some "s1") (Ok tt) svc).2 !! "s1"
    = None
  ∧ Routes.end_live_session None (Ok tt) svc
    = ((400%Z, ReplyError "No session_id provided"), svc).
Proof.
  intros svc.
  destruct (end_live_session_never_succeeds (Some "s1") (Ok tt) svc)
    as (_ & _ & Hsome).
  destruct (end_live_session_never_succeeds None (Ok tt) svc)
    as (_ & Hnone & _).
  destruct (Hsome "s1") as (H1 & H2 & _); [reflexivity|discriminate|].
  split; [exact H1|]. split; [exact H2|]. apply Hnone. reflexivity.
Defined.

(** X7. [POST /api/live2/message] answers 400 and leaves the service as
    it is when the session id or the audio is missing or empty, and when the
    audio is not valid base64; otherwise it answers 200 with what
    [handle_audio_chunk] returns for the decoded bytes, which for an unknown
    or ended session is the error ['Invalid session'], the service being
    unchanged. *)
Theorem send_live2_message_answers (w : World) (session_id audio : option string)
    (svc : Live2.service) :
  (str_truthy session_id = false ∨ str_truthy audio = false →
   Routes.send_live2_message w session_id audio svc
   = ((400%Z, ReplyError "session_id and audio are required"), svc))
  ∧ (∀ sid a,
       session_id = Some sid → audio = Some a → sid ≠ "" → a ≠ "" →
       (∀ e, b64decode w a = Raise e →
          Routes.send_live2_message w session_id audio svc
          = ((400%Z, ReplyError ("Invalid audio encoding: " +:+ e)), svc))
       ∧ (∀ pcm_bytes, b64decode w a = Ok pcm_bytes →
            Routes.send_live2_message w session_id audio svc
            = ((200%Z, (Live2.handle_audio_chunk sid pcm_bytes svc).1),
               (Live2.handle_audio_chunk sid pcm_bytes svc).2)
            ∧ ((Live2.sessions svc !! sid = None
                ∨ ∃ s, Live2.sessions svc !! sid = Some s
                       ∧ Live2.active s = false) →
               Routes.send_live2_message w session_id audio svc
               = ((200%Z, ReplyError "Invalid session"), svc)))).
Proof.
  unfold Routes.send_live2_message. split.
  - intros [-> | ->]; [done|]. by rewrite orb_true_r.
  - intros sid a -> -> Hsid Ha. simpl. unfold nonempty.
    destruct (String.eqb_spec sid ""); [done|].
    destruct (String.eqb_spec a ""); [done|]. simpl.
    split.
    + intros e ->. done.
    + intros pcm_bytes ->.
      destruct (Live2.handle_audio_chunk sid pcm_bytes svc) as [r svc'] eqn:Hcall.
      split; [done|]. intros Hinvalid.
      rewrite (handle_audio_chunk_invalid svc sid pcm_bytes Hinvalid) in Hcall.
      by injection Hcall as <- <-.
Qed.

Lemma send_live2_message_answers_witness :
  let svc := (Live2.create_session "s1" Demo.live2_empty).2 in
  Routes.send_live2_message Demo.world (Some "s1") None svc
  = ((400%Z, ReplyError "session_id and audio are required"), svc)
  ∧ Routes.send_live2_message Demo.world (Some "s2") (Some "AA") svc
    = ((200%Z, ReplyError "Invalid session"), svc).
Proof.
  intros svc. split.
  - apply (proj1 (send_live2_message_answers Demo.world (Some "s1") None svc)).
    right. reflexivity.
  - destruct (proj2 (send_live2_message_answers Demo.world (Some "s2")
                       (Some "AA") svc) "s2" "AA") as (_ & Hok);
      [reflexivity|reflexivity|discriminate|discriminate|].
    destruct (Hok (list_byte_of_string "AA")) as (_ & Hinvalid); [reflexivity|].
    apply Hinvalid. left. vm_compute. reflexivity.
Defined.

End Routes_facts.

(** * The history given to the multimodal model *)

Section History.
Import Multimodal.

Lemma format_history_app (h1 h2 : list pydict) :
  format_history (h1 ++ h2) = format_history h1 ++ format_history h2.
Proof.
  induction h1 as [|m h1 IH]; [done|]. simpl.
  repeat case_bool_decide; simpl; by rewrite IH.
Qed.

Lemma format_history_roles (history : list pydict) :
  Forall (λ e, e_role e = "user" ∨ e_role e = "model") (format_history history).
Proof.
  induction history as [|m h IH]; simpl; [constructor|].
  repeat case_bool_decide; auto.
Qed.

(** X8. [_format_history] keeps, in order, the messages whose role is
    ["user"] or ["assistant"], the latter renamed ["model"], with their
    content, and drops every other message; so it distributes over the
    concatenation of histories and never returns more entries than it was
    given. *)
Theorem format_history_filters (h1 h2 : list pydict) :
  format_history (h1 ++ h2) = format_history h1 ++ format_history h2
  ∧ Forall (λ e, e_role e = "user" ∨ e_role e = "model") (format_history h1)
  ∧ (length (format_history h1) ≤ length h1)%nat
  ∧ (∀ m, format_history [m]
          = if bool_decide (get_or m "role" (PStr "") = PStr "user")
            then [{| e_role := "user"; e_text := get_or m "content" (PStr "") |}]
            else if bool_decide (get_or m "role" (PStr "") = PStr "assistant")
            then [{| e_role := "model"; e_text := get_or m "content" (PStr "") |}]
            else []).
Proof.
  split; [apply format_history_app|]. split; [apply format_history_roles|].
  split.
  - induction h1 as [|m h IH]; simpl; [lia|].
    repeat case_bool_decide; simpl; lia.
  - intros m. simpl. by repeat case_bool_decide.
Qed.

(** X9. The chat of [generate_content] never starts from an empty
    history: when no history is given, or none of its messages has the role
    ["user"] or ["assistant"], it starts from the system instructions
    followed by a canned answer of the model; otherwise it starts from the
    formatted history, and the system instructions are not part of it. *)
Theorem chat_history_nonempty (system_instructions : string)
    (history : option (list pydict)) :
  chat_history system_instructions history ≠ []
  ∧ (format_history (default [] history) = [] →
     chat_history system_instructions history
     = [{| e_role := "user"; e_text := PStr system_instructions |};
        {| e_role := "model";
           e_text := PStr "I'll help you find products and answer your questions." |}])
  ∧ (format_history (default [] history) ≠ [] →
     chat_history system_instructions history
     = format_history (default [] history)).
Proof.
  unfold chat_history.
  destruct history as [[|m h]|]; simpl; try by repeat split.
  destruct (format_history (m :: h)) as [|e es] eqn:Hf; simpl in Hf |- *;
    rewrite Hf; by repeat split.
Qed.

Lemma chat_history_nonempty_witness :
  chat_history "Be brief." (Some [<["role" := PStr "system"]> ∅])
  = [{| e_role := "user"; e_text := PStr "Be brief." |};
     {| e_role := "model";
        e_text := PStr "I'll help you find products and answer your questions." |}]
  ∧ chat_history "Be brief."
      (Some [<["role" := PStr "assistant"]> (<["content" := PStr "Hi"]> ∅)])
    = [{| e_role := "model"; e_text := PStr "Hi" |}].
Proof.
  split.
  - apply (proj1 (proj2 (chat_history_nonempty "Be brief."
                           (Some [<["role" := PStr "system"]> ∅])))).
    vm_compute. reflexivity.
  - etransitivity.
    + apply (proj2 (proj2 (chat_history_nonempty "Be brief."
               (Some [<["role" := PStr "assistant"]>
                        (<["content" := PStr "Hi"]> ∅)])))).
      vm_compute. discriminate.
    + vm_compute. reflexivity.
Defined.

End History.

(** * The life of a [GeminiLive2Service] session *)

Section Live2_life.
Import Live2.

(** X10. Once [end_session] was called for a session, [handle_audio_chunk]
    rejects its chunks: the answer is [{"error": "Invalid session"}],
    nothing is put on the loop and the recorded audio stays what it was;
    the other sessions go on accepting chunks. *)
Theorem ended_session_rejects_audio (svc : service) (session_id : string)
    (s : session) (pcm_bytes : list byte) :
  sessions svc !! session_id = Some s →
  let ended := (end_session session_id svc).2 in
  handle_audio_chunk session_id pcm_bytes ended
    = (ReplyError "Invalid session", ended)
  ∧ (∃ s', sessions ended !! session_id = Some s' ∧ audio s' = audio s)
  ∧ loop ended = loop svc
  ∧ (∀ other t, other ≠ session_id →
       sessions svc !! other = Some t → active t = true →
       (handle_audio_chunk other pcm_bytes ended).1
       = ReplyStatus "audio chunk received").
Proof.
  intros Hs ended. subst ended.
  rewrite (end_session_known svc session_id s Hs). simpl.
  split; [|split; [|split]].
  - apply handle_audio_chunk_invalid. right. exists (deactivate s).
    simpl. by rewrite lookup_insert_eq.
  - exists (deactivate s). by rewrite lookup_insert_eq.
  - done.
  - intros other t Hne Ht Hactive.
    destruct (handle_audio_chunk_active
                (with_sessions svc (<[session_id:=deactivate s]> (sessions svc)))
                other pcm_bytes t) as (svc' & -> & _); [|done..].
    simpl. by rewrite lookup_insert_ne.
Qed.

Lemma ended_session_rejects_audio_witness :
  let svc := (create_session "s1" Demo.live2_empty).2 in
  let ended := (end_session "s1" svc).2 in
  handle_audio_chunk "s1" Demo.pcm ended = (ReplyError "Invalid session", ended).
Proof.
  intros svc ended.
  apply (ended_session_rejects_audio svc "s1"
           {| audio := []; active := true; out_queue := Some [];
              socketio := false; client_sid := None; stream_task := false |}
           Demo.pcm).
  vm_compute. reflexivity.
Defined.

(** X11. [get_status] never reports more active sessions than entries, and
    every active id is an entry.  Creating a session under a new id adds one
    entry and makes the id active; ending a session keeps the number of
    entries and makes the id inactive; [_reset] leaves no entry. *)
Theorem get_status_counts (svc : service) :
  (get_status svc).1 ⊆ dom (sessions svc)
  ∧ (size (get_status svc).1 ≤ (get_status svc).2)%nat
  ∧ (∀ uuid, sessions svc !! uuid = None →
       (get_status (create_session uuid svc).2).2 = S (get_status svc).2
       ∧ (get_status (create_session uuid svc).2).1
         = {[uuid]} ∪ (get_status svc).1)
  ∧ (∀ session_id s, sessions svc !! session_id = Some s →
       (get_status (end_session session_id svc).2).2 = (get_status svc).2
       ∧ (get_status (end_session session_id svc).2).1
         = (get_status svc).1 ∖ {[session_id]})
  ∧ get_status (Live2Video.reset svc) = (∅, 0%nat).
Proof.
  unfold get_status. simpl.
  split; [apply dom_filter_subseteq|].
  split.
  { rewrite <- (size_dom (sessions svc)).
    apply subseteq_size, dom_filter_subseteq. }
  split; [|split].
  - intros uuid Hnew. split.
    + by apply map_size_insert_None.
    + rewrite map_filter_insert_True by done. by rewrite dom_insert_L.
  - intros session_id s Hs. rewrite (end_session_known svc session_id s Hs).
    simpl. split.
    + apply map_size_insert_Some. eauto.
    + rewrite map_filter_insert_False by done.
      by rewrite map_filter_delete, dom_delete_L.
  - by rewrite map_filter_empty, dom_empty_L, map_size_empty.
Qed.

Lemma get_status_counts_witness :
  let svc := (create_session "s1" Demo.live2_empty).2 in
  (get_status (create_session "s2" svc).2).2 = S (get_status svc).2
  ∧ (get_status (end_session "s1" svc).2).2 = (get_status svc).2.
Proof.
  intros svc.
  destruct (get_status_counts svc) as (_ & _ & Hcreate & Hend & _).
  split.
  - apply Hcreate. vm_compute. reflexivity.
  - apply (Hend "s1" {| audio := []; active := true; out_queue := Some [];
                        socketio := false; client_sid := None;
                        stream_task := false |}).
    vm_compute. reflexivity.
Defined.

End Live2_life.

(** * What reading the stream can change *)

Section Extends.
Context (w : World) (session_id : string).
Import Live.

Lemma same_session_refl (d : session_data) : same_session d d.
Proof. by repeat split. Qed.

Lemma extends_refl (st : task_state) : extends st st.
Proof.
  split; [done|]. split; [apply same_session_refl|].
  split; [exists []; by rewrite app_nil_r|].
  split; [exists []; by rewrite app_nil_r|].
  exists []; by rewrite app_nil_r.
Qed.

Lemma inputs_of_app (ms ns : list sent_msg) :
  inputs_of (ms ++ ns) = inputs_of ms ++ inputs_of ns.
Proof. apply omap_app. Qed.

Lemma extends_trans (st1 st2 st3 : task_state) :
  extends st1 st2 → extends st2 st3 → extends st1 st3.
Proof.
  intros (Hr & Hs & [es He] & (fs & Hf & Hfi) & [cs Hc])
         (Hr' & Hs' & [es' He'] & (fs' & Hf' & Hfi') & [cs' Hc']).
  split; [congruence|]. split.
  { unfold same_session in *. intuition congruence. }
  split; [exists (es ++ es'); by rewrite He', He, app_assoc|].
  split.
  { exists (fs ++ fs'). split; [by rewrite Hf', Hf, app_assoc|].
    by rewrite inputs_of_app, Hfi, Hfi'. }
  exists (cs ++ cs'). by rewrite Hc', Hc, app_assoc.
Qed.

(** Building blocks: each primitive step extends the state. *)
Lemma extends_emit (room : string) (e : event) (st : task_state) :
  extends st (push_emitted (room, e) st).
Proof.
  split; [done|]. split; [apply same_session_refl|].
  split; [by eexists|].
  split; [exists []; by rewrite app_nil_r|].
  exists []; by rewrite app_nil_r.
Qed.

Lemma extends_flags (f : session_data → session_data) (st : task_state) :
  same_session (sd st) (f (sd st)) → extends st (with_sd f st).
Proof.
  intros Hf. split; [done|]. split; [exact Hf|].
  split; [exists []; by rewrite app_nil_r|].
  split; [exists []; by rewrite app_nil_r|].
  exists []; by rewrite app_nil_r.
Qed.

Lemma extends_call (c : string * pydict) (st : task_state) :
  extends st (push_call c st).
Proof.
  split; [done|]. split; [apply same_session_refl|].
  split; [exists []; by rewrite app_nil_r|].
  split; [exists []; by rewrite app_nil_r|].
  by eexists.
Qed.

Lemma extends_function_response (id name : string) (tr : tool_result)
    (b : bool) (st : task_state) :
  extends st (push_sent (SendFunctionResponse id name tr b) st).
Proof.
  split; [done|]. split; [apply same_session_refl|].
  split; [exists []; by rewrite app_nil_r|].
  split; [by eexists|].
  exists []; by rewrite app_nil_r.
Qed.

Lemma extends_last (r : response) (st : task_state) :
  extends st (set_last_response r st).
Proof.
  split; [done|]. split; [apply same_session_refl|].
  split; [exists []; by rewrite app_nil_r|].
  split; [exists []; by rewrite app_nil_r|].
  exists []; by rewrite app_nil_r.
Qed.

Lemma normalize_all_extends (results : list pydict) (st : task_state) :
  extends st (normalize_all w results st).2
  ∧ ∃ enriched, (normalize_all w results st).1 = Ok enriched.
Proof.
  destruct (normalize_all_ok w results st)
    as (enriched & st' & -> & _ & Hsd & Hresp & Hem & Hsent & Hcalls & _).
  simpl. split; [|eauto].
  split; [done|]. split; [rewrite Hsd; apply same_session_refl|].
  split; [exists []; by rewrite app_nil_r|].
  split; [exists []; by rewrite app_nil_r|].
  exists []; by rewrite app_nil_r.
Qed.

Lemma extends_function_result_sent (b : bool) (st : task_state) :
  extends st (with_sd (set_function_result_sent b) st).
Proof. apply extends_flags. unfold same_session. by repeat split. Qed.

Lemma extends_response_complete_sent (b : bool) (st : task_state) :
  extends st (with_sd (set_response_complete_sent b) st).
Proof. apply extends_flags. unfold same_session. by repeat split. Qed.

(** The tool-call branch, whatever the frame says and whatever the search
    answers. *)
Lemma on_tool_call_extends (function_calls : list function_call)
    (st : task_state) :
  extends st (on_tool_call w session_id function_calls st).2.
Proof.
  unfold on_tool_call. destruct function_calls as [|c rest]; [apply extends_refl|].
  run.
  destruct (execute_function_returns w (fc_name c) (fc_args c)
              (push_call (fc_name c, fc_args c) st)) as [tr ->].
  simpl.
  assert (H0 : extends st (push_call (fc_name c, fc_args c) st))
    by apply extends_call.
  destruct (String.eqb (fc_name c) "search_products"); simpl.
  2: { eapply extends_trans; [exact H0|apply extends_function_response]. }
  destruct (results_of tr) as [results|]; simpl.
  2: { eapply extends_trans; [exact H0|apply extends_function_response]. }
  set (st0 := push_call (fc_name c, fc_args c) st) in *.
  destruct (has_target (sd st)) eqn:Htarget; simpl.
  - destruct (normalize_all_extends results st0) as [Hn [enriched Hok]].
    destruct (normalize_all w results st0) as [res st1]. simpl in Hn, Hok.
    subst res. simpl.
    assert (H1 : extends st (with_sd (set_function_result_sent true)
                               (push_emitted
                                  (room_of (sd st),
                                   function_result session_id (fc_name c) enriched)
                                  st1))).
    { eapply extends_trans; [exact H0|].
      eapply extends_trans; [exact Hn|].
      eapply extends_trans; [apply extends_emit|].
      apply extends_function_result_sent. }
    destruct (response_complete_sent (sd st)); simpl.
    + eapply extends_trans; [exact H1|apply extends_function_response].
    + eapply extends_trans; [exact H1|].
      eapply extends_trans; [apply extends_emit|].
      eapply extends_trans; [apply extends_response_complete_sent|].
      apply extends_function_response.
  - assert (H1 : extends st (with_sd (set_function_result_sent true) st0)).
    { eapply extends_trans; [exact H0|]. apply extends_function_result_sent. }
    destruct (response_complete_sent (sd st)); simpl.
    + eapply extends_trans; [exact H1|apply extends_function_response].
    + exact H1.
Qed.

Lemma on_end_of_turn_extends (acc : string) (st : task_state) :
  extends st (on_end_of_turn session_id acc st).2
  ∧ (on_end_of_turn session_id acc st).1 = Ok tt.
Proof.
  unfold on_end_of_turn. run.
  destruct (negb (nonempty (strip acc)) && function_result_sent (sd st));
    simpl; destruct (has_target (sd st)); simpl; split; try done;
    try apply extends_refl; try apply extends_emit.
  - eapply extends_trans; [apply extends_function_result_sent|].
    apply extends_emit.
  - apply extends_function_result_sent.
Qed.

Lemma receive_step_extends (r : response) (acc : string) (st : task_state) :
  extends st (receive_step w session_id r acc st).2.
Proof.
  unfold receive_step. run.
  assert (H0 : extends st (set_last_response r st)) by apply extends_last.
  assert (H1 : ∀ t, extends st (push_emitted
                                  (room_of (sd st), response_chunk session_id t)
                                  (set_last_response r st)))
    by (intros t; eapply extends_trans; [exact H0|apply extends_emit]).
  destruct (text_of r) as [t|]; simpl;
    [destruct (has_target (sd st)); simpl; [specialize (H1 t)|]|];
    (destruct (r_tool_call r) as [function_calls|]; simpl;
     [ match goal with
       | |- context [on_tool_call w session_id function_calls ?s] =>
           pose proof (on_tool_call_extends function_calls s) as H2;
           destruct (on_tool_call w session_id function_calls s) as [[[]|e] st2];
           simpl in *; (eapply extends_trans; [|exact H2]); assumption
       end
     | destruct (r_end_of_turn r); simpl; [|assumption];
       match goal with
       | |- context [on_end_of_turn session_id ?a ?s] =>
           destruct (on_end_of_turn_extends a s) as [H2 Hok];
           destruct (on_end_of_turn session_id a s) as [res st2]; simpl in *;
           subst res; simpl; (eapply extends_trans; [|exact H2]); assumption
       end ]).
Qed.

Lemma receive_loop_extends (frames : list response) :
  ∀ (acc : string) (st : task_state),
    extends st (receive_loop w session_id frames acc st).2.
Proof.
  induction frames as [|r rest IH]; intros acc st; simpl; [apply extends_refl|].
  unfold mbind, M_bind, bind at 1.
  pose proof (receive_step_extends r acc st) as H1.
  destruct (receive_step w session_id r acc st) as [[[acc1 stop]|e] st1];
    simpl in *; [|done].
  destruct stop; simpl; [done|].
  eapply extends_trans; [exact H1|apply IH].
Qed.

End Extends.

Section After.
Context (w : World) (session_id : string).
Import Live.

Lemma stream_tts_audio_appends (tts : bool) (text room : string)
    (st : task_state) :
  ∃ st' es,
    stream_tts_audio w tts text room st = (Ok tt, st')
    ∧ sd st' = sd st ∧ responses st' = responses st
    ∧ sent st' = sent st ∧ calls st' = calls st
    ∧ last_response st' = last_response st
    ∧ emitted st' = emitted st ++ es.
Proof.
  unfold stream_tts_audio.
  destruct (negb tts || negb (nonempty text)).
  { exists st, []. rewrite app_nil_r. by repeat split. }
  run. destruct (synthesize_speech w text) as [audio_bytes|e].
  - rewrite (for_each_emit room (λ c, receive_audio_chunk (b64encode w c))).
    unfold emit, modify, push_emitted. simpl.
    eexists _, _. split; [reflexivity|]. simpl. repeat split.
    by rewrite <- app_assoc.
  - exists st, []. rewrite app_nil_r. by repeat split.
Qed.

(** What follows the loop: the entry of the session in the response store
    is marked done, nothing is sent, the flag is cleared and one [True]
    joins the response queue, also when the last statement raises. *)
Lemma after_receive_effects (tts : bool) (acc : string) (st : task_state)
    (entry : pydict) :
  responses st !! session_id = Some entry →
  let st' := (after_receive w tts session_id acc st).2 in
  responses st' = <[session_id := <["done" := PBool true]> entry]> (responses st)
  ∧ sent st' = sent st
  ∧ calls st' = calls st
  ∧ sd st' = set_response_queue (response_queue (sd st) ++ [true])
               (set_response_complete_sent false (sd st))
  ∧ (∃ es, emitted st' = emitted st ++ es)
  ∧ (target_truthy (sd st) = false → emitted st' = emitted st)
  ∧ (after_receive w tts session_id acc st).1
    = (if bool_decide (is_Some (last_response st)) then Ok tt
       else Raise "cannot access local variable 'response'").
Proof.
  intros Hentry. unfold after_receive. run.
  destruct (target_truthy (sd st) && negb (response_complete_sent (sd st)))
    eqn:Hcond; simpl.
  - match goal with
    | |- context [stream_tts_audio w tts acc ?room ?s] =>
        destruct (stream_tts_audio_appends tts acc room s)
          as (st1 & es & -> & Hsd & Hresp & Hsent & Hcalls & Hlr & Hem)
    end.
    simpl in *. rewrite Hresp, Hentry. simpl. rewrite Hlr.
    destruct (last_response st) as [r|]; simpl;
      rewrite Hsd, Hresp, Hsent, Hcalls, Hem; simpl;
      (do 4 (split; [done|]));
      (split; [eexists (_ :: _); by rewrite <- app_assoc|]);
      (split; [|done]);
      intros Ht; by rewrite Ht in Hcond.
  - rewrite Hentry. simpl.
    destruct (last_response st) as [r|]; simpl;
      (do 4 (split; [done|]));
      (split; [exists []; by rewrite app_nil_r|]); by split.
Qed.

End After.

(** * One iteration of the task *)

Section Iteration.
Context (w : World) (tts : bool) (session_id : string).
Import Live.

(** The three ways an iteration goes for a message that is not the
    termination signal: the message of the pair is [None]; the frame cannot
    be used; the input is sent and the stream is read. *)
Lemma handle_message_cases (m : message) (frames : list response)
    (st : task_state) :
  m ≠ MNone →
  let st0 := with_responses (insert session_id fresh_response) st in
  ((unpack m).1 = None
   ∧ handle_message w tts session_id m frames st = (Ok Break, st0))
  ∨ (∃ message url,
       unpack m = (Some message, Some url) ∧ nonempty url = true
       ∧ (split_once "," url = None
          ∨ ∃ header encoded e, split_once "," url = Some (header, encoded)
                                ∧ b64decode w encoded = Raise e)
       ∧ handle_message w tts session_id m frames st
         = (Ok Next,
            if target_truthy (sd st)
            then push_emitted
                   (room_of (sd st),
                    response_complete None "[Error: Could not process image frame]")
                   st0
            else st0))
  ∨ (∃ message parts,
       (unpack m).1 = Some message
       ∧ ((str_truthy (unpack m).2 = false ∧ parts = [message])
          ∨ (∃ url header encoded frame_bytes,
               (unpack m).2 = Some url ∧ nonempty url = true
               ∧ split_once "," url = Some (header, encoded)
               ∧ b64decode w encoded = Ok frame_bytes
               ∧ parts = [message; CPart frame_bytes (mime_of header)]))
       ∧ handle_message w tts session_id m frames st
         = read_and_finish w tts session_id frames
             (push_sent (SendInput parts true) st0)).
Proof.
  intros Hm st0.
  destruct (unpack m) as [[message|] frame] eqn:Hunpack.
  2: { left. split; [done|].
       destruct m as [|t|[t|] f|d mt]; simpl in Hunpack; try done. }
  right.
  destruct (str_truthy frame) eqn:Hframe.
  - destruct frame as [url|]; [|done]. simpl in Hframe.
    assert (Hshape :
      handle_message w tts session_id m frames st
      = match split_once "," url with
        | None =>
            (Ok Next,
             if target_truthy (sd st)
             then push_emitted
                    (room_of (sd st),
                     response_complete None "[Error: Could not process image frame]")
                    st0
             else st0)
        | Some (header, encoded) =>
            match b64decode w encoded with
            | Raise _ =>
                (Ok Next,
                 if target_truthy (sd st)
                 then push_emitted
                        (room_of (sd st),
                         response_complete None
                           "[Error: Could not process image frame]")
                        st0
                 else st0)
            | Ok frame_bytes =>
                match receive_loop w session_id frames ""
                        (push_sent
                           (SendInput [message; CPart frame_bytes (mime_of header)]
                              true) st0) with
                | (Ok acc, st1) =>
                    match after_receive w tts session_id acc st1 with
                    | (Ok _, st2) => (Ok Next, st2)
                    | (Raise e, st2) => (Raise e, st2)
                    end
                | (Raise e, st1) => (Raise e, st1)
                end
            end
        end).
    { destruct m as [|t|[t|] f|d mt]; simpl in Hunpack; try done;
        injection Hunpack as <- ->;
        unfold handle_message; run; simpl; rewrite Hframe; simpl;
        (destruct (split_once "," url) as [[header encoded]|];
         [destruct (b64decode w encoded) as [frame_bytes|e]|]; simpl;
         try (by destruct (target_truthy (sd st)));
         unfold send, modify; simpl;
         (destruct (receive_loop _ _ _ _ _) as [[acc|e] st1]; [|done]);
         by destruct (after_receive _ _ _ _ _) as [[[]|e] st2]). }
    destruct (split_once "," url) as [[header encoded]|] eqn:Hsplit.
    + destruct (b64decode w encoded) as [frame_bytes|e] eqn:Hdec.
      * right. exists message, [message; CPart frame_bytes (mime_of header)].
        split; [done|]. split; [|exact Hshape].
        right. exists url, header, encoded, frame_bytes. by repeat split.
      * left. exists message, url. split; [done|]. split; [done|].
        split; [|exact Hshape]. right. eauto.
    + left. exists message, url. split; [done|]. split; [done|].
      split; [by left|exact Hshape].
  - right. exists message, [message]. split; [done|].
    split; [by left|].
    by apply (handle_message_text w session_id tts m message frame).
Qed.

End Iteration.

Section Silent.
Context (w : World) (session_id : string).
Import Live.

Lemma same_session_target (d d' : session_data) :
  same_session d d' →
  has_target d' = has_target d ∧ target_truthy d' = target_truthy d.
Proof.
  intros (_ & _ & _ & _ & _ & Hs & Hc).
  unfold has_target, target_truthy. by rewrite Hs, Hc.
Qed.

Lemma no_target_not_truthy (d : session_data) :
  has_target d = false → target_truthy d = false.
Proof.
  unfold has_target, target_truthy.
  destruct (socketio d); [|done]. destruct (client_sid d); [|done]. simpl.
  by intros H.
Qed.

(** Without a client attached, the tool-call branch emits nothing. *)
Lemma on_tool_call_silent (function_calls : list function_call)
    (st : task_state) :
  has_target (sd st) = false →
  emitted (on_tool_call w session_id function_calls st).2 = emitted st.
Proof.
  intros Htarget. unfold on_tool_call.
  destruct function_calls as [|c rest]; [done|]. run.
  destruct (execute_function_returns w (fc_name c) (fc_args c)
              (push_call (fc_name c, fc_args c) st)) as [tr ->].
  simpl.
  destruct (String.eqb (fc_name c) "search_products"); simpl; [|done].
  destruct (results_of tr) as [results|]; simpl; [|done].
  rewrite Htarget. simpl.
  by destruct (response_complete_sent (sd st)).
Qed.

Lemma receive_step_silent (r : response) (acc : string) (st : task_state) :
  has_target (sd st) = false →
  emitted (receive_step w session_id r acc st).2 = emitted st.
Proof.
  intros Htarget. unfold receive_step, on_end_of_turn. run.
  destruct (text_of r) as [t|]; simpl; rewrite ?Htarget; simpl;
    (destruct (r_tool_call r) as [function_calls|]; simpl;
     [ match goal with
       | |- context [on_tool_call w session_id function_calls ?s] =>
           pose proof (on_tool_call_silent function_calls s Htarget) as H2;
           destruct (on_tool_call w session_id function_calls s) as [[[]|e] st2];
           simpl in *; exact H2
       end
     | destruct (r_end_of_turn r); simpl; [|done];
       match goal with
       | |- context [negb (nonempty (strip ?a)) && _] =>
           destruct (negb (nonempty (strip a)) && function_result_sent (sd st))
       end; simpl; rewrite ?Htarget; simpl; done ]).
Qed.

Lemma receive_loop_silent (frames : list response) :
  ∀ (acc : string) (st : task_state),
    has_target (sd st) = false →
    emitted (receive_loop w session_id frames acc st).2 = emitted st.
Proof.
  induction frames as [|r rest IH]; intros acc st Htarget; simpl; [done|].
  unfold mbind, M_bind, bind at 1.
  pose proof (receive_step_silent r acc st Htarget) as H1.
  pose proof (receive_step_extends w session_id r acc st) as (_ & Hs & _).
  apply same_session_target in Hs as [Hs _].
  destruct (receive_step w session_id r acc st) as [[[acc1 stop]|e] st1];
    simpl in *; [|done].
  destruct stop; simpl; [done|].
  rewrite IH by congruence. done.
Qed.

End Silent.

Section Finish.
Context (w : World) (tts : bool) (session_id : string).
Import Live.

(** What the rest of an iteration does to a state in which the input was
    just sent. *)
Lemma read_and_finish_effects (frames : list response) (st : task_state)
    (entry : pydict) :
  responses st !! session_id = Some entry →
  let res := read_and_finish w tts session_id frames st in
  (∃ fs, sent res.2 = sent st ++ fs ∧ inputs_of fs = [])
  ∧ (∃ es, emitted res.2 = emitted st ++ es)
  ∧ (has_target (sd st) = false → emitted res.2 = emitted st)
  ∧ (∃ e, responses res.2 = <[session_id := e]> (responses st)
          ∧ (e = entry ∨ e = <["done" := PBool true]> entry))
  ∧ (connected (sd res.2), task (sd res.2), message_queue (sd res.2),
     socketio (sd res.2), client_sid (sd res.2))
    = (connected (sd st), task (sd st), message_queue (sd st),
       socketio (sd st), client_sid (sd st))
  ∧ (∀ c, res.1 = Ok c →
       c = Next
       ∧ response_complete_sent (sd res.2) = false
       ∧ responses res.2
         = <[session_id := <["done" := PBool true]> entry]> (responses st)
       ∧ response_queue (sd res.2) = response_queue (sd st) ++ [true]).
Proof.
  intros Hentry res. subst res. unfold read_and_finish.
  pose proof (receive_loop_extends w session_id frames "" st)
    as (Hresp & Hsame & [es Hes] & (fs & Hfs & Hin) & _).
  pose proof (receive_loop_silent w session_id frames "" st) as Hsilent.
  destruct (receive_loop w session_id frames "" st) as [[acc|e] st1];
    simpl in *.
  - assert (Hentry1 : responses st1 !! session_id = Some entry)
      by (by rewrite Hresp).
    pose proof (after_receive_effects w session_id tts acc st1 entry Hentry1)
      as (Hr2 & Hs2 & _ & Hsd2 & [es2 Hes2] & Hquiet & Hres).
    destruct (same_session_target _ _ Hsame) as [Ht Htt].
    destruct Hsame as (Hc & Htask & Hq & Hrq & _ & Hsio & Hcl).
    destruct (after_receive w tts session_id acc st1) as [[[]|e] st2];
      simpl in *;
      (split; [exists fs; by rewrite Hs2, Hfs|]);
      (split; [exists (es ++ es2); by rewrite Hes2, Hes, app_assoc|]);
      (split; [intros Hno; rewrite Hquiet, Hsilent;
               [done|done|rewrite Htt; by apply no_target_not_truthy]|]);
      (split; [exists (<["done" := PBool true]> entry);
               split; [by rewrite Hr2, Hresp|by right]|]);
      (split; [rewrite Hsd2; simpl; by rewrite Hc, Htask, Hq, Hsio, Hcl|]).
    + intros c [= <-]. rewrite Hsd2, Hr2, Hresp. simpl. by rewrite Hrq.
    + by intros c.
  - destruct Hsame as (Hc & Htask & Hq & Hrq & _ & Hsio & Hcl).
    split; [exists fs; by rewrite Hfs|].
    split; [by exists es|].
    split; [done|].
    split.
    { exists entry. split; [|by left]. rewrite Hresp.
      symmetry. by apply insert_id. }
    split; [by rewrite Hc, Htask, Hq, Hsio, Hcl|]. by intros c.
Qed.

End Finish.

Section Iteration_facts.
Context (w : World) (tts : bool) (session_id : string).
Import Live.

Lemma fresh_response_lookup :
  fresh_response !! "text" = Some (PStr "")
  ∧ fresh_response !! "audio" = Some PNone
  ∧ (<["done" := PBool true]> fresh_response) !! "text" = Some (PStr "")
  ∧ (<["done" := PBool true]> fresh_response) !! "audio" = Some PNone.
Proof. vm_compute. by repeat split. Qed.

(** X12. Whatever the remote stream answers, the entry of the session in
    the response store never receives the text or the audio of the answer:
    after an iteration for a message other than the termination signal the
    entry is [{"text": "", "done": False, "audio": None}], or the same with
    ["done": True], and the entries of the other sessions are untouched. *)
Theorem response_store_never_holds_text (m : message)
    (frames : list response) (st : task_state) :
  m ≠ MNone →
  ∃ e,
    responses (handle_message w tts session_id m frames st).2
    = <[session_id := e]> (responses st)
    ∧ (e = fresh_response ∨ e = <["done" := PBool true]> fresh_response)
    ∧ e !! "text" = Some (PStr "")
    ∧ e !! "audio" = Some PNone.
Proof.
  intros Hm.
  assert (Hgoal : ∃ e,
    responses (handle_message w tts session_id m frames st).2
    = <[session_id := e]> (responses st)
    ∧ (e = fresh_response ∨ e = <["done" := PBool true]> fresh_response)).
  { destruct (handle_message_cases w tts session_id m frames st Hm)
      as [[_ ->] | [(message & url & _ & _ & _ & ->)
                   | (message & parts & _ & _ & ->)]].
    - exists fresh_response. split; [done|by left].
    - exists fresh_response. split; [|by left].
      by destruct (target_truthy (sd st)).
    - match goal with
      | |- context [read_and_finish w tts session_id frames ?s] =>
          destruct (read_and_finish_effects w tts session_id frames s
                      fresh_response) as (_ & _ & _ & (e & He & Hcase) & _)
      end.
      { simpl. apply lookup_insert_eq. }
      exists e. split; [|exact Hcase].
      rewrite He. simpl. apply insert_insert_eq. }
  destruct Hgoal as (e & He & Hcase). exists e.
  split; [exact He|]. split; [exact Hcase|].
  destruct fresh_response_lookup as (H1 & H2 & H3 & H4).
  destruct Hcase as [-> | ->]; by split.
Qed.

(** What an iteration does, whatever the message and the stream. *)
Lemma handle_message_effects (m : message) (frames : list response)
    (st : task_state) :
  let res := handle_message w tts session_id m frames st in
  (∃ fs, sent res.2 = sent st ++ fs
         ∧ (inputs_of fs = []
            ∨ ∃ parts, inputs_of fs = [parts] ∧ head parts = (unpack m).1))
  ∧ (∃ es, emitted res.2 = emitted st ++ es)
  ∧ (has_target (sd st) = false → emitted res.2 = emitted st)
  ∧ (connected (sd res.2), task (sd res.2), message_queue (sd res.2),
     socketio (sd res.2), client_sid (sd res.2))
    = (connected (sd st), task (sd st), message_queue (sd st),
       socketio (sd st), client_sid (sd st))
  ∧ (∀ c, res.1 = Ok c →
       response_complete_sent (sd st) = false →
       response_complete_sent (sd res.2) = false).
Proof.
  intros res. subst res.
  assert (Hdec : m = MNone ∨ m ≠ MNone) by (destruct m; auto).
  destruct Hdec as [-> | Hm].
  { simpl. split; [exists []; rewrite app_nil_r; auto|].
    split; [exists []; by rewrite app_nil_r|]. by repeat split. }
  destruct (handle_message_cases w tts session_id m frames st Hm)
    as [[_ ->] | [(message & url & _ & _ & _ & ->)
                 | (message & parts & Hmsg & Hparts & ->)]].
  - simpl. split; [exists []; rewrite app_nil_r; auto|].
    split; [exists []; by rewrite app_nil_r|]. by repeat split.
  - destruct (target_truthy (sd st)) eqn:Htt; simpl.
    + split; [exists []; rewrite app_nil_r; auto|].
      split; [by eexists|].
      split; [|by repeat split].
      intros Hno. apply no_target_not_truthy in Hno. congruence.
    + split; [exists []; rewrite app_nil_r; auto|].
      split; [exists []; by rewrite app_nil_r|]. by repeat split.
  - match goal with
    | |- context [read_and_finish w tts session_id frames ?s] =>
        destruct (read_and_finish_effects w tts session_id frames s
                    fresh_response)
          as ((fs & Hfs & Hin) & (es & Hes) & Hsilent & _ & Hsame & Hok)
    end.
    { simpl. apply lookup_insert_eq. }
    simpl in *.
    split.
    { exists (SendInput parts true :: fs). split.
      - rewrite Hfs. by rewrite <- app_assoc.
      - right. exists parts. split.
        + change (inputs_of (SendInput parts true :: fs))
            with (parts :: inputs_of fs).
          by rewrite Hin.
        + rewrite Hmsg.
          destruct Hparts as [[_ ->] | (u & h & e & b & _ & _ & _ & _ & ->)];
            done. }
    split; [by exists es|].
    split; [exact Hsilent|].
    split; [exact Hsame|].
    intros c Hc _. by destruct (Hok c Hc) as (_ & Hflag & _).
Qed.

(** X13. An iteration that ends normally leaves [_response_complete_sent]
    false when it found it false, and so does any run of the loop over
    queued messages: every turn starts with the flag cleared, whatever the
    earlier turns did. *)
Theorem turn_clears_complete_flag :
  (∀ (m : message) (frames : list response) (st : task_state) (c : control),
     response_complete_sent (sd st) = false →
     (handle_message w tts session_id m frames st).1 = Ok c →
     response_complete_sent (sd (handle_message w tts session_id m frames st).2)
     = false)
  ∧ (∀ (turns : list (message * list response)) (st : task_state) (b : bool),
       response_complete_sent (sd st) = false →
       (task_loop w tts session_id turns st).1 = Ok b →
       response_complete_sent (sd (task_loop w tts session_id turns st).2)
       = false).
Proof.
  assert (Hone : ∀ m frames st c,
            response_complete_sent (sd st) = false →
            (handle_message w tts session_id m frames st).1 = Ok c →
            response_complete_sent
              (sd (handle_message w tts session_id m frames st).2) = false).
  { intros m frames st c Hflag Hok.
    destruct (handle_message_effects m frames st) as (_ & _ & _ & _ & H).
    by apply (H c). }
  split; [exact Hone|].
  induction turns as [|[m frames] rest IH]; intros st b Hflag Hok; [done|].
  simpl in *. revert Hok. run.
  set (st0 := with_sd _ st).
  assert (Hflag0 : response_complete_sent (sd st0) = false) by done.
  pose proof (Hone m frames st0) as H1.
  destruct (handle_message w tts session_id m frames st0) as [[[]|e] st1];
    simpl in *; intros Hok.
  - apply (IH st1 b); [by apply (H1 Next)|done].
  - by apply (H1 Break).
  - done.
Qed.

End Iteration_facts.

Lemma response_store_never_holds_text_witness :
  ∃ e,
    Live.responses (Live.handle_message Demo.world false "s1" (Live.MText "hello")
                 [Demo.frame (Some "Hi there") None true]
                 (Demo.task_start Demo.attached)).2
    = <["s1" := e]> ∅
    ∧ e !! "text" = Some (PStr "").
Proof.
  destruct (response_store_never_holds_text Demo.world false "s1" (Live.MText "hello")
              [Demo.frame (Some "Hi there") None true]
              (Demo.task_start Demo.attached)) as (e & He & _ & Ht & _).
  - discriminate.
  - exists e. split; [exact He|exact Ht].
Defined.

Lemma turn_clears_complete_flag_witness :
  Live.response_complete_sent
    (Live.sd (Live.handle_message Demo.world false "s1" (Live.MText "find me a blue jacket")
           [Demo.frame None (Some [Demo.search_call "c1" "blue jacket"]) false]
           (Demo.task_start Demo.attached)).2)
  = false.
Proof.
  apply (proj1 (turn_clears_complete_flag Demo.world false "s1") (Live.MText "find me a blue jacket")
           [Demo.frame None (Some [Demo.search_call "c1" "blue jacket"]) false]
           (Demo.task_start Demo.attached) Live.Next).
  - reflexivity.
  - vm_compute. reflexivity.
Defined.

Section Frames.
Context (w : World) (tts : bool) (session_id : string).
Import Live.

(** X14. A message whose frame is not a data URL with a comma, or whose
    payload does not decode, is not sent to the remote service: the
    iteration ends normally without reading the stream, nothing is sent or
    executed, the session data is untouched (no completion is queued), the
    entry of the response store is reset and not marked done, and the only
    event, if a client is attached, is one [response_complete] with the
    text ["[Error: Could not process image frame]"]. *)
Theorem unusable_frame_skips_turn (m : message) (message : content)
    (url : string) (frames : list response) (st : task_state) :
  unpack m = (Some message, Some url) →
  nonempty url = true →
  (split_once "," url = None
   ∨ ∃ header encoded e, split_once "," url = Some (header, encoded)
                         ∧ b64decode w encoded = Raise e) →
  let res := handle_message w tts session_id m frames st in
  res.1 = Ok Next
  ∧ sent res.2 = sent st
  ∧ calls res.2 = calls st
  ∧ sd res.2 = sd st
  ∧ responses res.2 = <[session_id := fresh_response]> (responses st)
  ∧ emitted res.2
    = emitted st
      ++ (if target_truthy (sd st)
          then [(room_of (sd st),
                 response_complete None "[Error: Could not process image frame]")]
          else []).
Proof.
  intros Hunpack Hurl Hbad res. subst res.
  assert (Hm : m ≠ MNone) by (intros ->; discriminate).
  destruct (handle_message_cases w tts session_id m frames st Hm)
    as [[Hnone _] | [(message' & url' & _ & _ & _ & ->)
                    | (message' & parts & _ & Hparts & _)]].
  - by rewrite Hunpack in Hnone.
  - destruct (target_truthy (sd st)); simpl; repeat split.
    by rewrite app_nil_r.
  - exfalso. rewrite Hunpack in Hparts. simpl in Hparts.
    destruct Hparts as [[Hf _] | (u & h & e & b & [= <-] & _ & Hs & Hd & _)].
    + by rewrite Hurl in Hf.
    + destruct Hbad as [Hbad | (h' & e' & err & Hs' & Hd')]; [congruence|].
      rewrite Hs in Hs'. injection Hs' as <- <-. congruence.
Qed.

(** X15. A message with a usable frame is sent as one input of two parts,
    the text and then the decoded image with the mime type of the data URL,
    marked as the end of the turn; it is the first thing the iteration
    sends, and no other user input follows it. *)
Theorem frame_sent_with_text (m : message) (message : content)
    (url header encoded : string) (frame_bytes : list byte)
    (frames : list response) (st : task_state) :
  unpack m = (Some message, Some url) →
  nonempty url = true →
  split_once "," url = Some (header, encoded) →
  b64decode w encoded = Ok frame_bytes →
  ∃ fs,
    sent (handle_message w tts session_id m frames st).2
    = sent st
      ++ SendInput [message; CPart frame_bytes (mime_of header)] true :: fs
    ∧ inputs_of fs = [].
Proof.
  intros Hunpack Hurl Hsplit Hdec.
  assert (Hm : m ≠ MNone) by (intros ->; discriminate).
  destruct (handle_message_cases w tts session_id m frames st Hm)
    as [[Hnone _] | [(message' & url' & Hu & _ & Hbad & _)
                    | (message' & parts & Hmsg & Hparts & ->)]].
  - by rewrite Hunpack in Hnone.
  - exfalso. rewrite Hunpack in Hu. injection Hu as <- <-.
    destruct Hbad as [Hbad | (h' & e' & err & Hs' & Hd')]; [congruence|].
    rewrite Hsplit in Hs'. injection Hs' as <- <-. congruence.
  - rewrite Hunpack in Hmsg, Hparts. simpl in *. injection Hmsg as <-.
    destruct Hparts as [[Hf _] | (u & h & e & b & [= <-] & _ & Hs & Hd & ->)].
    { by rewrite Hurl in Hf. }
    rewrite Hsplit in Hs. injection Hs as <- <-.
    rewrite Hdec in Hd. injection Hd as <-.
    match goal with
    | |- context [read_and_finish w tts session_id frames ?s] =>
        destruct (read_and_finish_effects w tts session_id frames s
                    fresh_response) as ((fs & Hfs & Hin) & _)
    end.
    { simpl. apply lookup_insert_eq. }
    exists fs. split; [|exact Hin]. rewrite Hfs. simpl.
    by rewrite <- app_assoc.
Qed.

(** X16. A session without a client attached gets no event at all: an
    iteration emits nothing, whatever the message and the stream, and
    neither does a run of the loop over any queued messages. *)
Theorem no_client_no_events :
  (∀ (m : message) (frames : list response) (st : task_state),
     has_target (sd st) = false →
     emitted (handle_message w tts session_id m frames st).2 = emitted st)
  ∧ (∀ (turns : list (message * list response)) (st : task_state),
       has_target (sd st) = false →
       emitted (task_loop w tts session_id turns st).2 = emitted st).
Proof.
  assert (Hone : ∀ m frames st,
            has_target (sd st) = false →
            emitted (handle_message w tts session_id m frames st).2 = emitted st).
  { intros m frames st Hno.
    destruct (handle_message_effects w tts session_id m frames st)
      as (_ & _ & H & _). by apply H. }
  split; [exact Hone|].
  induction turns as [|[m frames] rest IH]; intros st Hno; [done|].
  simpl. run. set (st0 := with_sd _ st).
  assert (Hno0 : has_target (sd st0) = false) by done.
  pose proof (Hone m frames st0 Hno0) as H1.
  destruct (handle_message_effects w tts session_id m frames st0)
    as (_ & _ & _ & Hsame & _).
  destruct (handle_message w tts session_id m frames st0) as [[[]|e] st1];
    simpl in *; try done.
  rewrite IH; [done|].
  injection Hsame as _ _ _ Hs Hc. unfold has_target in *.
  by rewrite Hs, Hc.
Qed.

Lemma omap_cons_app {A B} (f : A → option B) (x : A) (l : list A) :
  omap f (x :: l) = omap f [x] ++ omap f l.
Proof. by rewrite <- omap_app. Qed.

(** X17. The loop sends the queued messages to the remote service in the
    order of the queue, each at most once: the first parts of the user
    inputs it sends are, in order, messages of the queue. *)
Theorem inputs_in_queue_order (turns : list (message * list response)) :
  ∀ st : task_state,
    ∃ new,
      inputs_of (sent (task_loop w tts session_id turns st).2)
      = inputs_of (sent st) ++ new
      ∧ omap head new `sublist_of` omap (λ t, (unpack t.1).1) turns.
Proof.
  induction turns as [|[m frames] rest IH]; intros st.
  { exists []. simpl. rewrite app_nil_r. split; [done|constructor]. }
  rewrite (omap_cons_app (λ t : message * list response, (unpack t.1).1)
             (m, frames) rest).
  remember (omap (λ t : message * list response, (unpack t.1).1) [(m, frames)])
    as first eqn:Hfirst.
  remember (omap (λ t : message * list response, (unpack t.1).1) rest)
    as others eqn:Hothers.
  simpl. run. set (st0 := with_sd _ st).
  destruct (handle_message_effects w tts session_id m frames st0)
    as ((fs & Hfs & Hin) & _).
  assert (Hhead : ∃ one,
            inputs_of (sent (handle_message w tts session_id m frames st0).2)
            = inputs_of (sent st) ++ one
            ∧ omap head one `sublist_of` first).
  { rewrite Hfs, inputs_of_app.
    change (sent st0) with (sent st).
    destruct Hin as [-> | (parts & -> & Hp)].
    - exists []. split; [done|]. apply sublist_nil_l.
    - exists [parts]. split; [done|]. subst first. simpl. rewrite Hp.
      destruct (unpack m).1; simpl; [done|constructor]. }
  destruct Hhead as (one & Hone & Hsub).
  destruct (handle_message w tts session_id m frames st0) as [[[]|e] st1];
    cbn [fst snd] in *.
  - destruct (IH st1) as (new & Hnew & Hsubnew).
    exists (one ++ new). split.
    + by rewrite Hnew, Hone, app_assoc.
    + rewrite omap_app. subst others. by apply sublist_app.
  - exists one. split; [done|]. by apply sublist_inserts_r.
  - exists one. split; [done|]. by apply sublist_inserts_r.
Qed.

(** X18. The loop stops at the termination signal: the messages queued
    behind it play no part in what the loop does, and the loop does not go
    back to waiting on the queue: it is left by [break] or by an error. *)
Theorem loop_stops_at_termination (before rest : list (message * list response))
    (frames frames' : list response) :
  ∀ st : task_state,
    task_loop w tts session_id (before ++ (MNone, frames) :: rest) st
    = task_loop w tts session_id (before ++ [(MNone, frames')]) st
    ∧ (task_loop w tts session_id (before ++ (MNone, frames) :: rest) st).1
      ≠ Ok false.
Proof.
  induction before as [|[m fr] before IH]; intros st; simpl; [done|].
  run. destruct (handle_message w tts session_id m fr _) as [[[]|e] st1];
    [apply IH|done|done].
Qed.

End Frames.

Lemma unusable_frame_skips_turn_witness :
  (Live.handle_message Demo.world false "s1"
     (Live.MPair (Some "what is this?") (Some "no comma here")) []
     (Demo.task_start Demo.attached)).1
  = Ok Live.Next.
Proof.
  destruct (unusable_frame_skips_turn Demo.world false "s1"
              (Live.MPair (Some "what is this?") (Some "no comma here"))
              (Live.CText "what is this?") "no comma here" []
              (Demo.task_start Demo.attached))
    as (H & _); [reflexivity|reflexivity|left; reflexivity|exact H].
Defined.

Lemma frame_sent_with_text_witness :
  ∃ fs,
    Live.sent
      (Live.handle_message Demo.world false "s1"
         (Live.MPair (Some "what is this?") (Some "data:image/png;base64,QUJD"))
         [] (Demo.task_start Demo.attached)).2
    = Live.SendInput
        [Live.CText "what is this?";
         Live.CPart (list_byte_of_string "QUJD") "image/png"] true :: fs.
Proof.
  destruct (frame_sent_with_text Demo.world false "s1"
              (Live.MPair (Some "what is this?") (Some "data:image/png;base64,QUJD"))
              (Live.CText "what is this?") "data:image/png;base64,QUJD"
              "data:image/png;base64" "QUJD" (list_byte_of_string "QUJD")
              [] (Demo.task_start Demo.attached))
    as (fs & H & _); [reflexivity|reflexivity|reflexivity|reflexivity|].
  exists fs. exact H.
Defined.

Section Polled.
Context (w : World) (session_id : string).
Import Live.

Lemma on_tool_call_search_no_client (c : function_call)
    (cs : list function_call) (data : search_data) (results : list pydict)
    (text : string) (st : task_state) :
  fc_name c = "search_products" →
  truthy (get (fc_args c) "query") = true →
  http_get w ("http://localhost:5000/api/search?query="
              +:+ py_str (get (fc_args c) "query"))
    = HttpResponse 200 (Ok data) text →
  sd_results data = Some results →
  has_target (sd st) = false →
  response_complete_sent (sd st) = false →
  ∃ e st',
    on_tool_call w session_id (c :: cs) st = (Raise e, st')
    ∧ sent st' = sent st ∧ emitted st' = emitted st
    ∧ responses st' = responses st
    ∧ sd st' = set_function_result_sent true (sd st).
Proof.
  intros Hname Hq Hget Hres Hno Hflag.
  unfold on_tool_call. rewrite Hname. run. simpl.
  rewrite (execute_function_search_ok w (fc_args c) data text _ Hq Hget).
  simpl. rewrite Hres. simpl. rewrite Hno. simpl. rewrite Hflag. simpl.
  by eexists _, _.
Qed.

Lemma polled_search_turn (tts : bool) (t : string)
    (pre post : list response) (r : response)
    (c : function_call) (cs : list function_call)
    (data : search_data) (results : list pydict) (text : string)
    (st : task_state) :
  has_target (sd st) = false →
  response_complete_sent (sd st) = false →
  Forall (λ r, quiet r = true) pre →
  r_tool_call r = Some (c :: cs) →
  fc_name c = "search_products" →
  truthy (get (fc_args c) "query") = true →
  http_get w ("http://localhost:5000/api/search?query="
              +:+ py_str (get (fc_args c) "query"))
    = HttpResponse 200 (Ok data) text →
  sd_results data = Some results →
  ∃ e st',
    handle_message w tts session_id (MText t) (pre ++ r :: post) st
      = (Raise e, st')
    ∧ sent st' = sent st ++ [SendInput [CText t] true]
    ∧ emitted st' = emitted st
    ∧ responses st' = <[session_id := fresh_response]> (responses st)
    ∧ sd st' = set_function_result_sent true (sd st).
Proof.
  intros Hno Hflag Hpre Hcall Hname Hq Hget Hres.
  destruct (handle_message_effects w tts session_id (MText t)
              (pre ++ r :: post) st) as (_ & _ & Hsil & _).
  specialize (Hsil Hno). revert Hsil.
  rewrite (handle_message_text w session_id tts (MText t) (CText t) None _ st);
    [|done|done].
  match goal with
  | |- context [receive_loop w session_id _ "" ?s] =>
      destruct (receive_loop_quiet w session_id pre (r :: post) Hpre "" s)
        as (st1 & -> & Hag)
  end.
  destruct Hag as (Hsd1 & Hresp1 & Hsent1 & _).
  simpl in Hsd1, Hresp1, Hsent1.
  simpl. unfold mbind, M_bind, bind.
  destruct (receive_step_tool w session_id r (c :: cs) ("" +:+ texts_of pre) st1 Hcall)
    as (st2 & (Hsd2 & Hresp2 & Hsent2 & _) & _ & ->).
  destruct (on_tool_call_search_no_client c cs data results text st2)
    as (e & st3 & -> & Hsent3 & Hem3 & Hresp3 & Hsd3); try done.
  - by rewrite Hsd2, Hsd1.
  - by rewrite Hsd2, Hsd1.
  - simpl. intros Hsil. exists e, st3. split; [reflexivity|].
    rewrite Hsent3, Hsent2, Hsent1, Hresp3, Hresp2, Hresp1, Hsd3, Hsd2, Hsd1.
    by repeat split.
Qed.

(** X19. A session that is only polled over HTTP (no socket client was
    ever attached) does not survive a successful product search: the first
    queued message is sent, the search is run, and the task then stops with
    an error before the function response is sent to the remote service.
    Nothing is emitted, the session is marked as not connected, the messages
    queued behind stay in the queue, no completion is queued, and the entry
    of the response store stays at its initial value with [done] false, so
    every later poll gets that same entry. *)
Theorem polled_search_ends_task (svc : service) (d : session_data)
    (t : string) (queue : list message) (streams : list (list response))
    (pre post : list response) (r : response)
    (c : function_call) (cs : list function_call)
    (data : search_data) (results : list pydict) (text : string) :
  active_sessions svc !! session_id = Some d →
  message_queue d = MText t :: queue →
  has_target d = false →
  response_complete_sent d = false →
  Forall (λ r, quiet r = true) pre →
  r_tool_call r = Some (c :: cs) →
  fc_name c = "search_products" →
  truthy (get (fc_args c) "query") = true →
  http_get w ("http://localhost:5000/api/search?query="
              +:+ py_str (get (fc_args c) "query"))
    = HttpResponse 200 (Ok data) text →
  sd_results data = Some results →
  let run := run_background_task w session_id (Ok tt)
               ((pre ++ r :: post) :: streams) svc in
  run_sent run = [SendInput [CText t] true]
  ∧ run_emitted run = []
  ∧ session_responses (run_service run)
    = <[session_id := fresh_response]> (session_responses svc)
  ∧ (∃ d', active_sessions (run_service run) !! session_id = Some d'
           ∧ connected d' = false
           ∧ message_queue d' = queue
           ∧ response_queue d' = response_queue d)
  ∧ App.get_live_response session_id (run_service run)
    = ((200%Z, App.BodyJson fresh_response), run_service run).
Proof.
  intros Hd Hqueue Hno Hflag Hpre Hcall Hname Hq Hget Hres run0.
  subst run0. unfold run_background_task. rewrite Hd.
  unfold session_background_task. run. cbn -[handle_message].
  rewrite Hqueue. cbn -[handle_message]. run.
  match goal with
  | |- context [handle_message w ?tts session_id (MText t) _ ?s] =>
      destruct (polled_search_turn tts t pre post r c cs data results text s)
        as (e & st' & -> & Hsent & Hem & Hresp & Hsd); try done
  end.
  simpl in *. rewrite Hsent, Hem, Hresp, Hsd. simpl.
  split; [reflexivity|]. split; [reflexivity|]. split; [reflexivity|].
  split.
  - eexists. rewrite lookup_insert_eq. split; [reflexivity|]. simpl.
    by rewrite Hqueue.
  - unfold App.get_live_response, get_current_response. simpl.
    rewrite lookup_insert_eq.
    assert (Hne : App.dict_truthy fresh_response = true) by by vm_compute.
    rewrite Hne. unfold clear_response. simpl. rewrite lookup_insert_eq.
    by vm_compute (truthy _).
Qed.

End Polled.

Lemma polled_search_ends_task_witness :
  let svc := (Live.process_user_message "s1" "blue jacket"
                (Live.create_session (Some "s1") "u" Demo.live_empty).2).2 in
  let run := Live.run_background_task Demo.world "s1" (Ok tt)
               [[Demo.frame None (Some [Demo.search_call "c1" "blue jacket"]) false]]
               svc in
  Live.run_sent run = [Live.SendInput [Live.CText "blue jacket"] true]
  ∧ App.get_live_response "s1" (Live.run_service run)
    = ((200%Z, App.BodyJson Live.fresh_response), Live.run_service run).
Proof.
  intros svc run0.
  destruct (polled_search_ends_task Demo.world "s1" svc
              (Live.set_message_queue [Live.MText "blue jacket"]
                 (Live.set_task true Live.new_session_data))
              "blue jacket" [] [] [] []
              (Demo.frame None (Some [Demo.search_call "c1" "blue jacket"]) false)
              (Demo.search_call "c1" "blue jacket") []
              {| sd_results := Some (Demo.jacket <$> [1; 2; 3; 4; 5; 6]%Z);
                 sd_extra := ∅ |}
              (Demo.jacket <$> [1; 2; 3; 4; 5; 6]%Z) "")
    as (H1 & _ & _ & _ & H5); try reflexivity.
  - constructor.
  - split; [exact H1|exact H5].
Defined.

Section Service_life.
Context (w : World).
Import Live.

Lemma create_session_lookup (session_id : option string) (uuid : string)
    (svc : service) :
  let sid := default uuid session_id in
  (create_session session_id uuid svc).1 = sid
  ∧ active_sessions (create_session session_id uuid svc).2 !! sid
    = Some (set_task true new_session_data)
  ∧ session_responses (create_session session_id uuid svc).2 !! sid
    = Some fresh_response
  ∧ tts_client (create_session session_id uuid svc).2 = tts_client svc.
Proof.
  unfold create_session. simpl. split; [done|].
  split; [|split; [by rewrite lookup_insert_eq|done]].
  by rewrite lookup_alter_eq, lookup_insert_eq.
Qed.

(** X20. A message sent over the socket before the background task has
    connected is refused with the error ["Session not connected"] and is
    not queued; if the connection then fails it is refused for ever after;
    once the task has connected, the same message is accepted: it is
    queued as a pair with its frame, the client is attached to the session
    and no event is emitted. *)
Theorem socket_message_needs_connection (session_id : option string)
    (uuid : string) (svc : service) (message frame : option string)
    (client : string) (streams : list (list response)) :
  let sid := (create_session session_id uuid svc).1 in
  let svc1 := (create_session session_id uuid svc).2 in
  let refused svc := process_user_message_socketio sid message frame client svc
                     = ([(client, error_event "Session not connected")], svc) in
  refused svc1
  ∧ (∀ e, refused (run_service (run_background_task w sid (Raise e) streams svc1)))
  ∧ ∃ svc3 d,
      process_user_message_socketio sid message frame client
        (run_service (run_background_task w sid (Ok tt) streams svc1))
      = ([], svc3)
      ∧ active_sessions svc3 !! sid = Some d
      ∧ message_queue d = [MPair message frame]
      ∧ socketio d = true ∧ client_sid d = Some client
      ∧ connected d = true.
Proof.
  intros sid svc1 refused. subst sid svc1 refused.
  destruct (create_session_lookup session_id uuid svc) as (-> & Hd & Hr & _).
  set (sid := default uuid session_id) in *.
  set (svc1 := (create_session session_id uuid svc).2) in *.
  split; [|split].
  - unfold process_user_message_socketio. by rewrite Hd.
  - intros e. unfold run_background_task. rewrite Hd.
    unfold session_background_task. run. simpl.
    unfold process_user_message_socketio. simpl.
    by rewrite lookup_insert_eq.
  - unfold run_background_task. rewrite Hd.
    unfold session_background_task. run. simpl.
    unfold process_user_message_socketio. simpl.
    rewrite lookup_insert_eq. simpl.
    eexists _, _. split; [reflexivity|]. simpl.
    rewrite lookup_insert_eq. by repeat split.
Qed.

(** X21. A message posted over HTTP right after [create_session] is
    queued although the task has not connected yet, and once the
    connection is up it is the first thing sent to the remote service, as
    one text input that ends the turn; no other user input is sent. *)
Theorem http_message_waits_for_connection (session_id : option string)
    (uuid message : string) (svc : service) (streams : list (list response)) :
  let sid := (create_session session_id uuid svc).1 in
  let svc1 := (create_session session_id uuid svc).2 in
  let posted := process_user_message sid message svc1 in
  posted.1 = ReplyStatus "processing"
  ∧ ∃ fs,
      run_sent (run_background_task w sid (Ok tt) streams posted.2)
      = SendInput [CText message] true :: fs
      ∧ inputs_of fs = [].
Proof.
  intros sid svc1 posted. subst sid svc1 posted.
  destruct (create_session_lookup session_id uuid svc) as (-> & Hd & Hr & _).
  set (sid := default uuid session_id) in *.
  set (svc1 := (create_session session_id uuid svc).2) in *.
  unfold process_user_message. rewrite Hd. split; [done|].
  unfold run_background_task. simpl. rewrite lookup_insert_eq.
  unfold session_background_task. run. cbn -[handle_message task_loop].
  assert (Hturns : ∃ frames,
            match streams ++ [[]] with
            | [] => []
            | x2 :: _ => [(MText message, x2)]
            end = [(MText message, frames)]) by (destruct streams; eauto).
  destruct Hturns as [frames ->]. cbn -[handle_message]. run.
  match goal with
  | |- context [handle_message w ?tts sid (MText message) frames ?s] =>
      destruct (handle_message_cases w tts sid (MText message) frames s)
        as [[Hnone _] | [(m' & url & Hu & _) | (m' & parts & Hm & Hparts & ->)]];
        [done|done|done|]
  end.
  simpl in Hm, Hparts. injection Hm as <-.
  destruct Hparts as [[_ ->] | (url & ? & ? & ? & ? & _)]; [|done].
  match goal with
  | |- context [read_and_finish w ?tts sid frames ?s] =>
      destruct (read_and_finish_effects w tts sid frames s fresh_response)
        as ((fs & Hfs & Hin) & _); [apply lookup_insert_eq|];
      destruct (read_and_finish w tts sid frames s) as [[[]|e] st1]
  end; simpl in *; exists fs; by rewrite Hfs.
Qed.

(** X22. Creating a session under an id that is not in use and ending it
    gives back the service as it was: nothing of the session is left in
    [active_sessions] or in [session_responses], whatever waiting for the
    background task does. *)
Theorem create_then_end_restores (session_id uuid : string)
    (wait : result unit) (svc : service) :
  active_sessions svc !! session_id = None →
  session_responses svc !! session_id = None →
  end_session wait session_id (create_session (Some session_id) uuid svc).2
  = (Ok PNone, svc).
Proof.
  intros Ha Hr.
  rewrite live_end_session_known.
  2: { destruct (create_session_lookup (Some session_id) uuid svc)
         as (_ & Hd & _). by eexists. }
  unfold create_session. simpl. f_equal. destruct svc as [tts act resp].
  simpl in *. f_equal.
  - by rewrite delete_alter_eq, delete_insert_eq, delete_id.
  - by rewrite delete_insert_eq, delete_id.
Qed.

(** X23. Polling a session whose response is marked done returns that
    response once with status 200 and replaces it by the cleared entry; a
    second poll returns the cleared entry, whose [done] is false, and from
    then on polling changes nothing. *)
Theorem poll_delivers_done_response_once (session_id : string)
    (entry : pydict) (svc : service) :
  session_responses svc !! session_id = Some entry →
  truthy (get_or entry "done" (PBool false)) = true →
  let first := App.get_live_response session_id svc in
  let second := App.get_live_response session_id first.2 in
  first.1 = (200%Z, App.BodyJson entry)
  ∧ session_responses first.2
    = <[session_id := cleared_response]> (session_responses svc)
  ∧ active_sessions first.2 = active_sessions svc
  ∧ second = ((200%Z, App.BodyJson cleared_response), first.2).
Proof.
  intros Hentry Hdone first second. subst first second.
  assert (Hne : App.dict_truthy entry = true).
  { unfold App.dict_truthy. apply negb_true_iff, bool_decide_eq_false.
    intros ->. by vm_compute in Hdone. }
  assert (Hfirst : App.get_live_response session_id svc
            = ((200%Z, App.BodyJson entry),
               with_session_responses (insert session_id cleared_response) svc)).
  { unfold App.get_live_response, get_current_response.
    rewrite Hentry, Hne. unfold clear_response. by rewrite Hentry, Hdone. }
  rewrite Hfirst. simpl. repeat split.
  unfold App.get_live_response, get_current_response. simpl.
  rewrite lookup_insert_eq.
  assert (Hc : App.dict_truthy cleared_response = true) by by vm_compute.
  rewrite Hc. unfold clear_response. simpl. rewrite lookup_insert_eq.
  by vm_compute (truthy _).
Qed.

End Service_life.

Lemma create_then_end_restores_witness :
  Live.end_session (Ok tt) "s1"
    (Live.create_session (Some "s1") "u" Demo.live_empty).2
  = (Ok PNone, Demo.live_empty).
Proof. by apply create_then_end_restores. Defined.

Lemma poll_delivers_done_response_once_witness :
  let svc := Live.with_session_responses
               (insert "s1" (<["done" := PBool true]> Live.fresh_response))
               Demo.live_empty in
  (App.get_live_response "s1" svc).1
  = (200%Z, App.BodyJson (<["done" := PBool true]> Live.fresh_response)).
Proof.
  intros svc.
  by destruct (poll_delivers_done_response_once "s1"
                 (<["done" := PBool true]> Live.fresh_response) svc)
    as (H & _).
Defined.

Section Generator.
Context (w : World).
Import Live.

Lemma summary_dom (product : pydict) :
  dom (summary product)
  = ({["id"; "name"; "price"; "image_url"; "aisle"]} : gset string).
Proof.
  unfold summary. rewrite !dom_insert_L, dom_empty_L. set_solver.
Qed.

Lemma reported_response_mono (ys zs : list yielded) (m : sent_msg) :
  reported_response ys m → reported_response (ys ++ zs) m.
Proof.
  destruct m as [| |id name products]; simpl; try done.
  intros (? & ? & ? & ?). repeat split; try done.
  apply elem_of_app. by left.
Qed.

Lemma on_function_call_reported (fc : function_call) (st : gen_state) :
  Forall (reported_response (gen_yielded st)) (gen_sent st) →
  Forall (reported_response (gen_yielded (on_function_call w fc st).2))
    (gen_sent (on_function_call w fc st).2).
Proof.
  intros Hst. unfold on_function_call.
  destruct (String.eqb_spec (fc_name fc) "search_products") as [Hname|]; [|done].
  run.
  destruct (http_get w _) as [e|status [data|e] text]; simpl.
  - eapply Forall_impl; [exact Hst|]. intros m. apply reported_response_mono.
  - apply Forall_app. split.
    + eapply Forall_impl; [exact Hst|]. intros m. apply reported_response_mono.
    + constructor; [|constructor]. simpl.
      split; [done|]. split; [apply search_results_of_length|].
      split; [|apply elem_of_app; right; by constructor].
      unfold search_results_of. destruct (sd_results data); [|constructor].
      apply List.Forall_map, Forall_true. intros q. apply summary_dom.
  - eapply Forall_impl; [exact Hst|]. intros m. apply reported_response_mono.
Qed.

(** X24. Whatever function calls a tool-call frame carries and whatever
    the search endpoint answers, every tool response
    [send_user_input_to_session] sends to the remote service is for
    [search_products], carries at most five products, each with exactly
    the keys [id], [name], [price], [image_url] and [aisle], and the same
    products were yielded to the caller as a [function_result]. *)
Theorem tool_responses_are_reported (function_calls : list function_call) :
  ∀ st : gen_state,
    Forall (reported_response (gen_yielded st)) (gen_sent st) →
    Forall (reported_response
              (gen_yielded (on_function_calls w function_calls st).2))
      (gen_sent (on_function_calls w function_calls st).2).
Proof.
  unfold on_function_calls.
  induction function_calls as [|fc fcs IH]; intros st Hst; simpl; [done|].
  unfold bind. pose proof (on_function_call_reported fc st Hst) as Hfc.
  destruct (on_function_call w fc st) as [[[]|e] st1]; simpl in *; auto.
Qed.

End Generator.

Lemma tool_responses_are_reported_witness :
  Forall (reported_response
            (Live.gen_yielded
               (Live.on_function_calls Demo.world
                  [Demo.search_call "c1" "blue jacket"]
                  {| Live.gen_yielded := []; Live.gen_sent := [] |}).2))
    (Live.gen_sent
       (Live.on_function_calls Demo.world
          [Demo.search_call "c1" "blue jacket"]
          {| Live.gen_yielded := []; Live.gen_sent := [] |}).2).
Proof. apply tool_responses_are_reported. constructor. Defined.

Section Stream.
Context (w : World) (sio : bool) (room : option string).
Import Live2.

Lemma stream_grows_refl (st : stream_state) : stream_grows sio room 0 st st.
Proof. exists []. rewrite app_nil_r. split; [done|]. split; [done|constructor]. Qed.

Lemma stream_grows_trans (n k : nat) (st1 st2 st3 : stream_state) :
  stream_grows sio room n st1 st2 →
  stream_grows sio room k st2 st3 →
  stream_grows sio room (n + k) st1 st3.
Proof.
  intros (es & H1 & Hl1 & Hf1) (fs & H2 & Hl2 & Hf2).
  exists (es ++ fs). rewrite H2, H1, app_assoc. split; [done|].
  split; [rewrite length_app; lia|by apply Forall_app].
Qed.

Lemma stream_grows_le (n k : nat) (st st' : stream_state) :
  (n ≤ k)%nat → stream_grows sio room n st st' → stream_grows sio room k st st'.
Proof.
  intros Hle (es & H & Hl & Hf). exists es. split; [done|]. split; [lia|done].
Qed.

Lemma emit_grows (e : event) (st : stream_state) :
  (emit sio room e st).1 = Ok tt
  ∧ rng (emit sio room e st).2 = rng st
  ∧ stream_grows sio room 1 st (emit sio room e st).2.
Proof.
  unfold stream_grows, emit, stream_target.
  destruct room as [c|]; [destruct (sio && nonempty c)|]; simpl;
    (split; [done|]; split; [done|]).
  - exists [(c, e)]. split; [done|]. split; [done|]. by repeat constructor.
  - exists []. rewrite app_nil_r. split; [done|]. split; [simpl; lia|constructor].
  - exists []. rewrite app_nil_r. split; [done|]. split; [simpl; lia|constructor].
Qed.

Lemma adds_bind (n k : nat) {A B} (m : M stream_state A)
    (f : A → M stream_state B) :
  stream_adds sio room n m → (∀ a, stream_adds sio room k (f a)) →
  stream_adds sio room (n + k) (bind m f).
Proof.
  intros Hm Hf st. unfold bind. specialize (Hm st).
  destruct (m st) as [[a|e] st1]; simpl in *.
  - eapply stream_grows_trans; [exact Hm|apply Hf].
  - eapply stream_grows_le; [|exact Hm]. lia.
Qed.

Lemma adds_emit (e : event) : stream_adds sio room 1 (emit sio room e).
Proof. intros st. apply emit_grows. Qed.

Lemma adds_ret {A} (a : A) (n : nat) : stream_adds sio room n (ret a : M stream_state A).
Proof. intros st. apply (stream_grows_le 0); [lia|apply stream_grows_refl]. Qed.

Lemma adds_raise {A} (e : string) (n : nat) :
  stream_adds sio room n (raise e : M stream_state A).
Proof. intros st. apply (stream_grows_le 0); [lia|apply stream_grows_refl]. Qed.

Lemma adds_draw : stream_adds sio room 0 (draw w).
Proof.
  intros st. exists []. simpl. rewrite app_nil_r.
  split; [done|]. split; [done|constructor].
Qed.

Lemma on_response_grows (r : response) (st : stream_state) :
  (on_response w sio room r st).1 = Ok tt
  ∧ stream_grows sio room 5 st (on_response w sio room r st).2.
Proof.
  unfold on_response.
  match goal with
  | |- context [try_except ?body _] =>
      assert (Hbody : stream_adds sio room 5 body)
  end.
  { unfold mbind, M_bind.
    change 5%nat with (1 + (1 + (1 + (1 + 1))))%nat.
    apply adds_bind.
    { destruct (r_tool_call r) as [[|c cs]|];
        [apply adds_raise| |apply adds_ret].
      destruct (String.eqb (fc_name c) "search_products"); [|apply adds_ret].
      apply (adds_bind 0 1); [apply adds_draw|]. intros price. apply adds_emit. }
    intros _. apply adds_bind.
    { destruct (text_of r); [apply adds_emit|apply adds_ret]. }
    intros _. apply adds_bind.
    { destruct (r_audio r) as [a|]; [|apply adds_ret].
      destruct (bool_decide (a = [])); [apply adds_ret|apply adds_emit]. }
    intros _. apply adds_bind.
    { destruct (r_output_transcription r); [apply adds_emit|apply adds_ret]. }
    intros _.
    destruct (r_input_transcription r); [apply adds_emit|apply adds_ret]. }
  unfold try_except. specialize (Hbody st).
  match goal with
  | |- context [match ?body st with _ => _ end] =>
      destruct (body st) as [[[]|e] st1]
  end; by split.
Qed.

(** X25. The receive loop of [process_streaming] never fails, whatever
    the frames carry: every frame is handled, and each adds at most five
    events, all of them sent to the client captured when the stream
    started; when no client was captured nothing is emitted. *)
Theorem live2_receive_never_fails (frames : list response) :
  ∀ st : stream_state,
    (receive w sio room frames st).1 = Ok tt
    ∧ stream_grows sio room (5 * length frames) st
        (receive w sio room frames st).2
    ∧ (stream_target sio room = None →
       emitted (receive w sio room frames st).2 = emitted st).
Proof.
  assert (Hmain : ∀ st : stream_state,
            (receive w sio room frames st).1 = Ok tt
            ∧ stream_grows sio room (5 * length frames) st
                (receive w sio room frames st).2).
  { unfold receive.
    induction frames as [|r rest IH]; intros st.
    { split; [done|apply stream_grows_refl]. }
    cbn [for_each length]. unfold bind.
    destruct (on_response_grows r st) as [Hok Hg].
    destruct (on_response w sio room r st) as [[[]|e] st1]; [|done].
    simpl in Hg. destruct (IH st1) as [Hok1 Hg1]. split; [done|].
    replace (5 * S (length rest))%nat with (5 + 5 * length rest)%nat by lia.
    by eapply stream_grows_trans. }
  intros st. destruct (Hmain st) as [Hok Hg]. split; [done|]. split; [done|].
  intros Hnone. destruct Hg as (es & -> & _ & Hf).
  destruct es as [|x es]; [by rewrite app_nil_r|].
  inversion Hf; congruence.
Qed.

(** X26. The search of the [/live2] stream is a placeholder: for a frame
    whose first function call is [search_products], the first event sent
    to the client is a function result with exactly one product, whose id
    is ["1"] and whose name is ["Result for "] followed by the query, with
    no image, an unknown aisle and a random price; the search endpoint
    plays no part. *)
Theorem live2_search_is_placeholder (r : response) (c : function_call)
    (cs : list function_call) (client : string) (st : stream_state) :
  r_tool_call r = Some (c :: cs) →
  fc_name c = "search_products" →
  stream_target sio room = Some client →
  ∃ product es,
    emitted (on_response w sio room r st).2
    = emitted st
      ++ (client, live2_function_message "search_products" [product]) :: es
    ∧ product !! "id" = Some (PStr "1")
    ∧ product !! "name"
      = Some (PStr ("Result for "
                    +:+ py_str (get_or (fc_args c) "query" (PStr ""))))
    ∧ product !! "image_url" = Some (PStr "")
    ∧ product !! "aisle" = Some (PStr "Unknown")
    ∧ product !! "price"
      = Some (PStr (Utils.format_price (randint w (rng st)))).
Proof.
  intros Hcall Hname Htarget.
  assert (Hemit : ∀ e s, emit sio room e s
            = (Ok tt, {| emitted := emitted s ++ [(client, e)]; rng := rng s |})).
  { intros e s. unfold emit, stream_target in *.
    destruct room as [c0|]; [|done].
    destruct (sio && nonempty c0); [|done]. by injection Htarget as ->. }
  set (product := Utils.normalize_product
                    (<["id" := PStr "1"]>
                     (<["name" := PStr ("Result for " +:+
                                        py_str (get_or (fc_args c) "query" (PStr "")))]> ∅))
                    (get_or (fc_args c) "query" (PStr ""))
                    (randint w (rng st))).
  exists product.
  assert (Hrest : ∀ (m : M stream_state unit) s es0,
            emitted s = emitted st ++ es0 →
            stream_adds sio room 4 m →
            ∃ es, emitted (m s).2 = emitted st ++ es0 ++ es).
  { intros m s es0 Hs Hm. destruct (Hm s) as (es & He & _).
    exists es. by rewrite He, Hs, app_assoc. }
  unfold on_response. rewrite Hcall, Hname. simpl String.eqb. cbn iota.
  unfold mbind, M_bind.
  match goal with
  | |- context [try_except (bind _ ?k) _] =>
      assert (Hk : stream_adds sio room 4 (k tt))
  end.
  { change 4%nat with (1 + (1 + (1 + 1)))%nat.
    apply adds_bind.
    { destruct (text_of r); [apply adds_emit|apply adds_ret]. }
    intros _. apply adds_bind.
    { destruct (r_audio r) as [a|]; [|apply adds_ret].
      destruct (bool_decide (a = [])); [apply adds_ret|apply adds_emit]. }
    intros _. apply adds_bind.
    { destruct (r_output_transcription r); [apply adds_emit|apply adds_ret]. }
    intros _.
    destruct (r_input_transcription r); [apply adds_emit|apply adds_ret]. }
  unfold try_except, bind at 1. unfold bind at 1. unfold draw at 1.
  rewrite Hemit. cbn [emitted rng].
  match goal with
  | |- context [?k ?s] =>
      match type of s with
      | stream_state =>
          match k with
          | context [text_of] =>
              destruct (Hrest k s [(client, live2_function_message "search_products" [product])])
                as (es & Hes); [done|exact Hk|]
          end
      end
  end.
  exists es. split.
  - revert Hes.
    match goal with
    | |- context [match ?x with _ => _ end] =>
        destruct x as [[[]|e] s1]
    end; simpl; by intros ->.
  - subst product. rewrite !normalize_product_lookup. simpl.
    repeat split.
Qed.

End Stream.

Lemma live2_search_is_placeholder_witness :
  ∃ product es,
    Live2.emitted
      (Live2.on_response Demo.world true (Some "room")
         (Demo.frame (Some "Here") (Some [Demo.search_call "c1" "blue jacket"]) false)
         {| Live2.emitted := []; Live2.rng := 0 |}).2
    = (("room", Live2.live2_function_message "search_products" [product]) :: es)
    ∧ product !! "name" = Some (PStr "Result for blue jacket").
Proof.
  destruct (live2_search_is_placeholder Demo.world true (Some "room")
              (Demo.frame (Some "Here") (Some [Demo.search_call "c1" "blue jacket"]) false)
              (Demo.search_call "c1" "blue jacket") [] "room"
              {| Live2.emitted := []; Live2.rng := 0 |})
    as (product & es & H1 & _ & H2 & _); try reflexivity.
  exists product, es. split; [exact H1|exact H2].
Defined.

(** * The completion of a turn *)

Section Completion.
Context (w : World) (session_id : string).
Import Live.

(** The tool-call branch emits [response_complete] at most once, with the
    fallback text, and sets the flag when it does; otherwise it leaves the
    flag as it is. *)
Lemma on_tool_call_complete_once (function_calls : list function_call)
    (st : task_state) :
  ∃ new,
    complete_texts (emitted (on_tool_call w session_id function_calls st).2)
    = complete_texts (emitted st) ++ new
    ∧ ((new = []
        ∧ response_complete_sent (sd (on_tool_call w session_id function_calls st).2)
          = response_complete_sent (sd st))
       ∨ (new = [fallback_text]
          ∧ response_complete_sent (sd (on_tool_call w session_id function_calls st).2)
            = true)).
Proof.
  unfold on_tool_call. destruct function_calls as [|c rest]; simpl.
  { exists []. rewrite app_nil_r. auto. }
  run.
  destruct (execute_function_returns w (fc_name c) (fc_args c)
              (push_call (fc_name c, fc_args c) st)) as [tr ->].
  simpl.
  destruct (String.eqb (fc_name c) "search_products"); simpl.
  2: { exists []. rewrite app_nil_r. auto. }
  destruct (results_of tr) as [results|]; simpl.
  2: { exists []. rewrite app_nil_r. auto. }
  destruct (has_target (sd st)) eqn:Htarget; simpl.
  - destruct (normalize_all_ok w results (push_call (fc_name c, fc_args c) st))
      as (enriched & st1 & -> & _ & Hsd & _ & Hem & _).
    simpl. destruct (response_complete_sent (sd st)) eqn:Hflag; simpl.
    + exists []. rewrite complete_texts_app, Hem, Hsd. simpl.
      rewrite app_nil_r. auto.
    + exists [fallback_text]. rewrite !complete_texts_app, Hem. simpl.
      rewrite app_nil_r. auto.
  - destruct (response_complete_sent (sd st)) eqn:Hflag; simpl;
      exists []; rewrite app_nil_r; auto.
Qed.

Lemma receive_step_complete_once (r : response) (acc : string)
    (st : task_state) :
  receivable r = true →
  ∃ new,
    complete_texts (emitted (receive_step w session_id r acc st).2)
    = complete_texts (emitted st) ++ new
    ∧ ((new = []
        ∧ response_complete_sent (sd (receive_step w session_id r acc st).2)
          = response_complete_sent (sd st))
       ∨ (new = [fallback_text]
          ∧ response_complete_sent (sd (receive_step w session_id r acc st).2)
            = true
          ∧ ∀ a, (receive_step w session_id r acc st).1 ≠ Ok (a, false))).
Proof.
  intros Hr%negb_true_iff.
  destruct (r_tool_call r) as [function_calls|] eqn:Hcall.
  - destruct (receive_step_tool w session_id r function_calls acc st Hcall)
      as (st1 & (Hsd & _ & _ & _ & Hct) & _ & ->).
    destruct (on_tool_call_complete_once function_calls st1)
      as (new & Hnew & Hcases).
    exists new.
    destruct (on_tool_call w session_id function_calls st1) as [[[]|e] st2];
      simpl in *; rewrite Hnew, Hct; (split; [done|]);
      (destruct Hcases as [[-> Hflag] | [-> Hflag]];
       [left; by rewrite Hflag, Hsd|right; by repeat split]).
  - destruct (receive_step_quiet w session_id r acc st) as (st1 & -> & Hag & _).
    { unfold quiet. rewrite Hcall, Hr. by rewrite bool_decide_eq_true_2. }
    destruct Hag as (Hsd & _ & _ & _ & Hct). simpl.
    exists []. rewrite app_nil_r. split; [done|]. left. by rewrite Hsd.
Qed.

(** Over frames without the end-of-turn attribute the receive loop emits
    [response_complete] at most once, and the flag is set when it did. *)
Lemma receive_loop_complete_once (frames : list response) :
  Forall (λ r, receivable r = true) frames →
  ∀ (acc : string) (st : task_state),
    ∃ new,
      complete_texts (emitted (receive_loop w session_id frames acc st).2)
      = complete_texts (emitted st) ++ new
      ∧ ((new = []
          ∧ response_complete_sent
              (sd (receive_loop w session_id frames acc st).2)
            = response_complete_sent (sd st))
         ∨ (new = [fallback_text]
            ∧ response_complete_sent
                (sd (receive_loop w session_id frames acc st).2) = true)).
Proof.
  induction 1 as [|r rest Hr _ IH]; intros acc st; simpl.
  { exists []. rewrite app_nil_r. auto. }
  unfold mbind, M_bind, bind.
  destruct (receive_step_complete_once r acc st Hr) as (new & Hnew & Hcases).
  destruct (receive_step w session_id r acc st) as [[[acc1 stop]|e] st1];
    simpl in *.
  - destruct stop; simpl.
    + exists new. split; [done|]. destruct Hcases as [? | (-> & ? & _)]; auto.
    + destruct Hcases as [[-> Hflag] | (-> & _ & Hstop)];
        [|by destruct (Hstop acc1)].
      destruct (IH acc1 st1) as (new1 & Hnew1 & Hcases1).
      exists new1. rewrite Hnew1, Hnew, app_nil_r. split; [done|].
      destruct Hcases1 as [[-> Hflag1] | ?]; [left|by right].
      by rewrite Hflag1.
  - exists new. split; [done|]. destruct Hcases as [? | (-> & ? & _)]; auto.
Qed.

(** What follows the loop emits [response_complete] when a client is
    attached and the flag is not set, and never otherwise. *)
Lemma after_receive_complete_texts (tts : bool) (acc : string)
    (st : task_state) :
  complete_texts (emitted (after_receive w tts session_id acc st).2)
  = complete_texts (emitted st)
    ++ (if target_truthy (sd st) && negb (response_complete_sent (sd st))
        then [acc] else []).
Proof.
  unfold after_receive. run.
  destruct (target_truthy (sd st) && negb (response_complete_sent (sd st)));
    simpl.
  - match goal with
    | |- context [stream_tts_audio w tts acc ?room ?s] =>
        destruct (stream_tts_audio_returns w tts acc room s)
          as (st1 & -> & _ & Hresp & _ & _ & Hlr & Hct)
    end.
    simpl in *. rewrite Hresp.
    destruct (responses st !! session_id); simpl;
      [rewrite Hlr; destruct (last_response st); simpl|];
      rewrite Hct, complete_texts_app; done.
  - destruct (responses st !! session_id); simpl;
      [destruct (last_response st); simpl|]; by rewrite app_nil_r.
Qed.

(** The rest of an iteration, once the input was sent: at most one
    [response_complete], and exactly one when the stream was read to its
    end for a session with a client attached. *)
Lemma read_and_finish_complete_once (tts : bool) (frames : list response)
    (st : task_state) :
  Forall (λ r, receivable r = true) frames →
  ∃ new,
    complete_texts (emitted (read_and_finish w tts session_id frames st).2)
    = complete_texts (emitted st) ++ new
    ∧ (length new ≤ 1)%nat
    ∧ (∀ c, (read_and_finish w tts session_id frames st).1 = Ok c →
            target_truthy (sd st) = true →
            response_complete_sent (sd st) = false →
            length new = 1%nat).
Proof.
  intros Hframes. unfold read_and_finish.
  destruct (receive_loop_complete_once frames Hframes "" st)
    as (new & Hnew & Hcases).
  pose proof (receive_loop_extends w session_id frames "" st)
    as (_ & Hsame & _).
  apply same_session_target in Hsame as [_ Htt].
  destruct (receive_loop w session_id frames "" st) as [[acc|e] st1];
    simpl in *.
  2: { exists new. split; [done|].
       split; [destruct Hcases as [[-> _] | [-> _]]; simpl; lia|done]. }
  pose proof (after_receive_complete_texts tts acc st1) as Hafter.
  destruct (after_receive w tts session_id acc st1) as [[[]|e] st2];
    simpl in *; rewrite Hafter, Hnew, <- app_assoc;
    (eexists; split; [reflexivity|]);
    (destruct Hcases as [[-> Hflag] | [-> ->]];
     [rewrite Hflag, Htt;
      destruct (target_truthy (sd st) && negb (response_complete_sent (sd st)))
        eqn:Hcond; simpl;
      (split; [lia|]); intros c _ Ht Hf; rewrite Ht, Hf in Hcond; done
     |rewrite andb_false_r; simpl; split; [lia|done]]).
Qed.

End Completion.

(** C1.  In a turn of the background task [response_complete] is emitted
    at most once, whatever the message, the state of the session and the
    frames of the stream, as long as no frame carries a truthy
    [end_of_turn] attribute, which is the case of the frames
    [session.receive()] yields.  This covers the turn with a tool result
    (the fallback is emitted in the tool-call branch, and the flag keeps
    the emission after the loop away), the turn whose stream is read to its
    end (the emission after the loop), and the turn of a frame that cannot
    be decoded.  When the turn ends normally for a session with a client
    attached, and the flag was clear at its start, the event is emitted
    exactly once. *)
Theorem complete_emitted_at_most_once (w : World) (tts : bool)
    (session_id : string) (m : Live.message) (frames : list response)
    (st : Live.task_state) :
  Forall (λ r, receivable r = true) frames →
  ∃ new,
    complete_texts
      (Live.emitted (Live.handle_message w tts session_id m frames st).2)
    = complete_texts (Live.emitted st) ++ new
    ∧ (length new ≤ 1)%nat
    ∧ ((Live.handle_message w tts session_id m frames st).1 = Ok Live.Next →
       Live.target_truthy (Live.sd st) = true →
       Live.response_complete_sent (Live.sd st) = false →
       length new = 1%nat).
Proof.
  intros Hframes.
  assert (Hdec : m = Live.MNone ∨ m ≠ Live.MNone) by (destruct m; auto).
  destruct Hdec as [-> | Hm].
  { exists []. simpl. rewrite app_nil_r. split; [done|]. split; [lia|done]. }
  destruct (handle_message_cases w tts session_id m frames st Hm)
    as [[_ ->] | [(message & url & _ & _ & _ & ->)
                 | (message & parts & _ & _ & ->)]].
  - exists []. simpl. rewrite app_nil_r. split; [done|]. split; [lia|done].
  - destruct (Live.target_truthy (Live.sd st)); simpl.
    + eexists. rewrite complete_texts_app. split; [reflexivity|].
      split; [simpl; lia|done].
    + exists []. rewrite app_nil_r. split; [done|]. split; [simpl; lia|done].
  - match goal with
    | |- context [read_and_finish w tts session_id frames ?s] =>
        destruct (read_and_finish_complete_once w session_id tts frames s Hframes)
          as (new & Hnew & Hlen & Hone)
    end.
    exists new. rewrite Hnew. split; [done|]. split; [done|].
    intros Hok Ht Hf. by apply (Hone Live.Next).
Qed.

(** The turn of the scenario without a tool call: two text frames, then
    the stream ends. *)
Lemma complete_emitted_at_most_once_witness :
  ∃ new,
    complete_texts
      (Live.emitted
         (Live.handle_message Demo.world false "s1"
            (Live.MPair (Some "hello") None)
            [Demo.frame (Some "Hi") None false;
             Demo.frame (Some " there!") None false]
            (Demo.task_start Demo.attached)).2)
    = new
    ∧ length new = 1%nat.
Proof.
  destruct (complete_emitted_at_most_once Demo.world false "s1"
              (Live.MPair (Some "hello") None)
              [Demo.frame (Some "Hi") None false;
               Demo.frame (Some " there!") None false]
              (Demo.task_start Demo.attached)) as (new & Hnew & _ & Hone).
  - repeat constructor.
  - exists new. split; [exact Hnew|]. apply Hone; reflexivity.
Defined.

Section Tool_result.
Context (w : World) (session_id : string).
Import Live.

(** Reading a stream in which the search tool produces a result, for a
    session with a client attached. *)
Lemma read_and_finish_tool (tts : bool) (pre post : list response)
    (r : response) (c : function_call) (cs : list function_call)
    (data : search_data) (results : list pydict) (text : string)
    (entry : pydict) (st : task_state) :
  responses st !! session_id = Some entry →
  has_target (sd st) = true →
  response_complete_sent (sd st) = false →
  Forall (λ r, quiet r = true) pre →
  r_tool_call r = Some (c :: cs) →
  fc_name c = "search_products" →
  truthy (get (fc_args c) "query") = true →
  http_get w ("http://localhost:5000/api/search?query="
              +:+ py_str (get (fc_args c) "query"))
    = HttpResponse 200 (Ok data) text →
  sd_results data = Some results →
  ∃ st',
    read_and_finish w tts session_id (pre ++ r :: post) st = (Ok Next, st')
    ∧ complete_texts (emitted st')
      = complete_texts (emitted st) ++ [fallback_text].
Proof.
  intros Hentry Htarget Hflag Hpre Hcall Hname Hq Hget Hres.
  unfold read_and_finish.
  destruct (receive_loop_quiet w session_id pre (r :: post) Hpre "" st)
    as (st1 & -> & Hsd1 & Hresp1 & _ & _ & Hct1).
  simpl receive_loop. unfold mbind, M_bind, bind at 1.
  destruct (receive_step_tool w session_id r (c :: cs) ("" +:+ texts_of pre) st1 Hcall)
    as (st2 & (Hsd2 & Hresp2 & _ & _ & Hct2) & Hlast2 & ->).
  destruct (on_tool_call_search w session_id c cs data results text st2
              Hname Hq Hget Hres)
    as (enriched & st3 & -> & _ & Hsd3 & Hresp3 & Hem3 & _ & _ & Hlast3).
  { by rewrite Hsd2, Hsd1. }
  { by rewrite Hsd2, Hsd1. }
  simpl.
  destruct (after_receive_ok w session_id tts
              (("" +:+ texts_of pre) +:+ default "" (text_of r))
              st3 entry r) as (st4 & -> & Hsd4 & _ & _ & _ & Hct4).
  { by rewrite Hresp3, Hresp2, Hresp1. }
  { by rewrite Hlast3. }
  eexists. split; [reflexivity|].
  rewrite Hct4, Hsd3, Hem3. simpl.
  rewrite andb_false_r, app_nil_r, complete_texts_app, Hct2, Hct1.
  simpl. done.
Qed.

End Tool_result.

(** C5, on the code.  In every turn in which the search tool produced a
    result (the first call of the tool-call frame is [search_products], the
    search endpoint answers 200 with a ["results"] list, a client is
    attached), exactly one [response_complete] is emitted and it carries
    ["Here you go!"], whatever text the frames before the call and the
    frame of the call itself added to the accumulated text, and whether the
    message came without a camera frame or with one that decodes (a message
    whose frame does not decode is not sent, and its turn produces no
    result). *)
Theorem tool_result_complete_is_fallback (w : World) (tts : bool)
    (session_id : string) (m : Live.message) (message : Live.content)
    (frame : option string) (pre post : list response) (r : response)
    (c : function_call) (cs : list function_call)
    (data : search_data) (results : list pydict) (text : string)
    (st : Live.task_state) :
  Live.unpack m = (Some message, frame) →
  (str_truthy frame = false
   ∨ ∃ url header encoded frame_bytes,
       frame = Some url
       ∧ split_once "," url = Some (header, encoded)
       ∧ b64decode w encoded = Ok frame_bytes) →
  Live.has_target (Live.sd st) = true →
  Live.response_complete_sent (Live.sd st) = false →
  Forall (λ r, quiet r = true) pre →
  r_tool_call r = Some (c :: cs) →
  fc_name c = "search_products" →
  truthy (get (fc_args c) "query") = true →
  http_get w ("http://localhost:5000/api/search?query="
              +:+ py_str (get (fc_args c) "query"))
    = HttpResponse 200 (Ok data) text →
  sd_results data = Some results →
  (Live.handle_message w tts session_id m (pre ++ r :: post) st).1 = Ok Live.Next
  ∧ complete_texts
      (Live.emitted (Live.handle_message w tts session_id m (pre ++ r :: post) st).2)
    = complete_texts (Live.emitted st) ++ ["Here you go!"].
Proof.
  intros Hm Hframe Htarget Hflag Hpre Hcall Hname Hq Hget Hres.
  assert (Hne : m ≠ Live.MNone) by (intros ->; discriminate).
  destruct (handle_message_cases w tts session_id m (pre ++ r :: post) st Hne)
    as [[Hnone _] | [(message' & url & Hu & Hurl & Hbad & _)
                    | (message' & parts & _ & _ & ->)]].
  - by rewrite Hm in Hnone.
  - exfalso. rewrite Hm in Hu. injection Hu as <- ->.
    destruct Hframe as [Hf | (u & header & encoded & frame_bytes & [= <-] & Hs & Hd)].
    + simpl in Hf. congruence.
    + destruct Hbad as [Hbad | (h' & e' & err & Hs' & Hd')]; [congruence|].
      rewrite Hs in Hs'. injection Hs' as <- <-. congruence.
  - match goal with
    | |- context [read_and_finish w tts session_id _ ?s] =>
        destruct (read_and_finish_tool w session_id tts pre post r c cs data
                    results text Live.fresh_response s)
          as (st' & -> & Hct); try done
    end.
    simpl. apply lookup_insert_eq.
Qed.

(** A turn with a camera frame, and text before and in the frame of the
    search call. *)
Lemma tool_result_complete_is_fallback_witness :
  complete_texts
    (Live.emitted
       (Live.handle_message Demo.world false "s1"
          (Live.MPair (Some "find me a blue jacket")
             (Some "data:image/png;base64,QUJD"))
          ([Demo.frame (Some "Sure") None false]
           ++ Demo.frame (Some ", one moment")
                (Some [Demo.search_call "c1" "blue jacket"]) false
           :: [Demo.frame None None true])
          (Demo.task_start Demo.attached)).2)
  = ["Here you go!"].
Proof.
  refine (proj2 (tool_result_complete_is_fallback Demo.world false "s1"
            (Live.MPair (Some "find me a blue jacket")
               (Some "data:image/png;base64,QUJD"))
            (Live.CText "find me a blue jacket")
            (Some "data:image/png;base64,QUJD")
            [Demo.frame (Some "Sure") None false] [Demo.frame None None true]
            (Demo.frame (Some ", one moment")
               (Some [Demo.search_call "c1" "blue jacket"]) false)
            (Demo.search_call "c1" "blue jacket") []
            {| sd_results := Some (Demo.jacket <$> [1; 2; 3; 4; 5; 6]%Z);
               sd_extra := ∅ |}
            (Demo.jacket <$> [1; 2; 3; 4; 5; 6]%Z) ""
            (Demo.task_start Demo.attached)
            _ _ _ _ _ _ _ _ _ _)).
  - reflexivity.
  - right.
    exists "data:image/png;base64,QUJD", "data:image/png;base64", "QUJD",
      (list_byte_of_string "QUJD").
    repeat split.
  - vm_compute. reflexivity.
  - reflexivity.
  - repeat constructor.
  - reflexivity.
  - reflexivity.
  - vm_compute. reflexivity.
  - reflexivity.
  - reflexivity.
Defined.

(** * The first function call of a frame *)

Section First_call_live2.
Context (w : World) (sio : bool) (room : option string).
Import Live2.



End First_call_live2.



